(** * Provisioning and teardown of game-server workloads: a verification model

    The development follows [k8s_manager.py] (class [K8sManager]),
    [resource_manager.py] (class [MinecraftServerManager]), [auth.py] and the
    endpoints of [main.py].  Each method is written as a program over the
    calls it makes to the orchestration platform; programs are run against
    a model of the platform (a name-addressed object store, a clock and a
    script of platform behaviour), or interleaved step by step. *)

From Stdlib Require Import String Ascii List ZArith Lia Bool.
From stdpp Require Import gmap strings pretty.

Local Open Scope string_scope.
Local Open Scope Z_scope.

(** ** Name normalization: [K8sManager._sanitize_name] *)

Module Sanitize.

(** Strings are byte strings.  [str.lower] is modelled on the ASCII
    range, where it is exact; every byte outside [a-z0-9-] is removed by
    the filter that follows it.  Outside ASCII, Python lowers two
    characters (U+0130 and U+212A) to text that holds an ASCII letter,
    which the filter keeps: this is not followed here, and what depends
    on the lowering of a name is stated for ASCII names.  (Idempotence
    is also shown for any other lowering that leaves the strings over
    [a-z0-9-] as they are.) *)
Definition lower_char (c : ascii) : ascii :=
  let n := N_of_ascii c in
  if ((65 <=? n) && (n <=? 90))%N then ascii_of_N (n + 32) else c.

Definition is_dash (c : ascii) : bool := (N_of_ascii c =? 45)%N.

(** The complement of the character class [[^a-z0-9-]]. *)
Definition allowed (c : ascii) : bool :=
  let n := N_of_ascii c in
  (((97 <=? n) && (n <=? 122)) || ((48 <=? n) && (n <=? 57)) || (n =? 45))%N.

(** [lstrip('-')]. *)
Fixpoint drop_dashes (l : list ascii) : list ascii :=
  match l with
  | c :: l' => if is_dash c then drop_dashes l' else l
  | [] => []
  end.

(** [strip('-')]. *)
Definition strip_dashes (l : list ascii) : list ascii :=
  rev (drop_dashes (rev (drop_dashes l))).

(** [re.sub(r'-+', '-', _)]: a dash followed by a dash is dropped. *)
Fixpoint collapse (l : list ascii) : list ascii :=
  match l with
  | [] => []
  | c :: l' =>
      if is_dash c
      then match l' with
           | d :: _ => if is_dash d then collapse l' else c :: collapse l'
           | [] => [c]
           end
      else c :: collapse l'
  end.

(** The three steps of the method, for a given lowering of the name. *)
Definition sanitize_with (lower : list ascii -> list ascii) (l : list ascii)
  : list ascii :=
  let sanitized := List.filter allowed (lower l) in
  let sanitized := strip_dashes sanitized in
  collapse sanitized.

Definition sanitize_chars (l : list ascii) : list ascii :=
  sanitize_with (map lower_char) l.

Definition _sanitize_name (name : string) : string :=
  string_of_list_ascii (sanitize_chars (list_ascii_of_string name)).

(** Strings made of the allowed characters only. *)
Definition clean (l : list ascii) : Prop := List.Forall (fun c => allowed c = true) l.

(** Strings that do not start, or do not end, with a dash. *)
Definition no_leading_dash (l : list ascii) : Prop := is_dash (hd "a"%char l) = false.
Definition no_trailing_dash (l : list ascii) : Prop :=
  is_dash (List.last l "a"%char) = false.

End Sanitize.

(** ** The orchestration platform as seen by the client calls *)

(** The platform is not part of the repository.  It is modelled as one
    namespace of objects addressed by kind and name.  Reading or deleting
    an absent name answers 404, as does patching an absent object; creating
    an existing name answers 409.  Any remote call can instead meet a
    platform fault (any other status), which has no effect on the objects.
    Deletion is immediate.  What the platform's controllers do on their
    own (binding a claim, running a task, starting pods) is not computed:
    the status they report is read from a script, one entry per call. *)

Module Platform.

Inductive Kind : Type :=
| Deployment | Service | Ingress | ConfigMap
| PersistentVolume | PersistentVolumeClaim | Job.

#[global] Instance Kind_eq_dec : EqDecision Kind.
Proof. solve_decision. Defined.

#[global] Instance Kind_countable : Countable Kind.
Proof.
  refine (inj_countable'
    (fun k => match k with
              | Deployment => 0 | Service => 1 | Ingress => 2 | ConfigMap => 3
              | PersistentVolume => 4 | PersistentVolumeClaim => 5 | Job => 6
              end%nat)
    (fun n => match n with
              | 0 => Deployment | 1 => Service | 2 => Ingress | 3 => ConfigMap
              | 4 => PersistentVolume | 5 => PersistentVolumeClaim | _ => Job
              end%nat) _).
  by intros [].
Defined.

(** A Python [dict] with string keys and values, in insertion order. *)
Definition dict : Type := list (string * string).

(** What the manager puts into the objects it creates (the fields that
    vary with its arguments; fixed container specifications are left out). *)
Inductive Body : Type :=
| DeploymentBody (claim_name config_map : string)
                 (memory_limit memory_request cpu_limit cpu_request : string)
| ServiceBody (app : string)
| IngressBody (host service_name : string)
| ConfigMapBody (data : dict)
| PersistentVolumeBody (capacity nfs_server nfs_path : string)
| PersistentVolumeClaimBody (capacity volume_name : string)
| JobBody (nfs_path : string).

(** The [status] part of an object, maintained by the platform. *)
Record Status : Type := mkStatus {
  phase : string;
  succeeded : option nat;
  failed : option nat
}.

(** The calls of the manager: the client's read, create, patch and
    delete methods by kind of object, the pod and claim listings, and the
    local clock ([time.time], [time.sleep]) and lock. *)
Inductive Call : Type :=
| read (k : Kind) (name : string)
| create (k : Kind) (name : string) (body : Body)
| patch_config_map (name : string) (data : dict)
| delete (k : Kind) (name : string)
| list_namespaced_pod (label_selector : string)
| read_namespaced_pod_log (name : string)
| list_namespaced_persistent_volume_claim (label_selector : string)
| time_time
| time_sleep (seconds : Z)
| lock_acquire
| lock_release.

(** What a call that succeeds gives back. *)
Inductive Reply : Type :=
| RNone
| RObject (b : Body) (st : Status)
| RItems (names : list string)
| RDicts (items : list dict)
| RText (text : string)
| RTime (millis : Z).

Definition reply_status (r : Reply) : Status :=
  match r with RObject _ st => st | _ => mkStatus "" None None end.
Definition reply_items (r : Reply) : list string :=
  match r with RItems l => l | _ => [] end.
Definition reply_dicts (r : Reply) : list dict :=
  match r with RDicts l => l | _ => [] end.
Definition reply_time (r : Reply) : Z :=
  match r with RTime t => t | _ => 0 end.

(** One entry of the platform script is consumed by each remote call:
    whether the call fails with a platform fault, how long it takes
    (milliseconds), and what the platform's controllers report at that
    moment. *)
Record Tick : Type := mkTick {
  fault : option Z;
  latency : nat;
  status : Status;
  pods : list string;
  pod_log : option string;
  listing : list dict
}.

(** The entry used when the script is exhausted: no fault, no delay,
    nothing reported yet. *)
Definition quiet : Tick :=
  mkTick None 0 (mkStatus "Pending" None None) [] None [].

(** Not-found is reported for absent names only; it is never a fault. *)
Definition injected (t : Tick) : option Z :=
  match fault t with
  | Some s => if s =? 404 then None else Some s
  | None => None
  end.

Abbreviation Store := (gmap (Kind * string) Body).

(** Patching a config object replaces the given keys and keeps the others. *)
Definition merge_data (new old : dict) : dict :=
  (new ++ List.filter (fun kv => negb (existsb (fun kv' => String.eqb (fst kv') (fst kv)) new)) old)%list.

(** The answer of the platform, fault apart, and the objects after the
    call. *)
Definition serve (c : Call) (t : Tick) (objs : Store) : (Z + Reply) * Store :=
  match c with
  | read k n =>
      match objs !! (k, n) with
      | Some b => (inr (RObject b (status t)), objs)
      | None => (inl 404, objs)
      end
  | create k n b =>
      match objs !! (k, n) with
      | Some _ => (inl 409, objs)
      | None => (inr RNone, <[(k, n) := b]> objs)
      end
  | patch_config_map n d =>
      match objs !! (ConfigMap, n) with
      | Some (ConfigMapBody old) =>
          (inr RNone, <[(ConfigMap, n) := ConfigMapBody (merge_data d old)]> objs)
      | Some _ => (inl 422, objs)
      | None => (inl 404, objs)
      end
  | delete k n =>
      match objs !! (k, n) with
      | Some _ => (inr RNone, base.delete (k, n) objs)
      | None => (inl 404, objs)
      end
  | list_namespaced_pod _ => (inr (RItems (pods t)), objs)
  | read_namespaced_pod_log _ =>
      match pod_log t with
      | Some text => (inr (RText text), objs)
      | None => (inl 404, objs)
      end
  | list_namespaced_persistent_volume_claim _ => (inr (RDicts (listing t)), objs)
  | time_time | time_sleep _ | lock_acquire | lock_release => (inr RNone, objs)
  end.

(** The state a program runs in: the objects of the platform, the clock,
    the rest of the script, the log of calls made so far, and the
    manager's lock. *)
Record World : Type := mkWorld {
  objects : Store;
  clock : Z;
  script : list Tick;
  trace : list (Call * (Z + Reply));
  lock_held : bool
}.

(** The answer to one call and the world after it.  The clock counts
    milliseconds; [time_sleep] advances it by the requested seconds and a
    remote call by the latency of its tick.  Every call is logged with
    its answer. *)
Definition respond (c : Call) (w : World) : (Z + Reply) * World :=
  let log r := (trace w ++ [(c, r)])%list in
  match c with
  | time_time =>
      let r := inr (RTime (clock w)) in
      (r, mkWorld (objects w) (clock w) (script w) (log r) (lock_held w))
  | time_sleep s =>
      let r := inr RNone in
      (r, mkWorld (objects w) (clock w + 1000 * s) (script w) (log r) (lock_held w))
  | lock_acquire =>
      let r := inr RNone in
      (r, mkWorld (objects w) (clock w) (script w) (log r) true)
  | lock_release =>
      let r := inr RNone in
      (r, mkWorld (objects w) (clock w) (script w) (log r) false)
  | _ =>
      let t := hd quiet (script w) in
      let '(r, objs) :=
        match injected t with
        | Some s => (inl s, objects w)
        | None => serve c t (objects w)
        end in
      (r, mkWorld objs (clock w + Z.of_nat (latency t)) (tl (script w))
                  (log r) (lock_held w))
  end.

End Platform.

(** ** Programs over platform calls *)

Module Program.
Import Platform.

(** The exceptions that occur: [kubernetes.client.rest.ApiException]
    (with its HTTP status), plain [Exception] (with its message),
    the interpreter's [AttributeError] and [TypeError], and FastAPI's
    [HTTPException]. *)
Inductive Exn : Type :=
| ApiException (status : Z)
| Exception (msg : string)
| AttributeError (msg : string)
| TypeError (msg : string)
| HTTPException (status_code : Z) (detail : string).

(** [str(e)]; for [ApiException] only its first line. *)
Definition str (e : Exn) : string :=
  match e with
  | ApiException s => "(" +:+ pretty s +:+ ")"
  | Exception m | AttributeError m | TypeError m => m
  | HTTPException c d => pretty c +:+ ": " +:+ d
  end.

(** A program either returns, raises, or asks for one call and goes on
    with its answer: an HTTP status on failure, a reply otherwise.
    [Spin] stands for a loop that is still running when the iterations
    counted by the model are used up. *)
Inductive Prog (A : Type) : Type :=
| Ret (a : A)
| Raise (e : Exn)
| Spin
| Vis (c : Call) (k : Z + Reply -> Prog A).

Arguments Ret {A} a.
Arguments Raise {A} e.
Arguments Spin {A}.
Arguments Vis {A} c k.

Fixpoint bind {A B} (m : Prog A) (f : A -> Prog B) : Prog B :=
  match m with
  | Ret a => f a
  | Raise e => Raise e
  | Spin => Spin
  | Vis c k => Vis c (fun r => bind (k r) f)
  end.

(** [try: m  except Exception as e: h e]. *)
Fixpoint try_except {A} (m : Prog A) (h : Exn -> Prog A) : Prog A :=
  match m with
  | Ret a => Ret a
  | Raise e => h e
  | Spin => Spin
  | Vis c k => Vis c (fun r => try_except (k r) h)
  end.

(** [try: m  except ApiException as e: h e.status]. *)
Definition except_ApiException {A} (m : Prog A) (h : Z -> Prog A) : Prog A :=
  try_except m (fun e => match e with ApiException s => h s | _ => Raise e end).

(** A client call: a failure status becomes an [ApiException]. *)
Definition api (c : Call) : Prog Reply :=
  Vis c (fun r => match r with inl s => Raise (ApiException s) | inr v => Ret v end).

Inductive Outcome (A : Type) : Type :=
| Returned (a : A)
| Raised (e : Exn)
| Unfinished.

Arguments Returned {A} a.
Arguments Raised {A} e.
Arguments Unfinished {A}.

(** Sequential execution against the platform. *)
Fixpoint run {A} (p : Prog A) (w : World) : Outcome A * World :=
  match p with
  | Ret a => (Returned a, w)
  | Raise e => (Raised e, w)
  | Spin => (Unfinished, w)
  | Vis c k => let '(r, w') := respond c w in run (k r) w'
  end.

(** One call of a thread; a thread that asks for a held lock waits. *)
Definition step {A} (p : Prog A) (w : World) : Prog A * World :=
  match p with
  | Vis c k =>
      match c with
      | lock_acquire =>
          if lock_held w then (p, w) else let '(r, w') := respond c w in (k r, w')
      | _ => let '(r, w') := respond c w in (k r, w')
      end
  | _ => (p, w)
  end.

(** Two threads under a schedule: [true] lets the first one make a step. *)
Fixpoint interleave {A B} (sched : list bool) (p : Prog A) (q : Prog B) (w : World)
  : Prog A * Prog B * World :=
  match sched with
  | [] => (p, q, w)
  | true :: sched' => let '(p', w') := step p w in interleave sched' p' q w'
  | false :: sched' => let '(q', w') := step q w in interleave sched' p q' w'
  end.

(** Every call the program can make, whatever the answers, satisfies [P],
    and every value it can return satisfies [Q]. *)
Inductive only {A} (P : Call -> Prop) (Q : A -> Prop) : Prog A -> Prop :=
| only_Ret a : Q a -> only P Q (Ret a)
| only_Raise e : only P Q (Raise e)
| only_Spin : only P Q Spin
| only_Vis c k : P c -> (forall r, only P Q (k r)) -> only P Q (Vis c k).

End Program.

Declare Scope prog_scope.
Delimit Scope prog_scope with prog.
Notation "x <- m ;; k" := (Program.bind m (fun x => k))
  (at level 100, m at next level, k at level 200, right associativity) : prog_scope.
Notation "m ;; k" := (Program.bind m (fun _ => k))
  (at level 100, k at level 200, right associativity) : prog_scope.

(** ** The process environment at import time *)

Module Environment.

(** [os.environ] once [load_dotenv()] has run. *)
Abbreviation Environ := (gmap string string).

(** [os.getenv(name)] and [os.getenv(name, default)]: the default stands
    in for an unset variable only. *)
Definition getenv (environ : Environ) (name : string) : option string :=
  environ !! name.
Definition getenv_default (environ : Environ) (name fallback : string) : string :=
  default fallback (environ !! name).

(** Python truth value of an optional string ([None] and [''] are false). *)
Definition truthy (v : option string) : bool :=
  match v with Some (String _ _) => true | _ => false end.

(** A module either loads, giving its constants, or raises
    [RuntimeError] while it is imported. *)
Inductive Import (A : Type) : Type :=
| Loaded (constants : A)
| RuntimeError (msg : string).

Arguments Loaded {A} constants.
Arguments RuntimeError {A} msg.

End Environment.

(** ** [k8s_manager.py]: class [K8sManager] *)

Module K8sManager.
Import Platform Program Sanitize.
Local Open Scope prog_scope.

(** Console output ([print]) is left out throughout.

    The module constants read from the environment, as far as they reach
    the fields kept in the objects (the namespace is the one namespace of
    the platform model). *)
Record Config : Type := mkConfig {
  NFS_BASE_PATH : string;
  NFS_SERVER : string;
  GAME_DOMAIN : string;
  VELOCITY_SECRET : string
}.

(** The defaults of the module constants; [VELOCITY_SECRET] has none and
    must be set. *)
Definition default_config (velocity_secret : string) : Config :=
  mkConfig "/mnt/nfs-minecraft" "100.75.219.111" "mc.msdca.shop" velocity_secret.

Definition nl : string := String "010"%char "".
Definition dq : string := String "034"%char "".

(** [time.time()], in milliseconds, and [time.sleep(seconds)]. *)
Definition time : Prog Z := r <- api time_time ;; Ret (reply_time r).
Definition sleep (seconds : Z) : Prog unit := api (time_sleep seconds) ;; Ret tt.

(** Python truth value of an optional count ([None] and [0] are false). *)
Definition truthy (n : option nat) : bool :=
  match n with Some (S _) => true | _ => false end.

(** The iterations a wait can make: each one sleeps two seconds, so the
    elapsed time passes [timeout] seconds within this many loop tests. *)
Definition poll_budget (timeout : Z) : nat := S (Z.to_nat ((timeout + 1) / 2)).

Section WithConfig.
Context (cfg : Config).

(** The existence probe of the claim: not-found is [False], any other
    failure is raised. *)
Definition pvc_exists (pvc_name : string) : Prog bool :=
  except_ApiException
    (api (read PersistentVolumeClaim pvc_name) ;; Ret true)
    (fun status => if status =? 404 then Ret false else Raise (ApiException status)).

(** The volume is created unless one of its name exists. *)
Definition create_persistent_volume (pvc_name storage_capacity : string) : Prog unit :=
  let pv_name := "pv-" +:+ pvc_name in
  let nfs_path := NFS_BASE_PATH cfg +:+ "/" +:+ pvc_name in
  found <- except_ApiException
             (api (read PersistentVolume pv_name) ;; Ret true)
             (fun status => if negb (status =? 404) then Raise (ApiException status)
                            else Ret false) ;;
  if found : bool then Ret tt
  else
    api (create PersistentVolume pv_name
           (PersistentVolumeBody storage_capacity (NFS_SERVER cfg) nfs_path)) ;;
    Ret tt.

(** [while time.time() - start_time < timeout: ...] of
    [_wait_for_pvc_bound], and the [raise] after it. *)
Fixpoint _wait_for_pvc_bound_loop (budget : nat) (pvc_name : string)
    (start_time timeout : Z) : Prog unit :=
  match budget with
  | O => Spin
  | S budget' =>
      now <- time ;;
      if now - start_time <? 1000 * timeout then
        bound <- except_ApiException
                   (pvc <- api (read PersistentVolumeClaim pvc_name) ;;
                    Ret (String.eqb (phase (reply_status pvc)) "Bound"))
                   (fun status => if status =? 404 then Ret false
                                  else Raise (ApiException status)) ;;
        if bound : bool then Ret tt
        else sleep 2 ;; _wait_for_pvc_bound_loop budget' pvc_name start_time timeout
      else Raise (Exception ("PVC " +:+ pvc_name +:+ " 바인딩 타임아웃"))
  end.

Definition _wait_for_pvc_bound (pvc_name : string) (timeout : Z) : Prog unit :=
  start_time <- time ;;
  _wait_for_pvc_bound_loop (poll_budget timeout) pvc_name start_time timeout.

Definition create_persistent_volume_claim (pvc_name storage_capacity : string)
  : Prog unit :=
  api (create PersistentVolumeClaim pvc_name
         (PersistentVolumeClaimBody storage_capacity ("pv-" +:+ pvc_name))) ;;
  _wait_for_pvc_bound pvc_name 60.

Definition paper_global_yml : string :=
  nl +:+ "proxies:" +:+ nl +:+ "  velocity:" +:+ nl +:+ "    enabled: true" +:+ nl
  +:+ "    online-mode: false" +:+ nl
  +:+ "    secret: '" +:+ VELOCITY_SECRET cfg +:+ "'" +:+ nl.

(** The shared config object: read, then patched; created when the
    read (or the patch) reports not-found.  The manager's
    [_configmap_lock] does not occur in the method. *)
Definition create_or_update_paper_configmap : Prog unit :=
  let cm_name := "paper-global-config" in
  let config_data := [("paper-global.yml", paper_global_yml)] in
  except_ApiException
    (api (read ConfigMap cm_name) ;;
     api (patch_config_map cm_name config_data) ;;
     Ret tt)
    (fun status =>
       if status =? 404
       then api (create ConfigMap cm_name (ConfigMapBody config_data)) ;; Ret tt
       else Raise (ApiException status)).

Definition servertap_config_yml (api_key : string) : string :=
  nl +:+ "port: 4567" +:+ nl +:+ "debug: false" +:+ nl +:+ "useKeyAuth: true" +:+ nl
  +:+ "key: " +:+ api_key +:+ nl +:+ "normalizeMessages: true" +:+ nl
  +:+ "tls:" +:+ nl +:+ "  enabled: false" +:+ nl +:+ "corsOrigins:" +:+ nl
  +:+ "  - " +:+ dq +:+ "*" +:+ dq +:+ nl +:+ "websocketConsoleBuffer: 1000" +:+ nl
  +:+ "disable-swagger: false" +:+ nl +:+ "blocked-paths: []" +:+ nl.

Definition create_servertap_configmap (pod_name api_key : string) : Prog unit :=
  let cm_name := "servertap-config-" +:+ pod_name in
  let config_data := [("config.yml", servertap_config_yml api_key)] in
  api (create ConfigMap cm_name (ConfigMapBody config_data)) ;;
  Ret tt.

Definition create_deployment (deployment_name pvc_name
    memory_limit memory_request cpu_limit cpu_request : string) : Prog unit :=
  api (create Deployment deployment_name
         (DeploymentBody pvc_name ("servertap-config-" +:+ deployment_name)
            memory_limit memory_request cpu_limit cpu_request)) ;;
  Ret tt.

Definition create_service (pod_name : string) : Prog unit :=
  let service_name := pod_name +:+ "-svc" in
  api (create Service service_name (ServiceBody pod_name)) ;;
  Ret tt.

Definition create_ingress (pod_name : string) : Prog unit :=
  let ingress_name := "servertap-" +:+ pod_name +:+ "-ingress" in
  let service_name := pod_name +:+ "-svc" in
  let host := pod_name +:+ "-api." +:+ GAME_DOMAIN cfg in
  api (create Ingress ingress_name (IngressBody host service_name)) ;;
  Ret tt.

(** Deletion that takes not-found for success. *)
Definition _delete_resource (k : Kind) (resource_name : string) : Prog unit :=
  except_ApiException
    (api (delete k resource_name) ;; Ret tt)
    (fun status => if negb (status =? 404) then Raise (ApiException status)
                   else Ret tt).

Definition cleanup_ephemeral_resources (pod_name : string) : Prog dict :=
  _delete_resource Deployment pod_name ;;
  _delete_resource Service (pod_name +:+ "-svc") ;;
  _delete_resource Ingress ("servertap-" +:+ pod_name +:+ "-ingress") ;;
  _delete_resource ConfigMap ("servertap-config-" +:+ pod_name) ;;
  Ret [("status", "success");
       ("message", "Server " +:+ pod_name +:+ " resources cleaned up (paused).");
       ("pod_name", pod_name)].

Definition delete_persistent_data (pvc_name : string) : Prog unit :=
  let pvc_name := _sanitize_name pvc_name in
  _delete_resource PersistentVolumeClaim pvc_name ;;
  let pv_name := "pv-" +:+ pvc_name in
  except_ApiException
    (api (delete PersistentVolume pv_name) ;; Ret tt)
    (fun status => if negb (status =? 404) then Raise (ApiException status)
                   else Ret tt).

Definition cleanup_all_resources (pod_name pvc_name : string) : Prog dict :=
  let pod_name := _sanitize_name pod_name in
  let pvc_name := _sanitize_name pvc_name in
  cleanup_ephemeral_resources pod_name ;;
  delete_persistent_data pvc_name ;;
  Ret [("status", "cleaned"); ("pod_name", pod_name); ("pvc_name", pvc_name)].

Definition list_persistent_volume_claims (label_selector : string)
  : Prog (list dict) :=
  pvcs <- api (list_namespaced_persistent_volume_claim label_selector) ;;
  Ret (reply_dicts pvcs).

(** The loop of [_wait_for_job_completion] and the [raise] after it.
    The log fetch and the [raise] of the task failure stand inside the
    [try] whose handler lets not-found pass. *)
Fixpoint _wait_for_job_completion_loop (budget : nat) (job_name : string)
    (start_time timeout : Z) : Prog unit :=
  match budget with
  | O => Spin
  | S budget' =>
      now <- time ;;
      if now - start_time <? 1000 * timeout then
        finished <- except_ApiException
          (job <- api (read Job job_name) ;;
           if truthy (succeeded (reply_status job)) then Ret true
           else if truthy (failed (reply_status job)) then
             pods <- api (list_namespaced_pod ("job-name=" +:+ job_name)) ;;
             match reply_items pods with
             | pod_name :: _ => api (read_namespaced_pod_log pod_name) ;; Ret tt
             | [] => Ret tt
             end ;;
             Raise (Exception ("Job '" +:+ job_name +:+ "' 실패!"))
           else Ret false)
          (fun status => if negb (status =? 404) then Raise (ApiException status)
                         else Ret false) ;;
        if finished : bool then Ret tt
        else sleep 2 ;;
             _wait_for_job_completion_loop budget' job_name start_time timeout
      else Raise (Exception ("Job '" +:+ job_name +:+ "' 타임아웃 (60초 초과)"))
  end.

Definition _wait_for_job_completion (job_name : string) (timeout : Z) : Prog unit :=
  start_time <- time ;;
  _wait_for_job_completion_loop (poll_budget timeout) job_name start_time timeout.

(** A stale task of the same name is deleted first. *)
Definition create_nfs_directory_job (pvc_name : string) : Prog unit :=
  let job_name := "create-nfs-dir-" +:+ pvc_name in
  let nfs_path := NFS_BASE_PATH cfg +:+ "/" +:+ pvc_name in
  except_ApiException
    (api (delete Job job_name) ;; sleep 2)
    (fun status => if negb (status =? 404) then Raise (ApiException status)
                   else Ret tt) ;;
  api (create Job job_name (JobBody nfs_path)) ;;
  _wait_for_job_completion job_name 60.

(** Provisioning: both names are normalized, then the steps run in
    order. *)
Definition create_minecraft_resources (pod_name pvc_name servertap_api_key
    memory_limit memory_request cpu_limit cpu_request storage_capacity : string)
  : Prog dict :=
  let deployment_name := _sanitize_name pod_name in
  let pvc_name := _sanitize_name pvc_name in
  cleanup_ephemeral_resources deployment_name ;;
  create_or_update_paper_configmap ;;
  create_servertap_configmap deployment_name servertap_api_key ;;
  present <- pvc_exists pvc_name ;;
  (if negb present then
     create_nfs_directory_job pvc_name ;;
     create_persistent_volume pvc_name storage_capacity ;;
     create_persistent_volume_claim pvc_name storage_capacity
   else Ret tt) ;;
  create_deployment deployment_name pvc_name
    memory_limit memory_request cpu_limit cpu_request ;;
  create_service deployment_name ;;
  create_ingress deployment_name ;;
  Ret [("status", "success");
       ("pod_name", deployment_name);
       ("pvc_name", pvc_name);
       ("game_url", deployment_name +:+ "." +:+ GAME_DOMAIN cfg);
       ("api_url", "http://" +:+ deployment_name +:+ "-api." +:+ GAME_DOMAIN cfg)].

End WithConfig.

(** The module constants, read when the module is imported. *)
Definition module_constants (environ : Environment.Environ)
  : Environment.Import Config :=
  let NFS_BASE_PATH :=
    Environment.getenv_default environ "NFS_BASE_PATH" "/mnt/nfs-minecraft" in
  let NFS_SERVER :=
    Environment.getenv_default environ "NFS_SERVER" "100.75.219.111" in
  let GAME_DOMAIN :=
    Environment.getenv_default environ "GAME_DOMAIN" "mc.msdca.shop" in
  let VELOCITY_SECRET := Environment.getenv environ "VELOCITY_SECRET" in
  if negb (Environment.truthy VELOCITY_SECRET)
  then Environment.RuntimeError "VELOCITY_SECRET 환경변수가 설정되지 않았습니다!"
  else Environment.Loaded
         (mkConfig NFS_BASE_PATH NFS_SERVER GAME_DOMAIN (default "" VELOCITY_SECRET)).

(** The connectivity probe: one listing of pods, whose answer is not
    looked at (the call's [limit=1] only bounds that answer); any
    exception becomes the [unhealthy] result. *)
Definition check_connection : Prog dict :=
  try_except
    (api (list_namespaced_pod "") ;;
     Ret [("status", "healthy"); ("kubernetes", "connected")])
    (fun e => Ret [("status", "unhealthy"); ("kubernetes", "error: " +:+ str e)]).

(** The loop of [list_persistent_volume_claims] over the items of a
    listing.  An item is given by the attributes the loop reads, each
    optional as the client library types it: the claim's [metadata] and
    [status], and below them the name, namespace, creation timestamp,
    phase and capacity.  A value of the resulting dictionaries is a
    string or [None].  (In the platform model a listing is answered with
    the dictionaries that this loop makes of the items, the [listing] of
    a script entry.) *)
Section Listing.
Context {datetime : Type} (isoformat : datetime -> string).

Record V1ObjectMeta : Type := mkV1ObjectMeta {
  meta_name : option string;
  meta_namespace : option string;
  meta_creation_timestamp : option datetime
}.

Record V1PersistentVolumeClaimStatus : Type := mkV1PersistentVolumeClaimStatus {
  status_phase : option string;
  status_capacity : option dict
}.

Record V1PersistentVolumeClaim : Type := mkV1PersistentVolumeClaim {
  pvc_metadata : option V1ObjectMeta;
  pvc_status : option V1PersistentVolumeClaimStatus
}.

(** [d.get(key)]. *)
Fixpoint get (key : string) (d : dict) : option string :=
  match d with
  | [] => None
  | (k, v) :: d' => if String.eqb k key then Some v else get key d'
  end.

(** Reading an attribute of [None]. *)
Definition no_attribute (attribute : string) : Exn :=
  AttributeError ("'NoneType' object has no attribute '" +:+ attribute +:+ "'").

(** The dictionary appended for one item.  Its five values are
    evaluated in the order written: [pvc.metadata.name] raises when
    the claim has no metadata, [isoformat] when it has no creation
    timestamp, [pvc.status.phase] when it has no status. *)
Definition pvc_entry (pvc : V1PersistentVolumeClaim)
  : Exn + list (string * option string) :=
  match pvc_metadata pvc with
  | None => inl (no_attribute "name")
  | Some metadata =>
      match meta_creation_timestamp metadata with
      | None => inl (no_attribute "isoformat")
      | Some creation_timestamp =>
          match pvc_status pvc with
          | None => inl (no_attribute "phase")
          | Some status =>
              inr [("name", meta_name metadata);
                   ("namespace", meta_namespace metadata);
                   ("creation_timestamp", Some (isoformat creation_timestamp));
                   ("status", status_phase status);
                   ("capacity", match status_capacity status with
                                | Some ((_ :: _) as capacity) => get "storage" capacity
                                | _ => Some "N/A"
                                end)]
          end
      end
  end.

Fixpoint pvc_list_loop (items : list V1PersistentVolumeClaim)
    (pvc_list : list (list (string * option string)))
  : Exn + list (list (string * option string)) :=
  match items with
  | [] => inr pvc_list
  | pvc :: items' =>
      match pvc_entry pvc with
      | inl e => inl e
      | inr entry => pvc_list_loop items' (pvc_list ++ [entry])%list
      end
  end.

Definition pvc_list_of (items : list V1PersistentVolumeClaim)
  : Exn + list (list (string * option string)) :=
  pvc_list_loop items [].

End Listing.

End K8sManager.

(** ** [resource_manager.py]: class [MinecraftServerManager] *)

Module MinecraftServerManager.
Import Platform Program K8sManager.
Local Open Scope prog_scope.

Section WithConfig.
Context (cfg : Config).

(** On any exception the ephemeral resources of [pod_name] (as given)
    are cleaned up and the exception is raised again. *)
Definition create_server (pod_name pvc_name servertap_key
    memory_limit memory_request cpu_limit cpu_request storage_capacity : string)
  : Prog dict :=
  try_except
    (create_minecraft_resources cfg pod_name pvc_name servertap_key
       memory_limit memory_request cpu_limit cpu_request storage_capacity)
    (fun e => cleanup_ephemeral_resources pod_name ;; Raise e).

Definition delete_server (pod_name pvc_name : string) : Prog dict :=
  try_except (cleanup_all_resources pod_name pvc_name) (fun e => Raise e).

Definition list_all_servers_data : Prog (list dict) :=
  list_persistent_volume_claims "type=minecraft-storage".

Definition delete_server_data (pvc_name : string) : Prog dict :=
  delete_persistent_data pvc_name ;;
  Ret [("status", "persistent_data_deleted"); ("pvc_name", pvc_name)].

(** What a method call can give back to the endpoint. *)
Inductive Value : Type :=
| VDict (d : dict)
| VList (l : list dict).

(** An attribute of an instance: the field [k8s], or a method with the
    names of its parameters. *)
Inductive Attribute : Type :=
| Field
| Method (parameters : list string) (body : list string -> Prog Value).

Definition arg (n : nat) (args : list string) : string := nth n args "".

(** The attributes of a [MinecraftServerManager] instance, as the class
    statement and [__init__] define them. *)
Definition attributes : list (string * Attribute) :=
  [ ("k8s", Field);
    ("create_server",
     Method ["pod_name"; "pvc_name"; "servertap_key"; "memory_limit";
             "memory_request"; "cpu_limit"; "cpu_request"; "storage_capacity"]
       (fun a => d <- create_server (arg 0 a) (arg 1 a) (arg 2 a) (arg 3 a)
                   (arg 4 a) (arg 5 a) (arg 6 a) (arg 7 a) ;; Ret (VDict d)));
    ("delete_server",
     Method ["pod_name"; "pvc_name"]
       (fun a => d <- delete_server (arg 0 a) (arg 1 a) ;; Ret (VDict d)));
    ("list_all_servers_data",
     Method [] (fun _ => l <- list_all_servers_data ;; Ret (VList l)));
    ("delete_server_data",
     Method ["pvc_name"]
       (fun a => d <- delete_server_data (arg 0 a) ;; Ret (VDict d))) ].

Fixpoint lookup_attr (name : string) (l : list (string * Attribute))
  : option Attribute :=
  match l with
  | [] => None
  | (n, a) :: l' => if String.eqb n name then Some a else lookup_attr name l'
  end.

(** [server_manager.<name>]. *)
Definition getattr (name : string) : Prog Attribute :=
  match lookup_attr name attributes with
  | Some a => Ret a
  | None =>
      Raise (AttributeError
               ("'MinecraftServerManager' object has no attribute '" +:+ name +:+ "'"))
  end.

Fixpoint keyword (name : string) (kwargs : dict) : option string :=
  match kwargs with
  | [] => None
  | (n, v) :: kwargs' => if String.eqb n name then Some v else keyword name kwargs'
  end.

(** A call with keyword arguments only: every keyword must name a
    parameter and every parameter must be given. *)
Definition call (a : Attribute) (kwargs : dict) : Prog Value :=
  match a with
  | Field => Raise (TypeError "'K8sManager' object is not callable")
  | Method parameters body =>
      match List.find (fun kv => negb (existsb (String.eqb (fst kv)) parameters)) kwargs with
      | Some kv =>
          Raise (TypeError ("got an unexpected keyword argument '" +:+ fst kv +:+ "'"))
      | None =>
          match List.find (fun p => negb (existsb (fun kv => String.eqb (fst kv) p) kwargs))
                          parameters with
          | Some p => Raise (TypeError ("missing a required argument: '" +:+ p +:+ "'"))
          | None => body (map (fun p => default "" (keyword p kwargs)) parameters)
          end
      end
  end.

End WithConfig.

End MinecraftServerManager.

(** ** [auth.py]: the key check of the protected operations *)

Module Auth.
Import Program.

(** The module constant [INTERNAL_API_KEY], read when the module is
    imported. *)
Definition module_constants (environ : Environment.Environ)
  : Environment.Import string :=
  let INTERNAL_API_KEY := Environment.getenv environ "INTERNAL_API_KEY" in
  if negb (Environment.truthy INTERNAL_API_KEY)
  then Environment.RuntimeError "INTERNAL_API_KEY 환경변수가 설정되지 않았습니다!"
  else Environment.Loaded (default "" INTERNAL_API_KEY).

(** The check of the [X-API-Key] header of a request that carries one. *)
Definition verify_api_key (INTERNAL_API_KEY x_api_key : string) : Prog bool :=
  if negb (String.eqb x_api_key INTERNAL_API_KEY)
  then Raise (HTTPException 403 "Invalid API Key")
  else Ret true.

End Auth.

(** ** [main.py]: the endpoints *)

Module Main.
Import Platform Program K8sManager.
Local Open Scope prog_scope.

(** [POST /k8s/server/{pod_name}/pause]. *)
Definition pause_server (cfg : Config) (pod_name : string)
  : Prog MinecraftServerManager.Value :=
  try_except
    (method <- MinecraftServerManager.getattr cfg "pause_server" ;;
     MinecraftServerManager.call method [("pod_name", pod_name)])
    (fun e => Raise (HTTPException 500 (str e))).

(** The request model of [POST /k8s/server]; a field that the request
    body leaves out takes the default of its [Field]. *)
Module CreateServerRequest.
Record t : Type := mk {
  pod_name : string;
  pvc_name : string;
  servertap_key : string;
  memory_limit : string;
  memory_request : string;
  cpu_limit : string;
  cpu_request : string;
  storage_capacity : string
}.

Definition new (pod_name pvc_name servertap_key : string)
    (memory_limit memory_request cpu_limit cpu_request storage_capacity
       : option string) : t :=
  mk pod_name pvc_name servertap_key
     (default "4Gi" memory_limit) (default "2Gi" memory_request)
     (default "2" cpu_limit) (default "1" cpu_request)
     (default "10Gi" storage_capacity).
End CreateServerRequest.

(** The response model of [GET /health]. *)
Module HealthResponse.
Record t : Type := mk {
  status : string;
  kubernetes : option string
}.

(** The model built from keyword arguments: [status] is required,
    [kubernetes] defaults to ["unknown"].  A missing field is
    pydantic's [ValidationError], given by the head of its message. *)
Definition new (kwargs : dict) : Prog t :=
  match MinecraftServerManager.keyword "status" kwargs with
  | Some status =>
      Ret (mk status
              (Some (default "unknown"
                       (MinecraftServerManager.keyword "kubernetes" kwargs))))
  | None => Raise (Exception "1 validation error for HealthResponse")
  end.
End HealthResponse.

Section WithConfig.
Context (cfg : Config).

Definition _create_server_sync (request : CreateServerRequest.t)
  : Prog MinecraftServerManager.Value :=
  method <- MinecraftServerManager.getattr cfg "create_server" ;;
  MinecraftServerManager.call method
    [("pod_name", CreateServerRequest.pod_name request);
     ("pvc_name", CreateServerRequest.pvc_name request);
     ("servertap_key", CreateServerRequest.servertap_key request);
     ("memory_limit", CreateServerRequest.memory_limit request);
     ("memory_request", CreateServerRequest.memory_request request);
     ("cpu_limit", CreateServerRequest.cpu_limit request);
     ("cpu_request", CreateServerRequest.cpu_request request);
     ("storage_capacity", CreateServerRequest.storage_capacity request)].

Definition _delete_server_sync (pod_name pvc_name : string)
  : Prog MinecraftServerManager.Value :=
  method <- MinecraftServerManager.getattr cfg "delete_server" ;;
  MinecraftServerManager.call method
    [("pod_name", pod_name); ("pvc_name", pvc_name)].

Definition _list_volumes_sync : Prog MinecraftServerManager.Value :=
  method <- MinecraftServerManager.getattr cfg "list_all_servers_data" ;;
  MinecraftServerManager.call method [].

Definition _delete_volume_sync (pvc_name : string)
  : Prog MinecraftServerManager.Value :=
  method <- MinecraftServerManager.getattr cfg "delete_server_data" ;;
  MinecraftServerManager.call method [("pvc_name", pvc_name)].

Definition _health_check_sync : Prog HealthResponse.t :=
  result <- check_connection ;;
  HealthResponse.new result.

(** [GET /health]. *)
Definition health_check : Prog HealthResponse.t := _health_check_sync.

(** What every guarded endpoint does with an exception. *)
Definition internal_server_error {A} (e : Exn) : Prog A :=
  Raise (HTTPException 500 (str e)).

(** [POST /k8s/server]. *)
Definition create_server (request : CreateServerRequest.t)
  : Prog MinecraftServerManager.Value :=
  try_except (_create_server_sync request) internal_server_error.

(** [DELETE /k8s/server/{pod_name}/{pvc_name}]. *)
Definition delete_server (pod_name pvc_name : string)
  : Prog MinecraftServerManager.Value :=
  try_except (_delete_server_sync pod_name pvc_name) internal_server_error.

(** [GET /k8s/volumes]. *)
Definition list_volumes : Prog MinecraftServerManager.Value :=
  try_except _list_volumes_sync internal_server_error.

(** [DELETE /k8s/volume/{pvc_name}]. *)
Definition delete_volume (pvc_name : string)
  : Prog MinecraftServerManager.Value :=
  try_except (_delete_volume_sync pvc_name) internal_server_error.

(** The startup hook: the health check, with every exception caught. *)
Definition startup_event : Prog unit :=
  try_except (health_check ;; Ret tt) (fun _ => Ret tt).

(** [GET /]. *)
Definition root : Prog MinecraftServerManager.Value :=
  Ret (MinecraftServerManager.VDict
         [("message", "Minecraft K8s Manager API");
          ("version", "2.0.0");
          ("docs", "/docs")]).

(** The routes of the application.  A request is given by its route,
    its path parameters or body, and, on the routes declared with
    [dependencies=[Depends(verify_api_key)]], the [X-API-Key] header
    it carries; the key check runs before the endpoint. *)
Inductive Request : Type :=
| GET_health
| POST_k8s_server (x_api_key : string) (request : CreateServerRequest.t)
| DELETE_k8s_server (x_api_key pod_name pvc_name : string)
| POST_k8s_server_pause (x_api_key pod_name : string)
| GET_k8s_volumes (x_api_key : string)
| DELETE_k8s_volume (x_api_key pvc_name : string)
| GET_root.

Inductive Response : Type :=
| Health (h : HealthResponse.t)
| Json (v : MinecraftServerManager.Value).

Definition depends (INTERNAL_API_KEY x_api_key : string)
    (endpoint : Prog MinecraftServerManager.Value) : Prog Response :=
  Auth.verify_api_key INTERNAL_API_KEY x_api_key ;;
  v <- endpoint ;;
  Ret (Json v).

Definition app (INTERNAL_API_KEY : string) (r : Request) : Prog Response :=
  match r with
  | GET_health => h <- health_check ;; Ret (Health h)
  | POST_k8s_server x_api_key request =>
      depends INTERNAL_API_KEY x_api_key (create_server request)
  | DELETE_k8s_server x_api_key pod_name pvc_name =>
      depends INTERNAL_API_KEY x_api_key (delete_server pod_name pvc_name)
  | POST_k8s_server_pause x_api_key pod_name =>
      depends INTERNAL_API_KEY x_api_key (pause_server cfg pod_name)
  | GET_k8s_volumes x_api_key =>
      depends INTERNAL_API_KEY x_api_key list_volumes
  | DELETE_k8s_volume x_api_key pvc_name =>
      depends INTERNAL_API_KEY x_api_key (delete_volume pvc_name)
  | GET_root => v <- root ;; Ret (Json v)
  end.

End WithConfig.

End Main.

(** ** The naming contract, as the specification words it *)

Module Naming.

Definition durable_volume (storageIdentity : string) : string :=
  "pv-" +:+ storageIdentity.
Definition network_endpoint (serverIdentity : string) : string :=
  serverIdentity +:+ "-svc".
Definition route (serverIdentity : string) : string :=
  "servertap-" +:+ serverIdentity +:+ "-ingress".
Definition per_server_config (serverIdentity : string) : string :=
  "servertap-config-" +:+ serverIdentity.
Definition directory_task (storageIdentity : string) : string :=
  "create-nfs-dir-" +:+ storageIdentity.
Definition game_address (serverIdentity domain : string) : string :=
  serverIdentity +:+ "." +:+ domain.
Definition management_address (serverIdentity domain : string) : string :=
  serverIdentity +:+ "-api." +:+ domain.
Definition shared_config : string := "paper-global-config".

End Naming.

(** ** What is observed of an execution *)

Module Observe.
Import Platform Program K8sManager.

(** The calls logged between two worlds. *)
Definition logged (w w' : World) (tr : list (Call * (Z + Reply))) : Prop :=
  trace w' = (trace w ++ tr)%list.

(** Every call logged between two worlds satisfies [P]. *)
Definition logged_only (P : Call -> Prop) (w w' : World) : Prop :=
  exists tr, logged w w' tr /\ List.Forall (fun ev => P (fst ev)) tr.

(** A world with the given objects and platform script, at time zero. *)
Definition world (objs : Store) (ts : list Tick) : World :=
  mkWorld objs 0 ts [] false.

(** The next [n] remote calls meet no platform fault. *)
Fixpoint calm (n : nat) (ts : list Tick) : Prop :=
  match n with
  | O => True
  | S n' => injected (hd quiet ts) = None /\ calm n' (tl ts)
  end.

(** The ephemeral resource set of a server identity and the volume pair
    of a storage identity. *)
Definition ephemeral_keys (s : string) : list (Kind * string) :=
  [ (Deployment, s);
    (Service, Naming.network_endpoint s);
    (Ingress, Naming.route s);
    (ConfigMap, Naming.per_server_config s) ].

Definition storage_keys (d : string) : list (Kind * string) :=
  [ (PersistentVolumeClaim, d);
    (PersistentVolume, Naming.durable_volume d) ].

(** A listing: the objects found under the given names. *)
Definition list_objects (objs : Store) (keys : list (Kind * string))
  : list (Kind * string * Body) :=
  flat_map (fun key => match objs !! key with
                       | Some b => [(key, b)]
                       | None => []
                       end) keys.

Definition ephemeral_listing (objs : Store) (s : string) :=
  list_objects objs (ephemeral_keys s).
Definition storage_listing (objs : Store) (d : string) :=
  list_objects objs (storage_keys d).

Definition delete_all (keys : list (Kind * string)) (objs : Store) : Store :=
  foldl (fun m key => base.delete key m) objs keys.

(** The object a call writes, if any. *)
Definition target (c : Call) : option (Kind * string) :=
  match c with
  | create k n _ | delete k n => Some (k, n)
  | patch_config_map n _ => Some (ConfigMap, n)
  | _ => None
  end.

(** Calls that go to the platform (the others act on the local clock
    and lock). *)
Definition remote (c : Call) : Prop :=
  match c with
  | time_time | time_sleep _ | lock_acquire | lock_release => False
  | _ => True
  end.

(** No constraint on a returned value. *)
Definition any {A : Type} : A -> Prop := fun _ => True.

(** Durable objects: volumes, claims and the shared config object. *)
Definition durable (k : Kind) (n : string) : Prop :=
  k = PersistentVolume \/ k = PersistentVolumeClaim \/
  (k = ConfigMap /\ n = Naming.shared_config).

Definition spares_durable (c : Call) : Prop :=
  match c with delete k n => ~ durable k n | _ => True end.

(** The objects of the storage step: task, volume and claim. *)
Definition storage_kind (k : Kind) : Prop :=
  k = Job \/ k = PersistentVolume \/ k = PersistentVolumeClaim.

Definition writes_storage (c : Call) : Prop :=
  match c with create k _ _ | delete k _ => storage_kind k | _ => False end.

(** The names of the naming contract for identities [s] and [d]. *)
Definition contract_names (s d : string) : list (Kind * string) :=
  [ (PersistentVolume, Naming.durable_volume d);
    (Service, Naming.network_endpoint s);
    (Ingress, Naming.route s);
    (ConfigMap, Naming.per_server_config s);
    (Job, Naming.directory_task d);
    (Deployment, s);
    (PersistentVolumeClaim, d);
    (ConfigMap, Naming.shared_config) ].

Definition within_contract (s d : string) (c : Call) : Prop :=
  match c with
  | read k n | create k n _ | delete k n => In (k, n) (contract_names s d)
  | patch_config_map n _ => n = Naming.shared_config
  | _ => True
  end.

(** The deletions of a full teardown. *)
Definition teardown_targets (s d : string) : list (Kind * string) :=
  (ephemeral_keys s ++ storage_keys d)%list.

Definition deletes_among (keys : list (Kind * string)) (c : Call) : Prop :=
  match c with delete k n => In (k, n) keys | _ => False end.

Definition is_lock_call (c : Call) : Prop := c = lock_acquire \/ c = lock_release.

(** Calls on the shared config object. *)
Definition on_shared_config (c : Call) : bool :=
  match c with
  | read ConfigMap n | create ConfigMap n _ | delete ConfigMap n
  | patch_config_map n _ => String.eqb n Naming.shared_config
  | _ => false
  end.

(** A script entry that fails the call with the given status. *)
Definition faulty (s : Z) : Tick :=
  mkTick (Some s) 0 (mkStatus "Pending" None None) [] None [].

(** The log of one wait, after the reading of its start time: tests of
    the clock against the deadline, each followed by one poll while the
    deadline has not passed; a poll that finds the resource missing or
    the condition false is followed by a sleep of two seconds and the
    next test.  [sat] is the awaited condition; a poll with [other] true
    is handled outside the waiting discipline. *)
Inductive wait_shape (start timeout : Z) (poll : Call) (sat other : Status -> bool)
    (late : Exn) : Outcome unit -> list (Call * (Z + Reply)) -> Prop :=
| ws_timeout now :
    now - start >= 1000 * timeout ->
    wait_shape start timeout poll sat other late
      (Raised late) [(time_time, inr (RTime now))]
| ws_success now b st :
    now - start < 1000 * timeout -> sat st = true ->
    wait_shape start timeout poll sat other late
      (Returned tt) [(time_time, inr (RTime now)); (poll, inr (RObject b st))]
| ws_abort now s :
    now - start < 1000 * timeout -> s <> 404 ->
    wait_shape start timeout poll sat other late
      (Raised (ApiException s)) [(time_time, inr (RTime now)); (poll, inl s)]
| ws_retry now r o tr :
    now - start < 1000 * timeout ->
    (r = inl 404 \/
     exists b st, r = inr (RObject b st) /\ sat st = false /\ other st = false) ->
    wait_shape start timeout poll sat other late o tr ->
    wait_shape start timeout poll sat other late o
      ((time_time, inr (RTime now)) :: (poll, r) :: (time_sleep 2, inr RNone) :: tr)
| ws_other now b st o tr :
    now - start < 1000 * timeout -> sat st = false -> other st = true ->
    wait_shape start timeout poll sat other late o
      ((time_time, inr (RTime now)) :: (poll, inr (RObject b st)) :: tr).

Definition is_bound (st : Status) : bool := String.eqb (phase st) "Bound".
Definition has_succeeded (st : Status) : bool := K8sManager.truthy (succeeded st).
Definition has_failed (st : Status) : bool := K8sManager.truthy (failed st).

Definition TimeoutFailure_pvc (pvc_name : string) : Exn :=
  Exception ("PVC " +:+ pvc_name +:+ " 바인딩 타임아웃").
Definition TimeoutFailure_job (job_name : string) : Exn :=
  Exception ("Job '" +:+ job_name +:+ "' 타임아웃 (60초 초과)").
Definition TaskFailure (job_name : string) : Exn :=
  Exception ("Job '" +:+ job_name +:+ "' 실패!").

(** What one call can do to the store. *)
Inductive effect (objs : Store) : Call -> Store -> Prop :=
| eff_none c : effect objs c objs
| eff_create k n b :
    objs !! (k, n) = None -> effect objs (create k n b) (<[(k, n) := b]> objs)
| eff_patch n d old :
    objs !! (ConfigMap, n) = Some (ConfigMapBody old) ->
    effect objs (patch_config_map n d)
           (<[(ConfigMap, n) := ConfigMapBody (merge_data d old)]> objs)
| eff_delete k n b :
    objs !! (k, n) = Some b -> effect objs (delete k n) (base.delete (k, n) objs).

(** The answers a read can get. *)
Inductive read_answer (w : World) (k : Kind) (n : string) : Z + Reply -> Prop :=
| ra_fault s : s <> 404 -> read_answer w k n (inl s)
| ra_missing : objects w !! (k, n) = None -> read_answer w k n (inl 404)
| ra_found b st : objects w !! (k, n) = Some b -> read_answer w k n (inr (RObject b st)).

(** The handler of the polling loops: not-found is swallowed. *)
Definition swallow_404 (e : Exn) : Prog bool :=
  match e with
  | ApiException status =>
      if negb (status =? 404) then Raise (ApiException status) else Ret false
  | _ => Raise e
  end.

(** The log fetch that precedes the task failure. *)
Definition fetch_logs (job_name : string) : Prog bool :=
  (pods <- api (list_namespaced_pod ("job-name=" +:+ job_name)) ;;
   match reply_items pods with
   | pod_name :: _ => api (read_namespaced_pod_log pod_name) ;; Ret tt
   | [] => Ret tt
   end ;;
   Raise (TaskFailure job_name))%prog.

(** What the task wait does with the task it has read. *)
Definition judge_task (job_name : string) (job : Reply) : Prog bool :=
  if truthy (succeeded (reply_status job)) then Ret true
  else if truthy (failed (reply_status job)) then fetch_logs job_name
  else Ret false.

Definition task_poll_next (budget : nat) (job_name : string) (start timeout : Z)
    (finished : bool) : Prog unit :=
  (if finished then Ret tt
   else sleep 2 ;; _wait_for_job_completion_loop budget job_name start timeout)%prog.

(** The storage objects are the same in two worlds; [untouched]: and no
    call logged in between created or deleted one. *)
Definition storage_same (a b : World) : Prop :=
  forall k n, storage_kind k -> objects b !! (k, n) = objects a !! (k, n).

Definition untouched (a b : World) : Prop :=
  logged_only (fun c => ~ writes_storage c) a b /\ storage_same a b.

(** Calls that delete tasks only, and worlds where every other object
    is kept. *)
Definition deletes_tasks_only (c : Call) : Prop :=
  match c with delete k _ => k = Job | _ => True end.

Definition kept (a b : World) : Prop :=
  forall key, fst key <> Job ->
              is_Some (objects a !! key) -> is_Some (objects b !! key).

End Observe.

(** ** Concrete situations used in the examples *)

Module Scenario.
Import Platform Program Observe K8sManager.

Definition cfg : Config := default_config "s3cret".

Definition provision (pod_name pvc_name : string) : Prog dict :=
  create_minecraft_resources cfg pod_name pvc_name "key" "4Gi" "2Gi" "2" "1" "10Gi".

Definition request (pod_name pvc_name : string) : Prog dict :=
  MinecraftServerManager.create_server cfg pod_name pvc_name
    "key" "4Gi" "2Gi" "2" "1" "10Gi".

(** A store that already holds the claim [alpha-data]. *)
Definition claim_alpha : Store :=
  {[ (PersistentVolumeClaim, "alpha-data") :=
       PersistentVolumeClaimBody "10Gi" "pv-alpha-data" ]}.

(** A store that holds a directory task. *)
Definition task_alpha : Store :=
  {[ (Job, "create-nfs-dir-alpha-data") := JobBody "/mnt/nfs-minecraft/alpha-data" ]}.

Definition reports (st : Status) : Tick := mkTick None 100 st [] None [].
Definition task_succeeded : Tick := reports (mkStatus "" (Some 1%nat) None).
Definition task_failed : Tick := reports (mkStatus "" None (Some 1%nat)).
Definition claim_bound : Tick := reports (mkStatus "Bound" None None).
Definition pods_listed (names : list string) : Tick :=
  mkTick None 100 (mkStatus "" None None) names None [].
Definition log_read (text : string) : Tick :=
  mkTick None 100 (mkStatus "" None None) [] (Some text) [].

(** The script of a provisioning that meets no fault on an empty
    cluster: the task succeeds at its first poll and the claim is bound
    at its first poll. *)
Definition smooth : list Tick :=
  (repeat quiet 10 ++ [task_succeeded] ++ repeat quiet 3 ++ [claim_bound])%list.

(** A task that stays failed while the log of its pod cannot be found. *)
Definition failing_forever : list Tick :=
  flat_map (fun _ => [task_failed; pods_listed ["pod-1"]; quiet]) (seq 0 40).

(** Two requests on an empty cluster: each cleans up and reads the shared
    config object before either creates it. *)
Definition racing : list bool :=
  (repeat true 5 ++ repeat false 5 ++ [true; false] ++ repeat false 4)%list.

End Scenario.

(** ** Further notions used in the properties of the code *)

Module Notions.
Import Sanitize Platform Program K8sManager Observe.

(** No dash is followed by a dash. *)
Fixpoint no_double_dash (l : list ascii) : bool :=
  match l with
  | c :: l' =>
      negb (is_dash c && is_dash (hd "a"%char l')) && no_double_dash l'
  | [] => true
  end.

(** The shape of a normalized name: characters of [a-z0-9-] only, no
    dash at either end, no two dashes in a row.  (The empty name has
    this shape.) *)
Definition normalized (s : string) : bool :=
  let l := list_ascii_of_string s in
  forallb allowed l
  && negb (is_dash (hd "a"%char l))
  && negb (is_dash (List.last l "a"%char))
  && no_double_dash l.

(** ASCII letters and digits. *)
Definition is_alnum (c : ascii) : bool :=
  let n := N_of_ascii c in
  (((65 <=? n) && (n <=? 90)) || ((97 <=? n) && (n <=? 122))
   || ((48 <=? n) && (n <=? 57)))%N.

(** The characters that normalization removes wherever they stand. *)
Definition removed (c : ascii) : bool := negb (is_alnum c) && negb (is_dash c).

(** A name of ASCII characters only. *)
Definition is_ascii (c : ascii) : bool := (N_of_ascii c <? 128)%N.

Definition ascii_name (s : string) : bool :=
  forallb is_ascii (list_ascii_of_string s).

(** How many of the next [n] remote calls are made before the first
    platform fault. *)
Fixpoint calm_run (n : nat) (ts : list Tick) : nat :=
  match n with
  | O => O
  | S n' =>
      match injected (hd quiet ts) with
      | None => S (calm_run n' (tl ts))
      | Some _ => O
      end
  end.

(** Whether an object of the given name is in the store. *)
Definition present (objs : Store) (key : Kind * string) : bool :=
  match objs !! key with Some _ => true | None => false end.

(** The world after the next three remote calls, made at no cost in
    objects: the clock has advanced by their latencies and the calls
    are logged with the given answers. *)
Definition after_three (w : World) (log : list (Call * (Z + Reply))) : World :=
  mkWorld (objects w)
          (clock w + Z.of_nat (latency (nth 0 (script w) quiet))
                   + Z.of_nat (latency (nth 1 (script w) quiet))
                   + Z.of_nat (latency (nth 2 (script w) quiet)))
          (drop 3 (script w)) (trace w ++ log)%list (lock_held w).

(** Calls that neither delete nor patch the object of the given name. *)
Definition leaves (key : Kind * string) (c : Call) : Prop :=
  match c with
  | delete k n => (k, n) <> key
  | patch_config_map n _ => (ConfigMap, n) <> key
  | _ => True
  end.

(** The capacity a listing shows for a claim: ["N/A"] when the claim
    reports no capacity (none, or an empty one), else what the reported
    capacity holds under [storage], which may be nothing. *)
Definition capacity_shown (status : V1PersistentVolumeClaimStatus) : option string :=
  match status_capacity status with
  | None | Some [] => Some "N/A"
  | Some capacity => get "storage" capacity
  end.

(** The attribute whose reading fails on a claim of a listing, if any:
    the first of [name] (no metadata), [isoformat] (no creation
    timestamp) and [phase] (no status). *)
Definition missing_attribute {datetime} (pvc : @V1PersistentVolumeClaim datetime)
  : option string :=
  match pvc_metadata pvc with
  | None => Some "name"
  | Some metadata =>
      match meta_creation_timestamp metadata with
      | None => Some "isoformat"
      | Some _ =>
          match pvc_status pvc with
          | None => Some "phase"
          | Some _ => None
          end
      end
  end.

(** The [X-API-Key] header of a request to a route that is declared
    with the key check; [None] for a route that is not. *)
Definition x_api_key_of (r : Main.Request) : option string :=
  match r with
  | Main.POST_k8s_server x_api_key _
  | Main.DELETE_k8s_server x_api_key _ _
  | Main.POST_k8s_server_pause x_api_key _
  | Main.GET_k8s_volumes x_api_key
  | Main.DELETE_k8s_volume x_api_key _ => Some x_api_key
  | Main.GET_health | Main.GET_root => None
  end.

(** A program that ends, in every world, within the iterations that the
    model counts for its loops. *)
Definition finishes {A} (m : Prog A) : Prop :=
  forall w, fst (run m w) <> Unfinished.

(** What the endpoint makes of the outcome of the facade method it
    calls. *)
Definition as_response {A} (wrap : A -> MinecraftServerManager.Value)
    (result : Outcome A * World)
  : Outcome MinecraftServerManager.Value * World :=
  match result with
  | (Returned a, w) => (Returned (wrap a), w)
  | (Raised e, w) => (Raised (HTTPException 500 (str e)), w)
  | (Unfinished, w) => (Unfinished, w)
  end.

(** What is pinned of the text [str(e)] of an exception: the text of an
    [ApiException] begins with its status in brackets (the lines that
    give the reason, the headers and the body follow it and are not
    modelled); the text of any other exception is its message. *)
Definition text_of (e : Exn) (text : string) : Prop :=
  match e with
  | ApiException status => exists rest, text = "(" +:+ pretty status +:+ ")" +:+ rest
  | _ => text = str e
  end.

(** An endpoint answers for a method: it returns the wrapped result of
    the method, or raises HTTP 500 with the text of what the method
    raised as detail, and leaves the world as the method left it. *)
Definition answers_for {A} (wrap : A -> MinecraftServerManager.Value)
    (method : Outcome A * World)
    (endpoint : Outcome MinecraftServerManager.Value * World) : Prop :=
  snd endpoint = snd method /\
  match fst method with
  | Returned a => fst endpoint = Returned (wrap a)
  | Raised e =>
      exists detail, fst endpoint = Raised (HTTPException 500 detail) /\ text_of e detail
  | Unfinished => fst endpoint = Unfinished
  end.

(** An outcome that is a result or an HTTP error of status 403 or 500. *)
Definition answered {A} (o : Outcome A) : Prop :=
  match o with
  | Returned _ => True
  | Raised e =>
      exists detail, e = HTTPException 403 detail \/ e = HTTPException 500 detail
  | Unfinished => False
  end.

End Notions.

(** * Facts about name normalization *)

Module SanitizeFacts.
Import Sanitize.

Lemma allowed_lower c : allowed c = true -> lower_char c = c.
Proof.
  unfold allowed, lower_char. intros H.
  destruct ((65 <=? N_of_ascii c)%N && (N_of_ascii c <=? 90)%N) eqn:E; [|reflexivity].
  exfalso. apply andb_true_iff in E as [E1 E2].
  apply N.leb_le in E1, E2.
  apply orb_true_iff in H as [H|H]; [apply orb_true_iff in H as [H|H]|].
  - apply andb_true_iff in H as [H1 H2]. apply N.leb_le in H1. lia.
  - apply andb_true_iff in H as [H1 H2]. apply N.leb_le in H2. lia.
  - apply N.eqb_eq in H. lia.
Qed.

Lemma map_lower_clean l : clean l -> map lower_char l = l.
Proof.
  induction 1 as [|c l Hc _ IH]; simpl; [reflexivity|].
  rewrite allowed_lower, IH; auto.
Qed.

Lemma filter_clean l : clean l -> List.filter allowed l = l.
Proof.
  induction 1 as [|c l Hc _ IH]; simpl; [reflexivity|].
  rewrite Hc, IH; auto.
Qed.

Lemma clean_filter l : clean (List.filter allowed l).
Proof.
  induction l as [|c l IH]; simpl; [constructor|].
  destruct (allowed c) eqn:E; [constructor|]; auto.
Qed.

Lemma clean_drop_dashes l : clean l -> clean (drop_dashes l).
Proof.
  induction 1 as [|c l Hc Hl IH]; simpl; [constructor|].
  destruct (is_dash c); [exact IH|]. constructor; assumption.
Qed.

Lemma clean_strip_dashes l : clean l -> clean (strip_dashes l).
Proof.
  intros H. unfold strip_dashes, clean.
  apply List.Forall_rev, clean_drop_dashes, List.Forall_rev, clean_drop_dashes, H.
Qed.

Lemma clean_collapse l : clean l -> clean (collapse l).
Proof.
  induction 1 as [|c l Hc Hl IH]; [constructor|].
  simpl. destruct (is_dash c).
  - destruct l as [|d l']; [repeat constructor; exact Hc|].
    destruct (is_dash d); [exact IH|]. constructor; assumption.
  - constructor; assumption.
Qed.

Lemma hd_rev (l : list ascii) d : hd d (rev l) = List.last l d.
Proof.
  induction l as [|c l IH]; [reflexivity|].
  simpl rev. destruct l as [|c' l']; [reflexivity|].
  change (List.last (c :: c' :: l') d) with (List.last (c' :: l') d). rewrite <- IH.
  destruct (rev (c' :: l')) eqn:E; [|reflexivity].
  apply (f_equal (@List.length ascii)) in E. rewrite length_rev in E. discriminate.
Qed.

Lemma drop_dashes_no_leading l : no_leading_dash (drop_dashes l).
Proof.
  unfold no_leading_dash.
  induction l as [|c l IH]; simpl; [reflexivity|].
  destruct (is_dash c) eqn:E; [exact IH|exact E].
Qed.

Lemma drop_dashes_fixed l : no_leading_dash l -> drop_dashes l = l.
Proof.
  unfold no_leading_dash. destruct l as [|c l]; simpl; [reflexivity|].
  intros ->. reflexivity.
Qed.

Lemma drop_dashes_no_trailing l : no_trailing_dash l -> no_trailing_dash (drop_dashes l).
Proof.
  unfold no_trailing_dash.
  induction l as [|c l IH]; [auto|].
  intros H. simpl drop_dashes. destruct (is_dash c) eqn:E; [|exact H].
  destruct l as [|c' l']; [reflexivity|]. apply IH. exact H.
Qed.

Lemma strip_dashes_no_leading l : no_leading_dash (strip_dashes l).
Proof.
  unfold strip_dashes, no_leading_dash. rewrite hd_rev.
  apply drop_dashes_no_trailing. unfold no_trailing_dash.
  rewrite <- hd_rev, rev_involutive. apply drop_dashes_no_leading.
Qed.

Lemma strip_dashes_no_trailing l : no_trailing_dash (strip_dashes l).
Proof.
  unfold strip_dashes, no_trailing_dash.
  rewrite <- hd_rev, rev_involutive. apply drop_dashes_no_leading.
Qed.

Lemma strip_dashes_fixed l :
  no_leading_dash l -> no_trailing_dash l -> strip_dashes l = l.
Proof.
  intros H1 H2. unfold strip_dashes.
  rewrite (drop_dashes_fixed l H1).
  rewrite drop_dashes_fixed; [apply rev_involutive|].
  unfold no_leading_dash. rewrite hd_rev. exact H2.
Qed.

Lemma collapse_cons_nonempty c l : collapse (c :: l) <> [].
Proof.
  revert c. induction l as [|d l IH]; intros c; simpl.
  - destruct (is_dash c); discriminate.
  - destruct (is_dash c); [|discriminate].
    destruct (is_dash d) eqn:Ed; [|discriminate].
    specialize (IH d). simpl in IH. rewrite Ed in IH. exact IH.
Qed.

Lemma collapse_no_leading l : no_leading_dash l -> no_leading_dash (collapse l).
Proof.
  unfold no_leading_dash. destruct l as [|c l]; simpl; [auto|].
  intros E. rewrite E. simpl. exact E.
Qed.

Lemma last_cons_nonempty (c : ascii) l d : l <> [] -> List.last (c :: l) d = List.last l d.
Proof. destruct l; [congruence|reflexivity]. Qed.

Lemma collapse_last l d : List.last (collapse l) d = List.last l d.
Proof.
  induction l as [|c l IH]; [reflexivity|].
  destruct l as [|c' l']; [simpl; destruct (is_dash c); reflexivity|].
  rewrite (last_cons_nonempty c (c' :: l')) by discriminate.
  rewrite <- IH.
  change (collapse (c :: c' :: l')) with
    (if is_dash c
     then if is_dash c' then collapse (c' :: l') else c :: collapse (c' :: l')
     else c :: collapse (c' :: l')).
  destruct (is_dash c); [destruct (is_dash c'); [reflexivity|]|];
    apply last_cons_nonempty, collapse_cons_nonempty.
Qed.

Lemma collapse_no_trailing l : no_trailing_dash l -> no_trailing_dash (collapse l).
Proof. unfold no_trailing_dash. rewrite collapse_last. auto. Qed.

Lemma collapse_idempotent l : collapse (collapse l) = collapse l.
Proof.
  induction l as [|c l IH]; [reflexivity|].
  destruct l as [|c' l'].
  - simpl. destruct (is_dash c) eqn:E; simpl; rewrite E; reflexivity.
  - change (collapse (c :: c' :: l')) with
      (if is_dash c
       then if is_dash c' then collapse (c' :: l') else c :: collapse (c' :: l')
       else c :: collapse (c' :: l')).
    destruct (is_dash c) eqn:Ec.
    + destruct (is_dash c') eqn:Ec'; [exact IH|].
      assert (Hh : exists t, collapse (c' :: l') = c' :: t).
      { simpl. rewrite Ec'. eauto. }
      destruct Hh as [t Ht]. rewrite Ht in *.
      simpl. rewrite Ec, Ec'. simpl in IH. rewrite Ec' in IH.
      f_equal. exact IH.
    + simpl. rewrite Ec. f_equal. exact IH.
Qed.

Lemma sanitize_with_idempotent lower l :
  (forall x, clean x -> lower x = x) ->
  sanitize_with lower (sanitize_with lower l) = sanitize_with lower l.
Proof.
  intros Hlower. unfold sanitize_with.
  set (x := strip_dashes (List.filter allowed (lower l))).
  assert (Hclean : clean (collapse x)).
  { apply clean_collapse, clean_strip_dashes, clean_filter. }
  rewrite (Hlower _ Hclean), (filter_clean _ Hclean).
  rewrite strip_dashes_fixed.
  - apply collapse_idempotent.
  - apply collapse_no_leading, strip_dashes_no_leading.
  - apply collapse_no_trailing, strip_dashes_no_trailing.
Qed.

Lemma sanitize_chars_idempotent l :
  sanitize_chars (sanitize_chars l) = sanitize_chars l.
Proof. apply sanitize_with_idempotent, map_lower_clean. Qed.

Theorem sanitize_name_fixed (s : string) :
  _sanitize_name (_sanitize_name s) = _sanitize_name s.
Proof.
  unfold _sanitize_name.
  rewrite list_ascii_of_string_of_list_ascii.
  rewrite sanitize_chars_idempotent. reflexivity.
Qed.
End SanitizeFacts.

(** * Facts about the platform model *)

Module PlatformFacts.
Import Platform Program Observe.

Lemma injected_not_404 t s : injected t = Some s -> s <> 404.
Proof.
  unfold injected. destruct (fault t) as [s'|]; [|discriminate].
  destruct (s' =? 404) eqn:E; [discriminate|].
  intros [= <-]. apply Z.eqb_neq, E.
Qed.

Lemma serve_effect c t objs : effect objs c (snd (serve c t objs)).
Proof.
  destruct c; simpl; try constructor.
  - destruct (objs !! (k, name)); constructor.
  - destruct (objs !! (k, name)) eqn:E; simpl; constructor. exact E.
  - destruct (objs !! (ConfigMap, name)) as [[]|] eqn:E; simpl; constructor. exact E.
  - destruct (objs !! (k, name)) eqn:E; simpl; econstructor. exact E.
  - destruct (pod_log t); constructor.
Qed.

Lemma respond_effect c w : effect (objects w) c (objects (snd (respond c w))).
Proof.
  destruct c; unfold respond; cbn -[serve]; try apply eff_none;
    (destruct (injected (hd quiet (script w))); [apply eff_none|]);
    match goal with
    | |- context [serve ?c ?t ?o] =>
        pose proof (serve_effect c t o) as H; destruct (serve c t o); exact H
    end.
Qed.

Lemma respond_lock c w :
  ~ is_lock_call c -> lock_held (snd (respond c w)) = lock_held w.
Proof.
  unfold is_lock_call. intros H.
  destruct c; unfold respond; cbn -[serve]; try reflexivity; try tauto;
    destruct (injected (hd quiet (script w))); try reflexivity;
    match goal with |- context [serve ?c ?t ?o] => destruct (serve c t o) end;
    reflexivity.
Qed.

Lemma respond_logged c w : logged w (snd (respond c w)) [(c, fst (respond c w))].
Proof.
  unfold logged, respond.
  destruct c; try reflexivity;
    destruct (injected (hd quiet (script w))); try reflexivity;
    match goal with |- context [serve ?c ?t ?o] => destruct (serve c t o) end; reflexivity.
Qed.
End PlatformFacts.

(** * Facts about programs *)

Module ProgramFacts.
Import Platform Program Observe PlatformFacts.

Lemma run_bind {A B} (m : Prog A) (f : A -> Prog B) w :
  run (bind m f) w =
  match run m w with
  | (Returned a, w') => run (f a) w'
  | (Raised e, w') => (Raised e, w')
  | (Unfinished, w') => (Unfinished, w')
  end.
Proof.
  revert w. induction m as [a|e| |c k IH]; intros w; simpl; try reflexivity.
  destruct (respond c w) as [r w']. apply IH.
Qed.

Lemma run_try_except {A} (m : Prog A) (h : Exn -> Prog A) w :
  run (try_except m h) w =
  match run m w with
  | (Raised e, w') => run (h e) w'
  | other => other
  end.
Proof.
  revert w. induction m as [a|e| |c k IH]; intros w; simpl; try reflexivity.
  destruct (respond c w) as [r w']. apply IH.
Qed.

Lemma run_api c w :
  run (api c) w =
  match respond c w with
  | (inl s, w') => (Raised (ApiException s), w')
  | (inr v, w') => (Returned v, w')
  end.
Proof. simpl. destruct (respond c w) as [[s|v] w']; reflexivity. Qed.

Lemma run_bind_returned {A B} (m : Prog A) (f : A -> Prog B) w b w' :
  run (bind m f) w = (Returned b, w') ->
  exists a w1, run m w = (Returned a, w1) /\ run (f a) w1 = (Returned b, w').
Proof.
  rewrite run_bind. destruct (run m w) as [[a|e|] w1]; try discriminate. eauto.
Qed.

Section Only.
Context {A : Type} (P : Call -> Prop) (R : World -> World -> Prop).
Hypothesis R_refl : forall w, R w w.
Hypothesis R_trans : forall a b c, R a b -> R b c -> R a c.
Hypothesis R_step : forall c w, P c -> R w (snd (respond c w)).

Lemma only_run (Q : A -> Prop) (m : Prog A) :
  only P Q m ->
  forall w, R w (snd (run m w)) /\ (forall a, fst (run m w) = Returned a -> Q a).
Proof.
  induction 1 as [a Ha|e| |c k Hc Hk IH]; intros w; simpl.
  - split; [apply R_refl|]. intros a' [= <-]. exact Ha.
  - split; [apply R_refl|]. discriminate.
  - split; [apply R_refl|]. discriminate.
  - specialize (R_step c w Hc). destruct (respond c w) as [r w1]. simpl in R_step.
    destruct (IH r w1) as [H1 H2]. split; [eapply R_trans; eassumption|exact H2].
Qed.
End Only.

Lemma only_weaken {A} (P P' : Call -> Prop) (Q Q' : A -> Prop) m :
  (forall c, P c -> P' c) -> (forall a, Q a -> Q' a) -> only P Q m -> only P' Q' m.
Proof. intros HP HQ. induction 1; constructor; auto. Qed.

Lemma only_bind {A B} P (Q : A -> Prop) (Q' : B -> Prop) m (f : A -> Prog B) :
  only P Q m -> (forall a, Q a -> only P Q' (f a)) -> only P Q' (bind m f).
Proof. intros Hm Hf. induction Hm; simpl; try constructor; auto. Qed.

Lemma only_try_except {A} P (Q : A -> Prop) m h :
  only P Q m -> (forall e, only P Q (h e)) -> only P Q (try_except m h).
Proof. intros Hm Hh. induction Hm; simpl; try constructor; auto. Qed.

Lemma only_except_ApiException {A} P (Q : A -> Prop) m h :
  only P Q m -> (forall s, only P Q (h s)) -> only P Q (except_ApiException m h).
Proof.
  intros Hm Hh. apply only_try_except; [exact Hm|].
  intros []; try constructor. apply Hh.
Qed.

Lemma only_api P c : P c -> only P (fun _ => True) (api c).
Proof. intros H. constructor; [exact H|]. intros []; constructor. exact I. Qed.

Lemma logged_only_refl P w : logged_only P w w.
Proof. exists []. split; [unfold logged; by rewrite app_nil_r|constructor]. Qed.

Lemma logged_only_trans P a b c :
  logged_only P a b -> logged_only P b c -> logged_only P a c.
Proof.
  intros (t1 & H1 & F1) (t2 & H2 & F2). exists (t1 ++ t2)%list. split.
  - unfold logged in *. rewrite H2, H1, app_assoc. reflexivity.
  - apply Forall_app; auto.
Qed.

Lemma logged_only_step (P : Call -> Prop) c w : P c -> logged_only P w (snd (respond c w)).
Proof.
  intros H. eexists. split; [apply respond_logged|]. repeat constructor. exact H.
Qed.

Lemma only_logged {A} P (Q : A -> Prop) m w :
  only P Q m -> logged_only P w (snd (run m w)).
Proof.
  intros H.
  apply (only_run P (logged_only P) (logged_only_refl P) (logged_only_trans P)
           (logged_only_step P) Q m H w).
Qed.
End ProgramFacts.

(** * The calls each method can make *)

Module FootprintFacts.
Import Platform Program Observe Sanitize K8sManager ProgramFacts.

Lemma only_then {A B} P (Q : B -> Prop) (m : Prog A) (f : A -> Prog B) :
  only P any m -> (forall a, only P Q (f a)) -> only P Q (bind m f).
Proof. intros Hm Hf. eapply only_bind; [exact Hm|]. intros a _. apply Hf. Qed.

Lemma only_any {A} P (Q : A -> Prop) m : only P Q m -> only P any m.
Proof. apply only_weaken; [auto|]. intros; exact I. Qed.

Lemma only_call P c : P c -> only P any (api c).
Proof. apply only_api. Qed.

Ltac only_step :=
  lazymatch goal with
  | |- only _ _ (bind _ _) => apply only_then; [|intros ?]
  | |- only _ _ (except_ApiException _ _) => apply only_except_ApiException; [|intros ?]
  | |- only _ _ (try_except _ _) => apply only_try_except; [|intros ?]
  | |- only _ _ (api _) => apply only_call
  | |- only _ _ (Ret _) => apply only_Ret; try exact I
  | |- only _ _ (Raise _) => apply only_Raise
  | |- only _ _ Spin => apply only_Spin
  | |- only _ _ (if ?b then _ else _) => destruct b
  | |- only _ _ (match ?l with _ => _ end) => destruct l
  end.

Section Footprints.
Context (P : Call -> Prop).

Lemma only_time : P time_time -> only P any time.
Proof. intros. unfold time. repeat only_step; assumption. Qed.

Lemma only_sleep s : P (time_sleep s) -> only P any (sleep s).
Proof. intros. unfold sleep. repeat only_step; assumption. Qed.

Lemma only_delete_resource k n : P (delete k n) -> only P any (_delete_resource k n).
Proof. intros. unfold _delete_resource. repeat only_step; assumption. Qed.

Lemma only_cleanup_ephemeral_resources pod :
  (forall k n, In (k, n) (ephemeral_keys pod) -> P (delete k n)) ->
  only P any (cleanup_ephemeral_resources pod).
Proof.
  intros H. unfold cleanup_ephemeral_resources.
  repeat (apply only_then; [apply only_delete_resource, H; simpl; auto 10|intros _]).
  only_step.
Qed.

Lemma only_delete_persistent_data pvc :
  (forall k n, In (k, n) (storage_keys (_sanitize_name pvc)) -> P (delete k n)) ->
  only P any (delete_persistent_data pvc).
Proof.
  intros H. unfold delete_persistent_data.
  apply only_then; [apply only_delete_resource, H; simpl; auto|intros _].
  repeat only_step. apply H. simpl; auto.
Qed.

Lemma only_create_or_update_paper_configmap cfg :
  P (read ConfigMap Naming.shared_config) ->
  (forall d, P (patch_config_map Naming.shared_config d)) ->
  (forall b, P (create ConfigMap Naming.shared_config b)) ->
  only P any (create_or_update_paper_configmap cfg).
Proof.
  intros H1 H2 H3. unfold create_or_update_paper_configmap.
  repeat only_step; auto.
Qed.

Lemma only_create_servertap_configmap pod key :
  (forall b, P (create ConfigMap (Naming.per_server_config pod) b)) ->
  only P any (create_servertap_configmap pod key).
Proof. intros H. unfold create_servertap_configmap. repeat only_step; apply H. Qed.

Lemma only_pvc_exists d :
  P (read PersistentVolumeClaim d) -> only P any (pvc_exists d).
Proof. intros H. unfold pvc_exists. repeat only_step; apply H. Qed.

Lemma only_create_persistent_volume cfg d cap :
  P (read PersistentVolume (Naming.durable_volume d)) ->
  (forall b, P (create PersistentVolume (Naming.durable_volume d) b)) ->
  only P any (create_persistent_volume cfg d cap).
Proof. intros H1 H2. unfold create_persistent_volume. repeat only_step; auto. Qed.

Lemma only_wait_for_pvc_bound_loop budget d start timeout :
  P time_time -> P (time_sleep 2) -> P (read PersistentVolumeClaim d) ->
  only P any (_wait_for_pvc_bound_loop budget d start timeout).
Proof.
  intros H1 H2 H3. induction budget as [|b IH]; cbn [_wait_for_pvc_bound_loop]; [constructor|].
  apply only_then; [apply only_time, H1|intros now].
  destruct (now - start <? 1000 * timeout); [|constructor].
  apply only_then; [repeat only_step; exact H3|intros []]; [only_step|].
  apply only_then; [apply only_sleep, H2|intros _]. exact IH.
Qed.

Lemma only_create_persistent_volume_claim d cap :
  P time_time -> P (time_sleep 2) -> P (read PersistentVolumeClaim d) ->
  (forall b, P (create PersistentVolumeClaim d b)) ->
  only P any (create_persistent_volume_claim d cap).
Proof.
  intros H1 H2 H3 H4. unfold create_persistent_volume_claim, _wait_for_pvc_bound.
  apply only_then; [apply only_call, H4|intros _].
  apply only_then; [apply only_time, H1|intros start].
  apply only_wait_for_pvc_bound_loop; assumption.
Qed.

Lemma only_wait_for_job_completion_loop budget job start timeout :
  P time_time -> P (time_sleep 2) -> P (read Job job) ->
  (forall sel, P (list_namespaced_pod sel)) ->
  (forall p, P (read_namespaced_pod_log p)) ->
  only P any (_wait_for_job_completion_loop budget job start timeout).
Proof.
  intros H1 H2 H3 H4 H5. induction budget as [|b IH]; cbn [_wait_for_job_completion_loop]; [constructor|].
  apply only_then; [apply only_time, H1|intros now].
  destruct (now - start <? 1000 * timeout); [|constructor].
  apply only_then; [repeat only_step; auto|intros []]; [only_step|].
  apply only_then; [apply only_sleep, H2|intros _]. exact IH.
Qed.

Lemma only_create_nfs_directory_job cfg d :
  P time_time -> P (time_sleep 2) ->
  P (read Job (Naming.directory_task d)) ->
  P (delete Job (Naming.directory_task d)) ->
  (forall b, P (create Job (Naming.directory_task d) b)) ->
  (forall sel, P (list_namespaced_pod sel)) ->
  (forall p, P (read_namespaced_pod_log p)) ->
  only P any (create_nfs_directory_job cfg d).
Proof.
  intros H1 H2 H3 H4 H5 H6 H7.
  unfold create_nfs_directory_job, _wait_for_job_completion.
  apply only_then; [apply only_except_ApiException; [|intros s; repeat only_step]|intros _].
  { apply only_then; [apply only_call, H4|intros _]. apply only_sleep, H2. }
  apply only_then; [apply only_call, H5|intros _].
  apply only_then; [apply only_time, H1|intros start].
  apply only_wait_for_job_completion_loop; assumption.
Qed.

Lemma only_create_deployment name pvc ml mr cl cr :
  (forall b, P (create Deployment name b)) ->
  only P any (create_deployment name pvc ml mr cl cr).
Proof. intros H. unfold create_deployment. repeat only_step; apply H. Qed.

Lemma only_create_service pod :
  (forall b, P (create Service (Naming.network_endpoint pod) b)) ->
  only P any (create_service pod).
Proof. intros H. unfold create_service. repeat only_step; apply H. Qed.

Lemma only_create_ingress cfg pod :
  (forall b, P (create Ingress (Naming.route pod) b)) ->
  only P any (create_ingress cfg pod).
Proof. intros H. unfold create_ingress. repeat only_step; apply H. Qed.
End Footprints.
End FootprintFacts.

Module CompositeFacts.
Import Platform Program Observe Sanitize K8sManager ProgramFacts PlatformFacts FootprintFacts.

Section Footprints.
Context (P : Call -> Prop).

Lemma only_create_minecraft_resources cfg pod pvc key ml mr cl cr sc :
  let s := _sanitize_name pod in
  let d := _sanitize_name pvc in
  (forall k n, In (k, n) (ephemeral_keys s) -> P (delete k n)) ->
  P (delete Job (Naming.directory_task d)) ->
  (forall k n, In (k, n) (contract_names s d) -> P (read k n)) ->
  (forall k n b, In (k, n) (contract_names s d) -> P (create k n b)) ->
  (forall dt, P (patch_config_map Naming.shared_config dt)) ->
  P time_time -> P (time_sleep 2) ->
  (forall sel, P (list_namespaced_pod sel)) ->
  (forall p, P (read_namespaced_pod_log p)) ->
  only P
    (fun r => r = [("status", "success"); ("pod_name", s); ("pvc_name", d);
                   ("game_url", Naming.game_address s (GAME_DOMAIN cfg));
                   ("api_url",
                    "http://" +:+ Naming.management_address s (GAME_DOMAIN cfg))])
    (create_minecraft_resources cfg pod pvc key ml mr cl cr sc).
Proof.
  intros s d Hdel Hjob Hread Hcreate Hpatch Ht Hs Hl Hp.
  unfold create_minecraft_resources. fold s d.
  apply only_then; [apply only_cleanup_ephemeral_resources, Hdel|intros _].
  apply only_then;
    [apply only_create_or_update_paper_configmap; auto;
     try intros ?; (apply Hread || apply Hcreate); simpl; auto 10|intros _].
  apply only_then;
    [apply only_create_servertap_configmap; intros ?; apply Hcreate; simpl; auto 10
    |intros _].
  apply only_then; [apply only_pvc_exists, Hread; simpl; auto 10|intros present].
  apply only_then.
  { destruct (negb present); [|apply only_Ret; exact I].
    apply only_then;
      [apply only_create_nfs_directory_job; auto;
       try intros ?; (apply Hread || apply Hcreate); simpl; auto 10|intros _].
    apply only_then;
      [apply only_create_persistent_volume;
       try intros ?; (apply Hread || apply Hcreate); simpl; auto 10|intros _].
    apply only_create_persistent_volume_claim; auto;
      try intros ?; (apply Hread || apply Hcreate); simpl; auto 10. }
  intros _.
  apply only_then;
    [apply only_create_deployment; intros ?; apply Hcreate; simpl; auto 10|intros _].
  apply only_then;
    [apply only_create_service; intros ?; apply Hcreate; simpl; auto 10|intros _].
  apply only_then;
    [apply only_create_ingress; intros ?; apply Hcreate; simpl; auto 10|intros _].
  apply only_Ret. reflexivity.
Qed.

Lemma only_create_server cfg pod pvc key ml mr cl cr sc :
  let s := _sanitize_name pod in
  let d := _sanitize_name pvc in
  (forall k n, In (k, n) (ephemeral_keys s) -> P (delete k n)) ->
  (forall k n, In (k, n) (ephemeral_keys pod) -> P (delete k n)) ->
  P (delete Job (Naming.directory_task d)) ->
  (forall k n, In (k, n) (contract_names s d) -> P (read k n)) ->
  (forall k n b, In (k, n) (contract_names s d) -> P (create k n b)) ->
  (forall dt, P (patch_config_map Naming.shared_config dt)) ->
  P time_time -> P (time_sleep 2) ->
  (forall sel, P (list_namespaced_pod sel)) ->
  (forall p, P (read_namespaced_pod_log p)) ->
  only P any
    (MinecraftServerManager.create_server cfg pod pvc key ml mr cl cr sc).
Proof.
  intros s d Hdel Hraw Hjob Hread Hcreate Hpatch Ht Hs Hl Hp.
  unfold MinecraftServerManager.create_server.
  apply only_try_except.
  - eapply only_any. apply only_create_minecraft_resources; assumption.
  - intros e. apply only_then; [apply only_cleanup_ephemeral_resources, Hraw|intros _].
    apply only_Raise.
Qed.

Lemma only_cleanup_all_resources pod pvc :
  (forall k n, In (k, n) (teardown_targets (_sanitize_name pod) (_sanitize_name pvc)) ->
               P (delete k n)) ->
  only P any (cleanup_all_resources pod pvc).
Proof.
  intros H. unfold cleanup_all_resources.
  apply only_then;
    [apply only_cleanup_ephemeral_resources; intros; apply H, in_or_app; auto|intros _].
  apply only_then; [|intros _; apply only_Ret; exact I].
  apply only_delete_persistent_data. intros k n Hin. apply H, in_or_app. right.
  rewrite SanitizeFacts.sanitize_name_fixed in Hin. exact Hin.
Qed.
End Footprints.

(** ** Frames of single calls *)

Lemma effect_frame objs c objs' key :
  effect objs c objs' -> target c <> Some key -> objs' !! key = objs !! key.
Proof.
  destruct 1; simpl; intros Hne; try reflexivity.
  - apply lookup_insert_ne. congruence.
  - apply lookup_insert_ne. congruence.
  - apply lookup_delete_ne. congruence.
Qed.

Lemma effect_keeps objs c objs' key :
  effect objs c objs' ->
  (forall k n, c = delete k n -> (k, n) <> key) ->
  is_Some (objs !! key) -> is_Some (objs' !! key).
Proof.
  destruct 1 as [c|k n b Hnone|n d old Hold|k n b Hsome]; intros Hdel Hin; try exact Hin.
  - destruct (decide ((k, n) = key)) as [<-|Hne].
    + rewrite lookup_insert_eq. eauto.
    + rewrite lookup_insert_ne; auto.
  - destruct (decide ((ConfigMap, n) = key)) as [<-|Hne].
    + rewrite lookup_insert_eq. eauto.
    + rewrite lookup_insert_ne; auto.
  - rewrite lookup_delete_ne; [exact Hin|]. eapply Hdel. reflexivity.
Qed.

Lemma effect_keeps_body objs c objs' key b :
  effect objs c objs' ->
  (forall k n, c = delete k n -> (k, n) <> key) ->
  (forall n d, c = patch_config_map n d -> (ConfigMap, n) <> key) ->
  objs !! key = Some b -> objs' !! key = Some b.
Proof.
  destruct 1 as [c|k n b' Hnone|n d old Hold|k n b' Hsome]; intros Hdel Hpatch Hin;
    try exact Hin.
  - rewrite lookup_insert_ne; [exact Hin|]. intros <-. congruence.
  - rewrite lookup_insert_ne; [exact Hin|]. eapply Hpatch. reflexivity.
  - rewrite lookup_delete_ne; [exact Hin|]. eapply Hdel. reflexivity.
Qed.
End CompositeFacts.

(** * Frames *)

Module FrameFacts.
Import Platform Program Observe Sanitize K8sManager.
Import ProgramFacts PlatformFacts FootprintFacts CompositeFacts.

(** A program whose calls all satisfy [P] logs only such calls and keeps
    every relation that each such call keeps. *)
Lemma only_keeps {A} (P : Call -> Prop) (I : World -> World -> Prop) (Q : A -> Prop) m w :
  (forall w, I w w) ->
  (forall a b c, I a b -> I b c -> I a c) ->
  (forall c w, P c -> I w (snd (respond c w))) ->
  only P Q m ->
  logged_only P w (snd (run m w)) /\ I w (snd (run m w)) /\
  (forall a, fst (run m w) = Returned a -> Q a).
Proof.
  intros Hrefl Htrans Hstep Hm.
  set (R := fun a b => logged_only P a b /\ I a b).
  assert (Hr : forall a, R a a).
  { intros a. split; [apply logged_only_refl|apply Hrefl]. }
  assert (Ht : forall a b c, R a b -> R b c -> R a c).
  { intros a b c [] []. split; [eapply logged_only_trans|eapply Htrans]; eassumption. }
  assert (Hs : forall c a, P c -> R a (snd (respond c a))).
  { intros c a Hc. split; [apply logged_only_step, Hc|apply Hstep, Hc]. }
  destruct (only_run P R Hr Ht Hs Q m Hm w) as [[H1 H2] H3]. auto.
Qed.

Lemma not_durable_ephemeral s k n : In (k, n) (ephemeral_keys s) -> ~ durable k n.
Proof.
  unfold durable. simpl.
  intros [H|[H|[H|[H|[]]]]]; injection H as <- <-;
    intros [?|[?|[? ?]]]; discriminate.
Qed.

Lemma not_durable_job n : ~ durable Job n.
Proof. unfold durable. intros [?|[?|[? ?]]]; discriminate. Qed.
Lemma create_server_keeps_durable cfg pod pvc key ml mr cl cr sc w :
  let w' := snd (run (MinecraftServerManager.create_server
                        cfg pod pvc key ml mr cl cr sc) w) in
  logged_only spares_durable w w' /\
  (forall k n b, k = PersistentVolume \/ k = PersistentVolumeClaim ->
                 objects w !! (k, n) = Some b -> objects w' !! (k, n) = Some b) /\
  (is_Some (objects w !! (ConfigMap, Naming.shared_config)) ->
   is_Some (objects w' !! (ConfigMap, Naming.shared_config))).
Proof.
  set (I := fun a b : World =>
    (forall k n b0, k = PersistentVolume \/ k = PersistentVolumeClaim ->
                    objects a !! (k, n) = Some b0 -> objects b !! (k, n) = Some b0) /\
    (is_Some (objects a !! (ConfigMap, Naming.shared_config)) ->
     is_Some (objects b !! (ConfigMap, Naming.shared_config)))).
  destruct (only_keeps spares_durable I any
              (MinecraftServerManager.create_server cfg pod pvc key ml mr cl cr sc) w)
    as (H1 & [H2 H3] & _).
  - split; auto.
  - intros a b c [Ha1 Ha2] [Hb1 Hb2]. split; eauto.
  - intros c w0 Hc. pose proof (respond_effect c w0) as He. split.
    + intros k n b0 Hk Hin. eapply effect_keeps_body; eauto.
      * intros k' n' -> [= -> ->]. apply Hc. unfold durable. tauto.
      * intros n' d' -> [= <- _]. destruct Hk; discriminate.
    + eapply effect_keeps; eauto.
      intros k' n' -> [= -> ->]. apply Hc. unfold durable. tauto.
  - apply only_create_server; simpl; auto.
    + intros k n. apply not_durable_ephemeral.
    + intros k n. apply not_durable_ephemeral.
    + apply not_durable_job.
  - auto.
Qed.

Lemma cleanup_frame identity w :
  let w' := snd (run (cleanup_ephemeral_resources identity) w) in
  logged_only (deletes_among (ephemeral_keys identity)) w w' /\
  (forall key, ~ In key (ephemeral_keys identity) ->
               objects w' !! key = objects w !! key).
Proof.
  destruct (only_keeps (deletes_among (ephemeral_keys identity))
              (fun a b => forall key, ~ In key (ephemeral_keys identity) ->
                                      objects b !! key = objects a !! key)
              any (cleanup_ephemeral_resources identity) w)
    as (H1 & H2 & _); auto.
  - intros a b c Hab Hbc key0 Hk. rewrite Hbc, Hab; auto.
  - intros c w1 Hc key0 Hk. apply (effect_frame _ c); [apply respond_effect|].
    destruct c; simpl in *; try tauto. intros [= <-]. tauto.
  - apply only_cleanup_ephemeral_resources. intros k n Hin. exact Hin.
Qed.
End FrameFacts.

(** * Executions that meet no fault *)

Module RunFacts.
Import Platform Program Observe Sanitize K8sManager.
Import ProgramFacts PlatformFacts FootprintFacts CompositeFacts FrameFacts.

Lemma run_delete_resource k n w :
  injected (hd quiet (script w)) = None ->
  exists r,
    run (_delete_resource k n) w =
    (Returned tt,
     mkWorld (base.delete (k, n) (objects w))
             (clock w + Z.of_nat (latency (hd quiet (script w))))
             (tl (script w)) (trace w ++ [(delete k n, r)])%list (lock_held w)).
Proof.
  intros H. unfold _delete_resource, except_ApiException.
  rewrite run_try_except, run_bind, run_api. unfold respond. rewrite H.
  simpl serve. destruct (objects w !! (k, n)) eqn:E; simpl.
  - eexists. reflexivity.
  - rewrite delete_id by exact E. eexists. reflexivity.
Qed.

Lemma run_cleanup_calm pod w :
  calm 4 (script w) ->
  exists w',
    run (cleanup_ephemeral_resources pod) w =
    (Returned [("status", "success");
               ("message", "Server " +:+ pod +:+ " resources cleaned up (paused).");
               ("pod_name", pod)], w') /\
    objects w' = delete_all (ephemeral_keys pod) (objects w) /\
    script w' = drop 4 (script w).
Proof.
  cbn [calm]. intros (H1 & H2 & H3 & H4 & _).
  unfold cleanup_ephemeral_resources.
  destruct (run_delete_resource Deployment pod w H1) as [r1 E1].
  rewrite run_bind, E1. clear E1.
  match goal with |- context [run _ ?w1] =>
    destruct (run_delete_resource Service (pod +:+ "-svc") w1 H2) as [r2 E2] end.
  rewrite run_bind, E2. clear E2. cbn [objects clock script trace lock_held].
  match goal with |- context [run _ ?w1] =>
    destruct (run_delete_resource Ingress ("servertap-" +:+ pod +:+ "-ingress") w1 H3)
      as [r3 E3] end.
  rewrite run_bind, E3. clear E3. cbn [objects clock script trace lock_held].
  match goal with |- context [run _ ?w1] =>
    destruct (run_delete_resource ConfigMap ("servertap-config-" +:+ pod) w1 H4)
      as [r4 E4] end.
  rewrite run_bind, E4. clear E4. cbn [objects clock script trace lock_held].
  eexists. split; [reflexivity|]. split; [reflexivity|].
  cbn [script]. destruct (script w) as [|? [|? [|? [|? ?]]]]; reflexivity.
Qed.

Lemma lookup_delete_all_other (keys : list (Kind * string)) (objs : Store) key :
  ~ In key keys -> delete_all keys objs !! key = objs !! key.
Proof.
  unfold delete_all. revert objs. induction keys as [|k keys IH]; intros objs H; simpl.
  - reflexivity.
  - rewrite IH by (simpl in H; tauto). apply lookup_delete_ne. simpl in H. tauto.
Qed.

Lemma lookup_delete_all_in (keys : list (Kind * string)) (objs : Store) key :
  In key keys -> delete_all keys objs !! key = None.
Proof.
  revert objs. induction keys as [|k keys IH]; intros objs H; [destruct H|].
  change (delete_all keys (base.delete k objs) !! key = None).
  destruct (List.in_dec (fun a b => decide (a = b)) key keys) as [Hin|Hnin];
    [apply IH, Hin|].
  destruct H as [->|H]; [|tauto].
  rewrite (lookup_delete_all_other keys _ key Hnin). apply lookup_delete_eq.
Qed.

Lemma list_objects_ext (m1 m2 : Store) (keys : list (Kind * string)) :
  (forall key, In key keys -> m1 !! key = m2 !! key) ->
  list_objects m1 keys = list_objects m2 keys.
Proof.
  unfold list_objects. induction keys as [|k keys IH]; intros H; simpl; [reflexivity|].
  rewrite (H k) by (simpl; auto). rewrite IH; [reflexivity|].
  intros; apply H; simpl; auto.
Qed.

Lemma list_objects_ext_nil (m : Store) (keys : list (Kind * string)) :
  (forall key, In key keys -> m !! key = None) -> list_objects m keys = [].
Proof.
  unfold list_objects. induction keys as [|k keys IH]; intros H; simpl; [reflexivity|].
  rewrite H by (simpl; auto). simpl. apply IH. intros; apply H; simpl; auto.
Qed.

Lemma list_objects_deleted (keys : list (Kind * string)) (objs : Store) :
  list_objects (delete_all keys objs) keys = [].
Proof.
  rewrite (list_objects_ext _ ∅).
  - unfold list_objects. induction keys; simpl; auto.
  - intros key Hin. rewrite lookup_delete_all_in by exact Hin. reflexivity.
Qed.

Lemma list_objects_kept (keys : list (Kind * string)) (objs : Store)
    (keys' : list (Kind * string)) :
  (forall key, In key keys' -> ~ In key keys) ->
  list_objects (delete_all keys objs) keys' = list_objects objs keys'.
Proof.
  intros H. apply list_objects_ext. intros key Hin.
  apply lookup_delete_all_other, H, Hin.
Qed.

Lemma storage_not_ephemeral s d key :
  In key (storage_keys d) -> ~ In key (ephemeral_keys s).
Proof.
  simpl. intros [<-|[<-|[]]] [H|[H|[H|[H|[]]]]]; discriminate.
Qed.
End RunFacts.

(** * The waits *)

Module WaitFacts.
Import Platform Program Observe Sanitize K8sManager.
Import ProgramFacts PlatformFacts FootprintFacts CompositeFacts FrameFacts RunFacts.

Lemma run_time w :
  run time w =
  (Returned (clock w),
   mkWorld (objects w) (clock w) (script w)
           (trace w ++ [(time_time, inr (RTime (clock w)))])%list (lock_held w)).
Proof. reflexivity. Qed.

Lemma run_sleep s w :
  run (sleep s) w =
  (Returned tt,
   mkWorld (objects w) (clock w + 1000 * s) (script w)
           (trace w ++ [(time_sleep s, inr RNone)])%list (lock_held w)).
Proof. reflexivity. Qed.

Lemma respond_read k n w :
  exists r,
    respond (read k n) w =
    (r, mkWorld (objects w) (clock w + Z.of_nat (latency (hd quiet (script w))))
                (tl (script w)) (trace w ++ [(read k n, r)])%list (lock_held w)) /\
    read_answer w k n r.
Proof.
  unfold respond. destruct (injected (hd quiet (script w))) as [s|] eqn:E.
  - eexists. split; [reflexivity|]. apply ra_fault. eapply injected_not_404, E.
  - simpl. destruct (objects w !! (k, n)) eqn:El.
    + eexists. split; [reflexivity|]. apply ra_found. exact El.
    + eexists. split; [reflexivity|]. apply ra_missing. exact El.
Qed.

Lemma wait_shape_finishes start timeout poll sat late o tr :
  wait_shape start timeout poll sat (fun _ => false) late o tr -> o <> Unfinished.
Proof. induction 1; try discriminate; auto. Qed.

Lemma poll_budget_enough timeout :
  1000 * timeout <= 2000 * (Z.of_nat (poll_budget timeout) - 1).
Proof.
  unfold poll_budget. rewrite Nat2Z.inj_succ.
  destruct (Z_lt_le_dec timeout 0) as [Hn|Hp].
  - assert (0 <= Z.of_nat (Z.to_nat ((timeout + 1) / 2))) by lia. lia.
  - rewrite Z2Nat.id by (apply Z.div_pos; lia).
    pose proof (Z.div_mod (timeout + 1) 2 ltac:(lia)).
    pose proof (Z.mod_pos_bound (timeout + 1) 2 ltac:(lia)). lia.
Qed.

Lemma pvc_loop_shape budget d start timeout w :
  (0 < budget)%nat ->
  1000 * timeout - (clock w - start) <= 2000 * (Z.of_nat budget - 1) ->
  exists tr,
    logged w (snd (run (_wait_for_pvc_bound_loop budget d start timeout) w)) tr /\
    wait_shape start timeout (read PersistentVolumeClaim d) is_bound (fun _ => false)
      (TimeoutFailure_pvc d)
      (fst (run (_wait_for_pvc_bound_loop budget d start timeout) w)) tr.
Proof.
  revert w. induction budget as [|b IH]; intros w Hpos Hb; [lia|].
  cbn [_wait_for_pvc_bound_loop]. rewrite run_bind, run_time.
  destruct (clock w - start <? 1000 * timeout) eqn:Elate.
  2:{ apply Z.ltb_ge in Elate. eexists. split; [reflexivity|].
      apply ws_timeout. lia. }
  apply Z.ltb_lt in Elate.
  rewrite run_bind. unfold except_ApiException.
  rewrite run_try_except, run_bind, run_api.
  match goal with |- context [respond _ ?w0] =>
    destruct (respond_read PersistentVolumeClaim d w0) as (r & Er & Hr) end.
  rewrite Er. clear Er. cbn [objects clock script trace lock_held].
  destruct Hr as [s Hs|Hmiss|body st Hfound].
  - (* a platform fault ends the wait *)
    cbn -[Z.mul Z.sub Z.add]. apply Z.eqb_neq in Hs as Hs'. rewrite Hs'.
    cbn -[Z.mul Z.sub Z.add].
    eexists. split; [unfold logged; cbn [trace]; rewrite <- app_assoc; reflexivity|].
    apply ws_abort; assumption.
  - (* not found: sleep and poll again *)
    cbn -[Z.mul Z.sub Z.add _wait_for_pvc_bound_loop sleep].
    rewrite run_bind, run_sleep. cbn [objects clock script trace lock_held].
    match goal with |- context [run _ ?w1] =>
      destruct (IH w1) as (tr & Hl & Hw) end.
    { lia. }
    { cbn [clock]. lia. }
    eexists. split.
    + unfold logged in *. rewrite Hl. cbn [trace]. rewrite <- !app_assoc. reflexivity.
    + apply ws_retry; [assumption|left; reflexivity|exact Hw].
  - cbn -[Z.mul Z.sub Z.add _wait_for_pvc_bound_loop sleep].
    destruct (String.eqb (phase st) "Bound") eqn:Eb.
    + cbn -[Z.mul Z.sub Z.add].
      eexists. split; [unfold logged; cbn [trace]; rewrite <- app_assoc; reflexivity|].
      apply ws_success; assumption.
    + rewrite run_bind, run_sleep. cbn [objects clock script trace lock_held].
      match goal with |- context [run _ ?w1] =>
        destruct (IH w1) as (tr & Hl & Hw) end.
      { lia. }
      { cbn [clock]. lia. }
      eexists. split.
      * unfold logged in *. rewrite Hl. cbn [trace]. rewrite <- !app_assoc. reflexivity.
      * apply ws_retry; [assumption| |exact Hw].
        right. exists body, st. auto.
Qed.

Lemma only_top {A} (m : Prog A) : only (fun _ => True) any m.
Proof. induction m; constructor; auto. exact I. Qed.

Lemma run_logged {A} (m : Prog A) w : exists tr, logged w (snd (run m w)) tr.
Proof.
  destruct (only_logged (fun _ => True) any m w (only_top m)) as (tr & H & _). eauto.
Qed.

Lemma respond_clock c w :
  (forall s, c = time_sleep s -> 0 <= s) -> clock w <= clock (snd (respond c w)).
Proof.
  intros H. destruct c; unfold respond; cbn -[serve Z.mul]; try lia;
    try (destruct (injected (hd quiet (script w)));
         [|match goal with |- context [serve ?c ?t ?o] => destruct (serve c t o) end];
         cbn [snd clock]; lia).
  specialize (H seconds eq_refl). lia.
Qed.

Lemma run_poll {A B} c (K : Reply -> Prog A) H (F : A -> Prog B) w :
  run (bind (try_except (bind (api c) K) H) F) w =
  run (bind (try_except (match fst (respond c w) with
                         | inl s => Raise (ApiException s)
                         | inr v => K v
                         end) H) F) (snd (respond c w)).
Proof. simpl. destruct (respond c w) as [[s|v] w1]; reflexivity. Qed.

Lemma run_fetch_logs job w :
  let res := run (try_except (fetch_logs job) swallow_404) w in
  (exists e, fst res = Raised e) \/
  (fst res = Returned false /\ clock w <= clock (snd res)).
Proof.
  unfold fetch_logs. cbn zeta. rewrite run_try_except, run_bind, run_api.
  pose proof (respond_clock (list_namespaced_pod ("job-name=" +:+ job)) w) as Hc1.
  destruct (respond (list_namespaced_pod ("job-name=" +:+ job)) w) as [[s|v] w1].
  - cbn [swallow_404 fst snd] in *. destruct (negb (s =? 404)); cbn [run fst snd].
    + left. eauto.
    + right. split; [reflexivity|]. apply Hc1. discriminate.
  - rewrite run_bind. destruct (reply_items v) as [|p ?].
    + cbn. left. eauto.
    + rewrite run_bind, run_api.
      pose proof (respond_clock (read_namespaced_pod_log p) w1) as Hc2.
      destruct (respond (read_namespaced_pod_log p) w1) as [[s|v'] w2].
      * cbn [swallow_404 fst snd] in *. destruct (negb (s =? 404)); cbn [run fst snd].
        -- left. eauto.
        -- right. split; [reflexivity|].
           etransitivity; [apply Hc1; discriminate|apply Hc2; discriminate].
      * cbn. left. eauto.
Qed.

Lemma job_loop_unfold b job start timeout :
  _wait_for_job_completion_loop (S b) job start timeout =
  (now <- time ;;
   if now - start <? 1000 * timeout then
     bind (try_except (bind (api (read Job job)) (judge_task job)) swallow_404)
          (task_poll_next b job start timeout)
   else Raise (TimeoutFailure_job job))%prog.
Proof. reflexivity. Qed.

Lemma job_loop_shape budget job start timeout w :
  (0 < budget)%nat ->
  1000 * timeout - (clock w - start) <= 2000 * (Z.of_nat budget - 1) ->
  (exists tr,
     logged w (snd (run (_wait_for_job_completion_loop budget job start timeout) w)) tr /\
     wait_shape start timeout (read Job job) has_succeeded has_failed
       (TimeoutFailure_job job)
       (fst (run (_wait_for_job_completion_loop budget job start timeout) w)) tr) /\
  fst (run (_wait_for_job_completion_loop budget job start timeout) w) <> Unfinished.
Proof.
  revert w. induction budget as [|b IH]; intros w Hpos Hb; [lia|].
  rewrite job_loop_unfold, run_bind, run_time.
  destruct (clock w - start <? 1000 * timeout) eqn:Elate.
  2:{ apply Z.ltb_ge in Elate. split; [|discriminate].
      eexists. split; [reflexivity|]. apply ws_timeout. lia. }
  apply Z.ltb_lt in Elate.
  rewrite run_poll.
  match goal with |- context [respond _ ?w0] =>
    destruct (respond_read Job job w0) as (r & Er & Hr) end.
  rewrite Er. clear Er. cbn [fst snd objects clock script trace lock_held].
  match goal with |- context [run _ ?x] => set (w1 := x) end.
  assert (Hlog : forall tr', logged w1 (snd (run
              (bind (try_except (match r with
                                 | inl s => Raise (ApiException s)
                                 | inr v => judge_task job v
                                 end) swallow_404)
                    (task_poll_next b job start timeout)) w1)) tr' ->
            logged w (snd (run
              (bind (try_except (match r with
                                 | inl s => Raise (ApiException s)
                                 | inr v => judge_task job v
                                 end) swallow_404)
                    (task_poll_next b job start timeout)) w1))
              ((time_time, inr (RTime (clock w))) :: (read Job job, r) :: tr')).
  { intros tr' H. unfold logged in *. rewrite H. subst w1. cbn [trace].
    rewrite <- !app_assoc. reflexivity. }
  assert (Hnext : forall w2, clock w1 <= clock w2 ->
            let w3 := mkWorld (objects w2) (clock w2 + 1000 * 2) (script w2)
                        (trace w2 ++ [(time_sleep 2, inr RNone)])%list (lock_held w2) in
            (exists tr,
               logged w3 (snd (run (_wait_for_job_completion_loop b job start timeout) w3)) tr /\
               wait_shape start timeout (read Job job) has_succeeded has_failed
                 (TimeoutFailure_job job)
                 (fst (run (_wait_for_job_completion_loop b job start timeout) w3)) tr) /\
            fst (run (_wait_for_job_completion_loop b job start timeout) w3) <> Unfinished).
  { intros w2 Hc w3. apply IH; subst w3 w1; cbn [clock] in *; lia. }
  destruct Hr as [s Hs|Hmiss|body st Hfound].
  - (* a platform fault ends the wait *)
    cbn [try_except swallow_404] in *. apply Z.eqb_neq in Hs as Hs'.
    rewrite Hs' in *. cbn [negb bind run fst snd] in *.
    split; [|discriminate].
    eexists. split; [apply Hlog; unfold logged; rewrite app_nil_r; reflexivity|].
    apply ws_abort; assumption.
  - (* not found: sleep and poll again *)
    cbn [try_except swallow_404 Z.eqb Pos.eqb negb bind task_poll_next] in *.
    change (404 =? 404) with true in *. cbn [negb bind task_poll_next] in *.
    rewrite run_bind, run_sleep in *.
    destruct (Hnext w1 ltac:(lia)) as [(tr & Hl & Hw) Hfin].
    split; [|exact Hfin].
    eexists. split.
    + apply Hlog. unfold logged in *. rewrite Hl. cbn [trace].
      rewrite <- !app_assoc. reflexivity.
    + apply ws_retry; [assumption|left; reflexivity|exact Hw].
  - unfold judge_task in *. cbn [reply_status] in *.
    destruct (truthy (succeeded st)) eqn:Es.
    { cbn [try_except bind task_poll_next run fst snd] in *.
      split; [|discriminate].
      eexists. split; [apply Hlog; unfold logged; rewrite app_nil_r; reflexivity|].
      apply ws_success; assumption. }
    destruct (truthy (failed st)) eqn:Ef.
    + (* the task has failed *)
      split.
      * destruct (run_logged (bind (try_except (fetch_logs job) swallow_404)
                                   (task_poll_next b job start timeout)) w1) as [tr' Htr].
        eexists. split; [apply Hlog, Htr|].
        apply ws_other; assumption.
      * rewrite run_bind.
        destruct (run_fetch_logs job w1) as [[e He]|[Hf Hclock]];
          destruct (run (try_except (fetch_logs job) swallow_404) w1) as [[a|e'| ] w2];
          cbn [fst snd] in *; try discriminate.
        injection Hf as ->. cbn [task_poll_next]. rewrite run_bind, run_sleep.
        apply (Hnext w2 Hclock).
    + cbn [try_except bind task_poll_next] in *.
      rewrite run_bind, run_sleep in *.
      destruct (Hnext w1 ltac:(lia)) as [(tr & Hl & Hw) Hfin].
      split; [|exact Hfin].
      eexists. split.
      * apply Hlog. unfold logged in *. rewrite Hl. cbn [trace].
        rewrite <- !app_assoc. reflexivity.
      * apply ws_retry; [assumption| |exact Hw].
        right. exists body, st. auto.
Qed.

Lemma respond_remote_calm c w :
  injected (hd quiet (script w)) = None -> remote c ->
  respond c w =
  (fst (serve c (hd quiet (script w)) (objects w)),
   mkWorld (snd (serve c (hd quiet (script w)) (objects w)))
           (clock w + Z.of_nat (latency (hd quiet (script w)))) (tl (script w))
           (trace w ++ [(c, fst (serve c (hd quiet (script w)) (objects w)))])%list
           (lock_held w)).
Proof.
  intros Hi Hr. unfold respond. rewrite Hi.
  destruct c; try contradiction; destruct (serve _ _ (objects w)); reflexivity.
Qed.

Lemma respond_remote_fault c w s :
  injected (hd quiet (script w)) = Some s -> remote c ->
  respond c w =
  (inl s,
   mkWorld (objects w) (clock w + Z.of_nat (latency (hd quiet (script w))))
           (tl (script w)) (trace w ++ [(c, inl s)])%list (lock_held w)).
Proof.
  intros Hi Hr. unfold respond. rewrite Hi.
  destruct c; try contradiction; reflexivity.
Qed.

Lemma job_failed_poll b job start timeout w body :
  clock w - start < 1000 * timeout ->
  objects w !! (Job, job) = Some body ->
  injected (hd quiet (script w)) = None ->
  has_succeeded (status (hd quiet (script w))) = false ->
  has_failed (status (hd quiet (script w))) = true ->
  run (_wait_for_job_completion_loop (S b) job start timeout) w =
  run (bind (try_except (fetch_logs job) swallow_404) (task_poll_next b job start timeout))
      (mkWorld (objects w) (clock w + Z.of_nat (latency (hd quiet (script w))))
         (tl (script w))
         (trace w ++ [(time_time, inr (RTime (clock w)));
                      (read Job job, inr (RObject body (status (hd quiet (script w)))))])%list
         (lock_held w)).
Proof.
  intros Hlate Hobj Hi Hsucc Hfail.
  rewrite job_loop_unfold, run_bind, run_time.
  apply Z.ltb_lt in Hlate. rewrite Hlate.
  rewrite run_poll.
  rewrite respond_remote_calm by (auto; exact I).
  cbn [serve fst snd objects clock script trace lock_held]. rewrite Hobj.
  cbn [fst snd]. unfold judge_task. cbn [reply_status].
  unfold has_succeeded, has_failed in *. rewrite Hsucc, Hfail.
  rewrite <- app_assoc. reflexivity.
Qed.

Section LogFetch.
Context (job : string) (F : bool -> Prog unit) (w : World).

Let fetch := bind (try_except (fetch_logs job) swallow_404) F.
Let listed := hd quiet (script w).
Let logs := hd quiet (tl (script w)).

Lemma fetch_list_fault s :
  injected listed = Some s -> fst (run fetch w) = Raised (ApiException s).
Proof.
  intros Hi. subst fetch listed. unfold fetch_logs.
  rewrite run_bind, run_try_except, run_bind, run_api.
  rewrite (respond_remote_fault _ _ s) by (auto; exact I).
  cbn [swallow_404 run]. apply injected_not_404, Z.eqb_neq in Hi. rewrite Hi.
  reflexivity.
Qed.

Lemma fetch_no_pods :
  injected listed = None -> pods listed = [] ->
  fst (run fetch w) = Raised (TaskFailure job).
Proof.
  intros Hi Hp. subst fetch listed. unfold fetch_logs.
  rewrite run_bind, run_try_except, run_bind, run_api.
  rewrite respond_remote_calm by (auto; exact I).
  cbn [serve fst snd reply_items]. rewrite Hp. reflexivity.
Qed.

Lemma fetch_log_read p ps text :
  injected listed = None -> pods listed = p :: ps ->
  injected logs = None -> pod_log logs = Some text ->
  fst (run fetch w) = Raised (TaskFailure job).
Proof.
  intros Hi Hp Hi3 Hl. subst fetch listed logs. unfold fetch_logs.
  rewrite run_bind, run_try_except, run_bind, run_api.
  rewrite respond_remote_calm by (auto; exact I).
  cbn [serve fst snd reply_items]. rewrite Hp.
  rewrite run_bind, run_bind, run_api.
  rewrite respond_remote_calm by (auto; exact I).
  cbn [serve fst snd script]. rewrite Hl. reflexivity.
Qed.

Lemma fetch_log_fault p ps s :
  injected listed = None -> pods listed = p :: ps ->
  injected logs = Some s ->
  fst (run fetch w) = Raised (ApiException s).
Proof.
  intros Hi Hp Hi3. subst fetch listed logs. unfold fetch_logs.
  rewrite run_bind, run_try_except, run_bind, run_api.
  rewrite respond_remote_calm by (auto; exact I).
  cbn [serve fst snd reply_items]. rewrite Hp.
  rewrite run_bind, run_bind, run_api.
  rewrite (respond_remote_fault _ _ s) by (auto; exact I).
  cbn [swallow_404 run]. apply injected_not_404, Z.eqb_neq in Hi3. rewrite Hi3.
  reflexivity.
Qed.

Lemma fetch_lists_pods :
  exists r tr,
    logged w (snd (run fetch w))
      ((list_namespaced_pod ("job-name=" +:+ job), r) :: tr).
Proof.
  subst fetch. unfold fetch_logs.
  change (bind (try_except (bind (api ?c) ?K) ?H) ?G) with
    (bind (try_except (bind (api c) K) H) G).
  rewrite run_poll.
  match goal with |- context [run ?m (snd (respond ?c w))] =>
    destruct (run_logged m (snd (respond c w))) as [tr Htr];
    pose proof (respond_logged c w) as Hc end.
  eexists _, tr. unfold logged in *. rewrite Htr, Hc, <- app_assoc. reflexivity.
Qed.
End LogFetch.
End WaitFacts.

(** * The storage step and successful provisioning *)

Module SuccessFacts.
Import Platform Program Observe Sanitize K8sManager.
Import ProgramFacts PlatformFacts FootprintFacts CompositeFacts FrameFacts RunFacts WaitFacts.

(** ** Calls that leave the storage objects alone *)

Lemma untouched_refl w : untouched w w.
Proof. split; [apply logged_only_refl|]. intros k n _. reflexivity. Qed.

Lemma reuse_keeps {A} (Q : A -> Prop) m w0 w :
  untouched w0 w ->
  only (fun c => ~ writes_storage c) Q m ->
  untouched w0 (snd (run m w)).
Proof.
  intros [Hl Hs] Hm.
  destruct (only_keeps (fun c => ~ writes_storage c) storage_same Q m w) as (H1 & H2 & _).
  - intros a k n _. reflexivity.
  - intros a b c Hab Hbc k n Hk. rewrite Hbc, Hab; auto.
  - intros c a Hc k n Hk. apply (effect_frame _ c); [apply respond_effect|].
    destruct c; simpl in *; try discriminate; intros [= <- <-]; try tauto.
    destruct Hk as [|[|]]; discriminate.
  - exact Hm.
  - split; [eapply logged_only_trans; eassumption|].
    intros k n Hk. rewrite H2, Hs; auto.
Qed.

Lemma run_bind_keeps {A B} (R : World -> Prop) (m : Prog A) (f : A -> Prog B) w :
  R (snd (run m w)) ->
  (forall a w1, run m w = (Returned a, w1) -> R w1 -> R (snd (run (f a) w1))) ->
  R (snd (run (bind m f) w)).
Proof.
  intros H1 H2. rewrite run_bind.
  destruct (run m w) as [[a|e| ] w1] eqn:E; cbn [snd] in *; auto.
Qed.

Lemma run_pvc_exists d w :
  (exists s, s <> 404 /\ fst (run (pvc_exists d) w) = Raised (ApiException s)) \/
  (objects w !! (PersistentVolumeClaim, d) = None /\
   fst (run (pvc_exists d) w) = Returned false) \/
  (is_Some (objects w !! (PersistentVolumeClaim, d)) /\
   fst (run (pvc_exists d) w) = Returned true).
Proof.
  unfold pvc_exists, except_ApiException.
  rewrite run_try_except, run_bind, run_api.
  destruct (respond_read PersistentVolumeClaim d w) as (r & Er & Hr). rewrite Er.
  destruct Hr as [s Hs|Hmiss|body st Hfound]; cbn.
  - left. exists s. apply Z.eqb_neq in Hs as Hs'. rewrite Hs'. auto.
  - right. left. auto.
  - right. right. eauto.
Qed.

Lemma not_writes_ephemeral s k n :
  In (k, n) (ephemeral_keys s) -> ~ storage_kind k.
Proof.
  simpl. intros [H|[H|[H|[H|[]]]]]; injection H as <- <-; intros [|[|]]; discriminate.
Qed.

Lemma provision_reuses_from cfg pod pvc key ml mr cl cr sc w w1 :
  is_Some (objects w !! (PersistentVolumeClaim, _sanitize_name pvc)) ->
  untouched w w1 ->
  untouched w (snd (run (create_minecraft_resources cfg pod pvc key ml mr cl cr sc) w1)).
Proof.
  intros Hclaim H1. unfold create_minecraft_resources.
  set (s := _sanitize_name pod). set (d := _sanitize_name pvc) in *.
  (* cleanup of the stale ephemeral set *)
  apply run_bind_keeps.
  { apply (reuse_keeps any); [exact H1|].
    apply only_cleanup_ephemeral_resources. intros k n Hin.
    simpl. eapply not_writes_ephemeral, Hin. }
  clear H1. intros _ w2 _ H1. clear w1. rename w2 into w1.
  (* shared config object *)
  apply run_bind_keeps.
  { apply (reuse_keeps any); [exact H1|].
    apply only_create_or_update_paper_configmap; simpl; auto;
      intros ? [|[|]]; discriminate. }
  clear H1. intros _ w2 _ H1. clear w1. rename w2 into w1.
  (* per-server config object *)
  apply run_bind_keeps.
  { apply (reuse_keeps any); [exact H1|].
    apply only_create_servertap_configmap; simpl; auto;
      intros ? [|[|]]; discriminate. }
  clear H1. intros _ w2 _ H1. clear w1. rename w2 into w1.
  (* the existence probe finds the claim *)
  assert (Hthere : is_Some (objects w1 !! (PersistentVolumeClaim, d))).
  { destruct H1 as [_ Hs]. rewrite Hs; [exact Hclaim|]. right. right. reflexivity. }
  apply run_bind_keeps.
  { apply (reuse_keeps any); [exact H1|]. apply only_pvc_exists. simpl. auto. }
  intros present w2 E H2.
  assert (present = true) as ->.
  { destruct (run_pvc_exists d w1) as [(st & _ & E')|[[Hnone _]|[_ E']]].
    - rewrite E in E'. discriminate.
    - rewrite Hnone in Hthere. destruct Hthere; discriminate.
    - rewrite E in E'. cbn [fst] in E'. congruence. }
  cbn [negb]. clear H1 Hthere E w1. rename w2 into w1, H2 into H1.
  apply run_bind_keeps.
  { apply (reuse_keeps any); [exact H1|]. apply only_Ret. exact I. }
  clear H1. intros _ w2 _ H1. clear w1. rename w2 into w1.
  (* deployment, service, route *)
  apply (reuse_keeps any); [exact H1|].
  apply only_then; [apply only_create_deployment|intros _].
  { simpl. intros ? [|[|]]; discriminate. }
  apply only_then; [apply only_create_service|intros _].
  { simpl. intros ? [|[|]]; discriminate. }
  apply only_then; [apply only_create_ingress|intros _].
  { simpl. intros ? [|[|]]; discriminate. }
  apply only_Ret. exact I.
Qed.

Lemma provision_reuses_storage cfg pod pvc key ml mr cl cr sc w :
  is_Some (objects w !! (PersistentVolumeClaim, _sanitize_name pvc)) ->
  untouched w (snd (run (create_minecraft_resources cfg pod pvc key ml mr cl cr sc) w)).
Proof. intros H. apply provision_reuses_from; [exact H|apply untouched_refl]. Qed.

(** ** What a successful provisioning leaves behind *)

Lemma kept_trans a b c : kept a b -> kept b c -> kept a c.
Proof. unfold kept. auto. Qed.

Lemma only_kept {A} (Q : A -> Prop) m w :
  only deletes_tasks_only Q m -> kept w (snd (run m w)).
Proof.
  intros Hm.
  destruct (only_keeps deletes_tasks_only kept Q m w) as (_ & H & _); auto.
  - intros a key _ H. exact H.
  - apply kept_trans.
  - intros c a Hc key Hk Hin. eapply effect_keeps; [apply respond_effect| |exact Hin].
    intros k n -> <-. apply Hk. exact Hc.
Qed.

Lemma run_api_create k n b w v w' :
  run (api (create k n b)) w = (Returned v, w') -> objects w' !! (k, n) = Some b.
Proof.
  rewrite run_api. unfold respond.
  destruct (injected (hd quiet (script w))); [discriminate|].
  cbn [serve]. destruct (objects w !! (k, n)); [discriminate|].
  intros [= _ <-]. cbn [objects]. apply lookup_insert_eq.
Qed.

Lemma run_create_unit k n b w a w' :
  run (bind (api (create k n b)) (fun _ => Ret tt)) w = (Returned a, w') ->
  is_Some (objects w' !! (k, n)).
Proof.
  intros H. apply run_bind_returned in H as (v & w1 & H1 & H2).
  injection H2 as _ <-. apply run_api_create in H1. eauto.
Qed.

Lemma run_pvc_exists_true d w w' :
  run (pvc_exists d) w = (Returned true, w') ->
  is_Some (objects w' !! (PersistentVolumeClaim, d)).
Proof.
  intros E.
  assert (Hk : kept w w').
  { replace w' with (snd (run (pvc_exists d) w)) by (rewrite E; reflexivity).
    apply (only_kept any), only_pvc_exists. exact I. }
  destruct (run_pvc_exists d w) as [(st & _ & E')|[[_ E']|[H _]]];
    try (rewrite E in E'; discriminate).
  apply Hk; [discriminate|exact H].
Qed.

Lemma run_create_persistent_volume_claim d cap w a w' :
  run (create_persistent_volume_claim d cap) w = (Returned a, w') ->
  is_Some (objects w' !! (PersistentVolumeClaim, d)).
Proof.
  unfold create_persistent_volume_claim. intros H.
  apply run_bind_returned in H as (v & w1 & H1 & H2).
  apply run_api_create in H1.
  assert (Hk : kept w1 w').
  { replace w' with (snd (run (_wait_for_pvc_bound d 60) w1)) by (rewrite H2; reflexivity).
    apply (only_kept any). unfold _wait_for_pvc_bound.
    apply only_then; [apply only_time; exact I|intros start].
    apply only_wait_for_pvc_bound_loop; exact I. }
  apply Hk; [discriminate|eauto].
Qed.

Lemma world_of_run {A} (m : Prog A) w o w' : run m w = (o, w') -> w' = snd (run m w).
Proof. intros ->. reflexivity. Qed.

Lemma provision_success cfg pod pvc key ml mr cl cr sc w r w1 :
  run (create_minecraft_resources cfg pod pvc key ml mr cl cr sc) w = (Returned r, w1) ->
  List.Forall (fun key => is_Some (objects w1 !! key))
    (ephemeral_keys (_sanitize_name pod) ++ [(PersistentVolumeClaim, _sanitize_name pvc)]).
Proof.
  unfold create_minecraft_resources.
  set (s := _sanitize_name pod). set (d := _sanitize_name pvc).
  intros H.
  apply run_bind_returned in H as (a1 & wa & _ & H).
  apply run_bind_returned in H as (a2 & wb & _ & H).
  apply run_bind_returned in H as (a3 & wc & Hcm & H).
  apply run_create_unit in Hcm.
  apply run_bind_returned in H as (present & wd & Hprobe & H).
  apply run_bind_returned in H as (a5 & we & Hstore & H).
  apply run_bind_returned in H as (a6 & wf & Hdep & H).
  pose proof (world_of_run _ _ _ _ Hdep) as Kdep. apply run_create_unit in Hdep.
  apply run_bind_returned in H as (a7 & wg & Hsvc & H).
  pose proof (world_of_run _ _ _ _ Hsvc) as Ksvc. apply run_create_unit in Hsvc.
  apply run_bind_returned in H as (a8 & wh & Hing & H).
  pose proof (world_of_run _ _ _ _ Hing) as King. apply run_create_unit in Hing.
  injection H as _ <-.
  assert (Kcd : kept wc wd).
  { rewrite (world_of_run _ _ _ _ Hprobe). apply (only_kept any), only_pvc_exists. exact I. }
  assert (Kde : kept wd we).
  { rewrite (world_of_run _ _ _ _ Hstore). apply (only_kept any).
    destruct (negb present); [|apply only_Ret; exact I].
    apply only_then; [apply only_create_nfs_directory_job; simpl; auto|intros _].
    apply only_then; [apply only_create_persistent_volume; simpl; auto|intros _].
    apply only_create_persistent_volume_claim; simpl; auto. }
  assert (Kef : kept we wf).
  { rewrite Kdep. apply (only_kept any), only_create_deployment. intros; exact I. }
  assert (Kfg : kept wf wg).
  { rewrite Ksvc. apply (only_kept any), only_create_service. intros; exact I. }
  assert (Kgh : kept wg wh).
  { rewrite King. apply (only_kept any), only_create_ingress. intros; exact I. }
  assert (Hclaim : is_Some (objects we !! (PersistentVolumeClaim, d))).
  { destruct present; cbn [negb] in Hstore.
    - injection Hstore as _ <-. eapply run_pvc_exists_true, Hprobe.
    - apply run_bind_returned in Hstore as (b1 & w1' & _ & Hstore).
      apply run_bind_returned in Hstore as (b2 & w2' & _ & Hstore).
      eapply run_create_persistent_volume_claim, Hstore. }
  repeat constructor.
  - apply Kgh, Kfg; try discriminate. exact Hdep.
  - apply Kgh; try discriminate. exact Hsvc.
  - exact Hing.
  - apply Kgh, Kfg, Kef, Kde, Kcd; try discriminate. exact Hcm.
  - apply Kgh, Kfg, Kef; try discriminate. exact Hclaim.
Qed.

(** ** A teardown that meets no fault *)

Lemma calm_split n m ts : calm (n + m) ts -> calm n ts /\ calm m (drop n ts).
Proof.
  revert ts. induction n as [|n IH]; intros ts; cbn [calm Nat.add].
  - rewrite drop_0. auto.
  - intros [H1 H2]. destruct (IH _ H2) as [H3 H4]. split; [auto|].
    destruct ts as [|t ts]; [|exact H4].
    cbn [tl] in H4. rewrite drop_nil in *. exact H4.
Qed.

Lemma delete_all_app (l1 l2 : list (Kind * string)) (objs : Store) :
  delete_all (l1 ++ l2) objs = delete_all l2 (delete_all l1 objs).
Proof. unfold delete_all. apply foldl_app. Qed.

Lemma run_delete_persistent_data_calm pvc w :
  calm 2 (script w) ->
  exists w',
    run (delete_persistent_data pvc) w = (Returned tt, w') /\
    objects w' = delete_all (storage_keys (_sanitize_name pvc)) (objects w).
Proof.
  cbn [calm]. intros (H1 & H2 & _). unfold delete_persistent_data.
  destruct (run_delete_resource PersistentVolumeClaim (_sanitize_name pvc) w H1)
    as [r1 E1].
  rewrite run_bind, E1. clear E1.
  match goal with |- context [run _ ?w1] =>
    destruct (run_delete_resource PersistentVolume ("pv-" +:+ _sanitize_name pvc) w1 H2)
      as [r2 E2] end.
  unfold _delete_resource in E2. rewrite E2.
  eexists. split; reflexivity.
Qed.

Lemma run_cleanup_all_calm pod pvc w :
  calm 6 (script w) ->
  exists w',
    run (cleanup_all_resources pod pvc) w =
    (Returned [("status", "cleaned"); ("pod_name", _sanitize_name pod);
               ("pvc_name", _sanitize_name pvc)], w') /\
    objects w' =
    delete_all (teardown_targets (_sanitize_name pod) (_sanitize_name pvc)) (objects w).
Proof.
  intros H. apply (calm_split 4 2) in H as [H4 H2].
  unfold cleanup_all_resources.
  destruct (run_cleanup_calm (_sanitize_name pod) w H4) as (w1 & E1 & O1 & S1).
  rewrite run_bind, E1. rewrite <- S1 in H2.
  destruct (run_delete_persistent_data_calm (_sanitize_name pvc) w1 H2) as (w2 & E2 & O2).
  rewrite run_bind, E2. cbn [run].
  exists w2. split; [reflexivity|].
  rewrite O2, O1, SanitizeFacts.sanitize_name_fixed.
  unfold teardown_targets. rewrite delete_all_app. reflexivity.
Qed.

Lemma teardown_names pod pvc w :
  let s := _sanitize_name pod in
  let d := _sanitize_name pvc in
  logged_only (deletes_among (teardown_targets s d)) w
    (snd (run (MinecraftServerManager.delete_server pod pvc) w)) /\
  logged_only (deletes_among (storage_keys d)) w
    (snd (run (MinecraftServerManager.delete_server_data pvc) w)).
Proof.
  intros s d. split.
  - eapply only_logged with (Q := any).
    unfold MinecraftServerManager.delete_server.
    apply only_try_except; [|intros; apply only_Raise].
    apply only_cleanup_all_resources. intros k n Hin. exact Hin.
  - eapply only_logged with (Q := any).
    unfold MinecraftServerManager.delete_server_data.
    apply only_then; [|intros; apply only_Ret; exact I].
    apply only_delete_persistent_data. intros k n Hin. exact Hin.
Qed.

(** ** The clean-up when a deletion meets a fault *)

Lemma run_delete_resource_fault k n w s :
  injected (hd quiet (script w)) = Some s ->
  run (_delete_resource k n) w =
  (Raised (ApiException s),
   mkWorld (objects w) (clock w + Z.of_nat (latency (hd quiet (script w))))
           (tl (script w)) (trace w ++ [(delete k n, inl s)])%list (lock_held w)).
Proof.
  intros H. unfold _delete_resource, except_ApiException.
  rewrite run_try_except, run_bind, run_api.
  rewrite (respond_remote_fault _ _ _ H) by exact I.
  cbn [run]. apply injected_not_404 in H.
  destruct (s =? 404) eqn:E; [apply Z.eqb_eq in E; contradiction|reflexivity].
Qed.

Lemma nth_0 (l : list Tick) : nth 0 l quiet = hd quiet l.
Proof. destruct l; reflexivity. Qed.
Lemma nth_1 (l : list Tick) : nth 1 l quiet = hd quiet (tl l).
Proof. destruct l as [|? [|? ?]]; reflexivity. Qed.
Lemma nth_2 (l : list Tick) : nth 2 l quiet = hd quiet (tl (tl l)).
Proof. destruct l as [|? [|? [|? ?]]]; reflexivity. Qed.
Lemma nth_3 (l : list Tick) : nth 3 l quiet = hd quiet (tl (tl (tl l))).
Proof. destruct l as [|? [|? [|? [|? ?]]]]; reflexivity. Qed.

Lemma nth_4 (l : list Tick) : nth 4 l quiet = hd quiet (tl (tl (tl (tl l)))).
Proof. destruct l as [|? [|? [|? [|? [|? ?]]]]]; reflexivity. Qed.
Lemma nth_5 (l : list Tick) : nth 5 l quiet = hd quiet (tl (tl (tl (tl (tl l))))).
Proof. destruct l as [|? [|? [|? [|? [|? [|? ?]]]]]]; reflexivity. Qed.

Ltac delete_next H :=
  rewrite run_bind;
  match goal with
  | |- context [run (_delete_resource ?k ?n) ?w1] =>
      first
        [ rewrite (run_delete_resource_fault k n w1 _ H)
        | let r := fresh "r" in let E := fresh "E" in
          destruct (run_delete_resource k n w1 H) as [r E]; rewrite E; clear E ]
  end;
  cbn [objects clock script trace lock_held].

Lemma run_then_raise {A B} (m : Prog A) (e : Exn) w :
  snd (run (bind m (fun _ => Raise e : Prog B)) w) = snd (run m w).
Proof.
  rewrite run_bind. destruct (run m w) as [[a| |] w']; reflexivity.
Qed.

Lemma run_cleanup_fault pod w i s :
  (i < 4)%nat -> calm i (script w) ->
  injected (nth i (script w) quiet) = Some s ->
  exists w',
    run (cleanup_ephemeral_resources pod) w = (Raised (ApiException s), w') /\
    objects w' = delete_all (take i (ephemeral_keys pod)) (objects w).
Proof.
  intros Hi Hc Hf. unfold cleanup_ephemeral_resources.
  destruct i as [|[|[|[|i]]]]; [| | | |lia]; cbn [calm] in Hc.
  - rewrite nth_0 in Hf. delete_next Hf. eexists. split; reflexivity.
  - rewrite nth_1 in Hf. destruct Hc as (H1 & _).
    delete_next H1. delete_next Hf. eexists. split; reflexivity.
  - rewrite nth_2 in Hf. destruct Hc as (H1 & H2 & _).
    delete_next H1. delete_next H2. delete_next Hf. eexists. split; reflexivity.
  - rewrite nth_3 in Hf. destruct Hc as (H1 & H2 & H3 & _).
    delete_next H1. delete_next H2. delete_next H3. delete_next Hf.
    eexists. split; reflexivity.
Qed.

Lemma take_drop_disjoint (key : Kind * string) i s :
  In key (drop i (ephemeral_keys s)) -> ~ In key (take i (ephemeral_keys s)).
Proof.
  destruct i as [|[|[|[|i]]]]; simpl; rewrite ?drop_nil; simpl; intros H1 H2;
    repeat match goal with
           | H : _ \/ _ |- _ => destruct H
           | H : False |- _ => destruct H
           end; congruence.
Qed.

End SuccessFacts.

(** * The claims *)

Module Claims.
Import Platform Program Observe Sanitize K8sManager.
Import ProgramFacts PlatformFacts FootprintFacts CompositeFacts FrameFacts RunFacts.
Import WaitFacts SuccessFacts.

(** C1.  What the pause endpoint does for every server name and in every
    state of the platform: the manager has no attribute [pause_server],
    so the call raises before any platform call and the endpoint answers
    with a server error; no object is deleted. *)
Theorem pause_server_unavailable cfg pod w :
  run (Main.pause_server cfg pod) w =
  (Raised (HTTPException 500
             "'MinecraftServerManager' object has no attribute 'pause_server'"), w).
Proof. reflexivity. Qed.

(** C2, as amended.  For an already sanitized server name, when the
    provisioning fails with [e] at any step and leaves the world [w1]:
    - if the four compensating deletions meet no platform fault, the
      facade raises the same [e], all four are deleted and the ephemeral
      listing of the identity is empty;
    - if the first fault [s] is met by deletion number [i] (counted from
      0, the earlier ones having met none), the facade raises that fault
      in place of [e], the [i] resources before it are deleted and the
      remaining ones are as the failed provisioning left them;
    - in every case each storage listing is as it was when the failure
      occurred, and every volume and claim present before the call is
      still present unchanged. *)
Theorem create_server_rollback cfg pod pvc key ml mr cl cr sc w e w1 :
  _sanitize_name pod = pod ->
  run (create_minecraft_resources cfg pod pvc key ml mr cl cr sc) w = (Raised e, w1) ->
  let result :=
    run (MinecraftServerManager.create_server cfg pod pvc key ml mr cl cr sc) w in
  let keys := ephemeral_keys (_sanitize_name pod) in
  (calm 4 (script w1) ->
   fst result = Raised e /\
   objects (snd result) = delete_all keys (objects w1) /\
   ephemeral_listing (objects (snd result)) (_sanitize_name pod) = []) /\
  (forall i s,
     (i < 4)%nat -> calm i (script w1) ->
     injected (nth i (script w1) quiet) = Some s ->
     fst result = Raised (ApiException s) /\
     objects (snd result) = delete_all (take i keys) (objects w1) /\
     List.Forall (fun key => objects (snd result) !! key = objects w1 !! key)
       (drop i keys)) /\
  (forall d, storage_listing (objects (snd result)) d = storage_listing (objects w1) d) /\
  (forall k n b, k = PersistentVolume \/ k = PersistentVolumeClaim ->
                 objects w !! (k, n) = Some b ->
                 objects (snd result) !! (k, n) = Some b).
Proof.
  intros Hs Hrun. cbv zeta.
  pose proof (create_server_keeps_durable cfg pod pvc key ml mr cl cr sc w)
    as (_ & Hkeep & _).
  pose proof (cleanup_frame pod w1) as (_ & Hframe).
  revert Hkeep. unfold MinecraftServerManager.create_server.
  rewrite run_try_except, Hrun. rewrite Hs. intros Hkeep.
  split; [|split; [|split]].
  - intros Hcalm. rewrite run_bind.
    destruct (run_cleanup_calm pod w1 Hcalm) as (w2 & E & Hobj & _).
    rewrite E. cbn [run fst snd]. split; [reflexivity|]. split; [exact Hobj|].
    unfold ephemeral_listing. rewrite Hobj. apply list_objects_deleted.
  - intros i s Hi Hcalm Hfault. rewrite run_bind.
    destruct (run_cleanup_fault pod w1 i s Hi Hcalm Hfault) as (w2 & E & Hobj).
    rewrite E. cbn [fst snd]. split; [reflexivity|]. split; [exact Hobj|].
    apply List.Forall_forall. intros key0 Hin. rewrite Hobj.
    apply lookup_delete_all_other, take_drop_disjoint, Hin.
  - intros d. rewrite run_then_raise. unfold storage_listing.
    apply list_objects_ext. intros key0 Hin. apply Hframe.
    eapply storage_not_ephemeral, Hin.
  - exact Hkeep.
Qed.

(** The rollback theorem at work.  The claim exists and the service
    creation fails with status 500: when the compensation meets no fault
    the failure is raised and nothing ephemeral is left; when its second
    deletion fails with status 503, that fault is raised, the deployment
    is gone and the per-server config object is left. *)
Lemma create_server_rollback_witness :
  let w := world Scenario.claim_alpha (repeat quiet 9 ++ [faulty 500])%list in
  let v := world Scenario.claim_alpha
             (repeat quiet 9 ++ [faulty 500; quiet; faulty 503])%list in
  (fst (run (Scenario.request "alpha" "alpha-data") w) = Raised (ApiException 500) /\
   ephemeral_listing (objects (snd (run (Scenario.request "alpha" "alpha-data") w)))
     "alpha" = []) /\
  (fst (run (Scenario.request "alpha" "alpha-data") v) = Raised (ApiException 503) /\
   objects (snd (run (Scenario.request "alpha" "alpha-data") v))
     !! (ConfigMap, "servertap-config-alpha")
   = objects (snd (run (Scenario.provision "alpha" "alpha-data") v))
       !! (ConfigMap, "servertap-config-alpha")).
Proof.
  intros w v. split.
  - destruct (create_server_rollback Scenario.cfg "alpha" "alpha-data"
                "key" "4Gi" "2Gi" "2" "1" "10Gi" w (ApiException 500)
                (snd (run (Scenario.provision "alpha" "alpha-data") w)))
      as (H & _).
    + vm_compute. reflexivity.
    + vm_compute. reflexivity.
    + destruct H as (H1 & _ & H2).
      * vm_compute. repeat split.
      * split; [exact H1|exact H2].
  - destruct (create_server_rollback Scenario.cfg "alpha" "alpha-data"
                "key" "4Gi" "2Gi" "2" "1" "10Gi" v (ApiException 500)
                (snd (run (Scenario.provision "alpha" "alpha-data") v)))
      as (_ & H & _).
    + vm_compute. reflexivity.
    + vm_compute. reflexivity.
    + destruct (H 1%nat 503) as (H1 & _ & H2).
      * lia.
      * vm_compute. repeat split.
      * vm_compute. reflexivity.
      * split; [exact H1|].
        apply (proj1 (List.Forall_forall _ _) H2). vm_compute. tauto.
Defined.

(** C2 as stated fails: the service creation fails with status 500, the
    first compensating deletion with 503; the facade raises the latter
    and the deployment and per-server config object remain. *)
Lemma rollback_can_fail :
  let w := world Scenario.claim_alpha (repeat quiet 9 ++ [faulty 500; faulty 503])%list in
  let result := run (Scenario.request "alpha" "alpha-data") w in
  fst (run (Scenario.provision "alpha" "alpha-data") w) = Raised (ApiException 500) /\
  fst result = Raised (ApiException 503) /\
  map fst (ephemeral_listing (objects (snd result)) "alpha")
    = [(Deployment, "alpha"); (ConfigMap, "servertap-config-alpha")].
Proof. vm_compute. repeat split. Qed.

(** The compensation is given the name as the caller wrote it: for a name
    that normalization changes, it deletes nothing of the identity. *)
Lemma rollback_misses_unsanitized_name :
  let w := world Scenario.claim_alpha (repeat quiet 9 ++ [faulty 500])%list in
  let result := run (Scenario.request "Alpha" "alpha-data") w in
  fst result = Raised (ApiException 500) /\
  map fst (ephemeral_listing (objects (snd result)) "alpha")
    = [(Deployment, "alpha"); (ConfigMap, "servertap-config-alpha")].
Proof. vm_compute. repeat split. Qed.

(** C3.  The shared-config upsert never takes the manager's lock: it logs
    no lock call and leaves the lock as it was.  Two provisioning
    requests for different identities can therefore both read the shared
    object as missing before either creates it; the second creation is
    refused with status 409 and that request fails. *)
Theorem shared_config_unguarded :
  (forall cfg w,
     let w' := snd (run (create_or_update_paper_configmap cfg) w) in
     logged_only (fun c => ~ is_lock_call c) w w' /\ lock_held w' = lock_held w) /\
  (let '(_, second, w') :=
     interleave Scenario.racing
       (Scenario.request "alpha" "alpha-data")
       (Scenario.request "beta" "beta-data") (world ∅ []) in
   second = Raise (ApiException 409) /\
   List.filter (fun ev => on_shared_config (fst ev)) (trace w') =
     [ (read ConfigMap "paper-global-config", inl 404);
       (read ConfigMap "paper-global-config", inl 404);
       (create ConfigMap "paper-global-config"
          (ConfigMapBody [("paper-global.yml", paper_global_yml Scenario.cfg)]),
        inr RNone);
       (create ConfigMap "paper-global-config"
          (ConfigMapBody [("paper-global.yml", paper_global_yml Scenario.cfg)]),
        inl 409) ]).
Proof.
  split.
  - intros cfg w.
    destruct (only_keeps (fun c => ~ is_lock_call c)
                (fun a b => lock_held b = lock_held a) any
                (create_or_update_paper_configmap cfg) w) as (H1 & H2 & _); auto.
    + intros a b c Hab Hbc. congruence.
    + intros c a Hc. apply respond_lock, Hc.
    + apply only_create_or_update_paper_configmap; repeat intro;
        match goal with H : is_lock_call _ |- _ => destruct H; discriminate end.
  - vm_compute. split; reflexivity.
Qed.

(** C4, as amended.  When a poll made before the deadline reads the task
    as failed, the wait lists the task's pods next; if that listing and
    the log read of the first pod (when there is one) succeed, the wait
    raises the task failure; a platform fault of the listing or of the
    log read is raised in its place. *)
Theorem task_failure_after_log_fetch b job start w body :
  let polled := nth 0 (script w) quiet in
  let listed := nth 1 (script w) quiet in
  let logs := nth 2 (script w) quiet in
  let result := run (_wait_for_job_completion_loop (S b) job start 60) w in
  clock w - start < 1000 * 60 ->
  objects w !! (Job, job) = Some body ->
  injected polled = None ->
  has_succeeded (status polled) = false -> has_failed (status polled) = true ->
  (exists r tr,
     logged w (snd result)
       ((time_time, inr (RTime (clock w))) ::
        (read Job job, inr (RObject body (status polled))) ::
        (list_namespaced_pod ("job-name=" +:+ job), r) :: tr)) /\
  (injected listed = None -> pods listed = [] ->
   fst result = Raised (TaskFailure job)) /\
  (forall p ps text,
     injected listed = None -> pods listed = p :: ps ->
     injected logs = None -> pod_log logs = Some text ->
     fst result = Raised (TaskFailure job)) /\
  (forall s, injected listed = Some s -> fst result = Raised (ApiException s)) /\
  (forall p ps s,
     injected listed = None -> pods listed = p :: ps -> injected logs = Some s ->
     fst result = Raised (ApiException s)).
Proof.
  intros polled listed logs result Hlate Hobj Hi Hsucc Hfail.
  assert (E0 : polled = hd quiet (script w)) by (subst polled; destruct (script w); auto).
  assert (E1 : listed = hd quiet (tl (script w))).
  { subst listed. destruct (script w) as [|? [|? ?]]; auto. }
  assert (E2 : logs = hd quiet (tl (tl (script w)))).
  { subst logs. destruct (script w) as [|? [|? [|? ?]]]; auto. }
  clearbody polled listed logs. subst polled listed logs result.
  rewrite (job_failed_poll b job start 60 w body) by assumption.
  match goal with |- context [run _ ?x] => set (w1 := x) end.
  split; [|split; [|split; [|split]]].
  - destruct (fetch_lists_pods job (task_poll_next b job start 60) w1) as (r & tr & H).
    exists r, tr. unfold logged in *. rewrite H. subst w1. cbn [trace].
    rewrite <- app_assoc. reflexivity.
  - intros. apply fetch_no_pods; assumption.
  - intros. eapply fetch_log_read; eassumption.
  - intros. apply fetch_list_fault; assumption.
  - intros. eapply fetch_log_fault; eassumption.
Qed.

(** The task has failed, one pod is listed and its log is read: the wait
    raises the task failure. *)
Lemma task_failure_after_log_fetch_witness :
  fst (run (_wait_for_job_completion_loop 31 "create-nfs-dir-alpha-data" 0 60)
         (world Scenario.task_alpha
            [Scenario.task_failed; Scenario.pods_listed ["pod-1"];
             Scenario.log_read "mkdir: permission denied"]))
  = Raised (TaskFailure "create-nfs-dir-alpha-data").
Proof.
  destruct (task_failure_after_log_fetch 30 "create-nfs-dir-alpha-data" 0
              (world Scenario.task_alpha
                 [Scenario.task_failed; Scenario.pods_listed ["pod-1"];
                  Scenario.log_read "mkdir: permission denied"])
              (JobBody "/mnt/nfs-minecraft/alpha-data"))
    as (_ & _ & H & _).
  - vm_compute. reflexivity.
  - reflexivity.
  - reflexivity.
  - reflexivity.
  - reflexivity.
  - apply (H "pod-1" [] "mkdir: permission denied"); reflexivity.
Defined.

(** C4 as stated fails: the task has failed and the listing of its pods
    meets status 500; the wait raises that fault, not the task failure. *)
Lemma log_fetch_fault_replaces_task_failure :
  let job := "create-nfs-dir-alpha-data" in
  let w := world Scenario.task_alpha [Scenario.task_failed; faulty 500] in
  fst (run (_wait_for_job_completion job 60) w) = Raised (ApiException 500) /\
  fst (run (_wait_for_job_completion job 60) w) <> Raised (TaskFailure job).
Proof. vm_compute. split; [reflexivity|discriminate]. Qed.

(** A log read that finds no log is taken for a task not yet visible: the
    wait polls on and ends with the timeout error. *)
Lemma task_failure_masked_by_missing_log :
  let job := "create-nfs-dir-alpha-data" in
  fst (run (_wait_for_job_completion job 60)
         (world Scenario.task_alpha Scenario.failing_forever))
  = Raised (TimeoutFailure_job job).
Proof. vm_compute. reflexivity. Qed.

(** C5, as amended.  Every call of a provisioning is on a name of the
    naming contract for the sanitized identities: volume [pv-<d>],
    endpoint [<s>-svc], route [servertap-<s>-ingress], per-server config
    [servertap-config-<s>], task [create-nfs-dir-<d>] (and the workload
    [<s>], the claim [<d>], the shared config object); on success the
    result carries the game address [<s>.<domain>] and the management
    address [http://<s>-api.<domain>]. *)
Theorem naming_contract cfg pod pvc key ml mr cl cr sc w :
  let s := _sanitize_name pod in
  let d := _sanitize_name pvc in
  let result := run (create_minecraft_resources cfg pod pvc key ml mr cl cr sc) w in
  logged_only (within_contract s d) w (snd result) /\
  match fst result with
  | Returned r =>
      r = [("status", "success"); ("pod_name", s); ("pvc_name", d);
           ("game_url", Naming.game_address s (GAME_DOMAIN cfg));
           ("api_url", "http://" +:+ Naming.management_address s (GAME_DOMAIN cfg))]
  | _ => True
  end.
Proof.
  intros s d result.
  destruct (only_keeps (within_contract s d) (fun _ _ => True)
              (fun r => r = [("status", "success"); ("pod_name", s); ("pvc_name", d);
                             ("game_url", Naming.game_address s (GAME_DOMAIN cfg));
                             ("api_url", "http://" +:+
                                Naming.management_address s (GAME_DOMAIN cfg))])
              (create_minecraft_resources cfg pod pvc key ml mr cl cr sc) w)
    as (H1 & _ & H3); auto.
  - apply only_create_minecraft_resources; simpl; auto 10.
    intros k n Hin. fold s. tauto.
  - split; [exact H1|]. subst result.
    destruct (fst (run _ w)) eqn:E; auto.
Qed.

(** C5 as stated fails: the management address returned for [foo] starts
    with the scheme, so it is not [foo-api.<domain>]. *)
Lemma management_address_has_scheme :
  fst (run (Scenario.provision "foo" "foo-data") (world ∅ Scenario.smooth))
  = Returned [("status", "success"); ("pod_name", "foo"); ("pvc_name", "foo-data");
              ("game_url", Naming.game_address "foo" "mc.msdca.shop");
              ("api_url", "http://foo-api.mc.msdca.shop")] /\
  "http://foo-api.mc.msdca.shop" <> Naming.management_address "foo" "mc.msdca.shop".
Proof. vm_compute. split; [reflexivity|discriminate]. Qed.

(** The objects a fault-free provisioning leaves on an empty cluster. *)
Lemma provision_example :
  let w' := snd (run (Scenario.provision "Foo_Server" "foo-data")
                   (world ∅ Scenario.smooth)) in
  map fst (map_to_list (objects w')) ≡ₚ
    [ (Deployment, "fooserver"); (Service, "fooserver-svc");
      (Ingress, "servertap-fooserver-ingress");
      (ConfigMap, "servertap-config-fooserver");
      (ConfigMap, "paper-global-config");
      (Job, "create-nfs-dir-foo-data");
      (PersistentVolume, "pv-foo-data"); (PersistentVolumeClaim, "foo-data") ].
Proof. vm_compute. solve_Permutation. Qed.

(** C6.  A provisioning call, whatever its outcome, logs no deletion of a
    durable volume, of a volume claim or of the shared config object;
    every volume and claim present before the call is present, with the
    same content, after it, and the shared config object stays present.
    The ephemeral cleanup logs only deletions of the deployment, service,
    route and per-server config object of the identity it is given, and
    every other object is the same after it. *)
Theorem provisioning_spares_durable cfg pod pvc key ml mr cl cr sc w :
  let w' := snd (run (MinecraftServerManager.create_server
                        cfg pod pvc key ml mr cl cr sc) w) in
  (logged_only spares_durable w w' /\
   (forall k n b, k = PersistentVolume \/ k = PersistentVolumeClaim ->
                  objects w !! (k, n) = Some b -> objects w' !! (k, n) = Some b) /\
   (is_Some (objects w !! (ConfigMap, Naming.shared_config)) ->
    is_Some (objects w' !! (ConfigMap, Naming.shared_config)))) /\
  (forall identity w0,
     let w1 := snd (run (cleanup_ephemeral_resources identity) w0) in
     logged_only (deletes_among (ephemeral_keys identity)) w0 w1 /\
     (forall key, ~ In key (ephemeral_keys identity) ->
                  objects w1 !! key = objects w0 !! key)).
Proof.
  split; [apply create_server_keeps_durable|].
  intros identity w0. apply cleanup_frame.
Qed.

(** C7.  When the claim of the storage identity exists, a provisioning
    logs no creation (and no deletion) of a task, volume or claim, and
    all tasks, volumes and claims are the same after it.  Hence after a
    provisioning that returned, any further provisioning with the same
    storage name creates no second volume or claim. *)
Theorem storage_reuse cfg pod pvc key ml mr cl cr sc w :
  let d := _sanitize_name pvc in
  let provision := create_minecraft_resources cfg pod pvc key ml mr cl cr sc in
  (is_Some (objects w !! (PersistentVolumeClaim, d)) ->
   logged_only (fun c => ~ writes_storage c) w (snd (run provision w)) /\
   (forall k n, storage_kind k ->
                objects (snd (run provision w)) !! (k, n) = objects w !! (k, n))) /\
  (forall r w1 pod' key' ml' mr' cl' cr' sc',
     run provision w = (Returned r, w1) ->
     let again := create_minecraft_resources cfg pod' pvc key' ml' mr' cl' cr' sc' in
     logged_only (fun c => ~ writes_storage c) w1 (snd (run again w1)) /\
     (forall k n, storage_kind k ->
                  objects (snd (run again w1)) !! (k, n) = objects w1 !! (k, n))).
Proof.
  intros d provision. split.
  - intros H. apply provision_reuses_storage, H.
  - intros r w1 pod' key' ml' mr' cl' cr' sc' Hrun again.
    apply provision_reuses_storage.
    pose proof (provision_success _ _ _ _ _ _ _ _ _ _ _ _ Hrun) as Hall.
    apply Forall_app in Hall as [_ Hall]. inversion Hall; subst. assumption.
Qed.

(** A provisioning on a cluster that holds the claim leaves the storage
    listing as it was. *)
Lemma storage_reuse_witness :
  let w := world Scenario.claim_alpha [] in
  storage_listing (objects (snd (run (Scenario.provision "alpha" "alpha-data") w)))
    "alpha-data"
  = storage_listing (objects w) "alpha-data".
Proof.
  intros w.
  destruct (storage_reuse Scenario.cfg "alpha" "alpha-data"
              "key" "4Gi" "2Gi" "2" "1" "10Gi" w) as [H _].
  destruct H as [_ H].
  - vm_compute. eauto.
  - unfold storage_listing, list_objects, storage_keys. cbn [flat_map].
    rewrite !H; [reflexivity|right; left; reflexivity|right; right; reflexivity].
Defined.

(** C8.  Both waits, for every name and state: the log is the reading of
    the start time followed by clock tests against the 60 second
    deadline; a test past the deadline raises the timeout error with no
    further poll; otherwise one poll follows, which returns when the
    condition holds, raises at once on a failure other than not-found,
    and is followed by a sleep of exactly two seconds and the next test
    when the resource is not found or the condition is false.  Neither
    wait runs on for ever. *)
Theorem waits_follow_discipline pvc_name job_name w :
  let bound := run (_wait_for_pvc_bound pvc_name 60) w in
  let done := run (_wait_for_job_completion job_name 60) w in
  ((exists tr,
      logged w (snd bound) ((time_time, inr (RTime (clock w))) :: tr) /\
      wait_shape (clock w) 60 (read PersistentVolumeClaim pvc_name)
        is_bound (fun _ => false) (TimeoutFailure_pvc pvc_name) (fst bound) tr) /\
   fst bound <> Unfinished) /\
  ((exists tr,
      logged w (snd done) ((time_time, inr (RTime (clock w))) :: tr) /\
      wait_shape (clock w) 60 (read Job job_name)
        has_succeeded has_failed (TimeoutFailure_job job_name) (fst done) tr) /\
   fst done <> Unfinished).
Proof.
  intros bound done. pose proof (poll_budget_enough 60) as Hb.
  assert (Hpos : (0 < poll_budget 60)%nat) by (unfold poll_budget; lia).
  split.
  - subst bound. unfold _wait_for_pvc_bound. rewrite run_bind, run_time.
    match goal with |- context [run _ ?x] =>
      destruct (pvc_loop_shape (poll_budget 60) pvc_name (clock w) 60 x Hpos)
        as (tr & Hl & Hw) end.
    { cbn [clock]. lia. }
    split; [|eapply wait_shape_finishes, Hw].
    exists tr. split; [|exact Hw].
    unfold logged in *. rewrite Hl. cbn [trace]. rewrite <- app_assoc. reflexivity.
  - subst done. unfold _wait_for_job_completion. rewrite run_bind, run_time.
    match goal with |- context [run _ ?x] =>
      destruct (job_loop_shape (poll_budget 60) job_name (clock w) 60 x Hpos)
        as [(tr & Hl & Hw) Hfin] end.
    { cbn [clock]. lia. }
    split; [|exact Hfin].
    exists tr. split; [|exact Hw].
    unfold logged in *. rewrite Hl. cbn [trace]. rewrite <- app_assoc. reflexivity.
Qed.

(** C9.  Normalizing a normalized name changes nothing. *)
Theorem normalization_idempotent (s : string) :
  _sanitize_name (_sanitize_name s) = _sanitize_name s.
Proof. apply SanitizeFacts.sanitize_name_fixed. Qed.

(** C10, as amended.  The full teardown and the data deletion normalize
    their inputs as provisioning does and address the per-identity
    resources under the names of the contract, and only these:
    - in every execution the teardown deletes only among the ephemeral
      set of [sanitize pod] and the volume pair of [sanitize pvc], the
      data deletion only among the volume pair of [sanitize pvc];
    - a teardown whose six deletions meet no fault returns [cleaned] with
      the normalized names and removes exactly these six objects; a data
      deletion whose two deletions meet no fault returns and removes
      exactly the claim and the volume;
    - after a provisioning that returned for the same raw names the
      ephemeral set and the claim exist under exactly these names, so the
      teardown removes them, and every other object, the directory task
      and the shared config object of the provisioning among them, is
      left as it was. *)
Theorem teardown_targets_provisioned cfg pod pvc key ml mr cl cr sc w :
  let s := _sanitize_name pod in
  let d := _sanitize_name pvc in
  let teardown := run (MinecraftServerManager.delete_server pod pvc) in
  let data_deletion := run (MinecraftServerManager.delete_server_data pvc) in
  (logged_only (deletes_among (teardown_targets s d)) w (snd (teardown w)) /\
   logged_only (deletes_among (storage_keys d)) w (snd (data_deletion w))) /\
  (calm 6 (script w) ->
   fst (teardown w)
     = Returned [("status", "cleaned"); ("pod_name", s); ("pvc_name", d)] /\
   objects (snd (teardown w)) = delete_all (teardown_targets s d) (objects w)) /\
  (calm 2 (script w) ->
   fst (data_deletion w)
     = Returned [("status", "persistent_data_deleted"); ("pvc_name", pvc)] /\
   objects (snd (data_deletion w)) = delete_all (storage_keys d) (objects w)) /\
  (forall r w1,
     run (MinecraftServerManager.create_server cfg pod pvc key ml mr cl cr sc) w
       = (Returned r, w1) ->
     List.Forall (fun key => is_Some (objects w1 !! key))
       (ephemeral_keys s ++ [(PersistentVolumeClaim, d)]) /\
     (calm 6 (script w1) ->
      exists w2,
        teardown w1
          = (Returned [("status", "cleaned"); ("pod_name", s); ("pvc_name", d)], w2) /\
        objects w2 = delete_all (teardown_targets s d) (objects w1) /\
        (forall key, In key (teardown_targets s d) -> objects w2 !! key = None) /\
        (forall key, ~ In key (teardown_targets s d) ->
                     objects w2 !! key = objects w1 !! key))).
Proof.
  intros s d teardown data_deletion. subst teardown data_deletion. cbv beta.
  assert (T : forall v, calm 6 (script v) ->
    exists v',
      run (MinecraftServerManager.delete_server pod pvc) v
        = (Returned [("status", "cleaned"); ("pod_name", s); ("pvc_name", d)], v') /\
      objects v' = delete_all (teardown_targets s d) (objects v)).
  { intros v Hcalm. destruct (run_cleanup_all_calm pod pvc v Hcalm) as (v' & E & O).
    exists v'. unfold MinecraftServerManager.delete_server.
    rewrite run_try_except, E. auto. }
  split; [apply teardown_names|]. split; [|split].
  - intros Hcalm. destruct (T w Hcalm) as (w' & E & O). rewrite E. auto.
  - intros Hcalm. unfold MinecraftServerManager.delete_server_data.
    destruct (run_delete_persistent_data_calm pvc w Hcalm) as (w' & E & O).
    rewrite run_bind, E. cbn [run fst snd]. auto.
  - intros r w1 Hrun. split.
    + unfold MinecraftServerManager.create_server in Hrun.
      rewrite run_try_except in Hrun.
      destruct (run (create_minecraft_resources cfg pod pvc key ml mr cl cr sc) w)
        as [[a|e| ] w'] eqn:E.
      * injection Hrun as <- <-. eapply provision_success, E.
      * rewrite run_bind in Hrun.
        destruct (run (cleanup_ephemeral_resources pod) w') as [[?|?| ] ?]; discriminate.
      * discriminate.
    + intros Hcalm. destruct (T w1 Hcalm) as (w2 & E & O).
      exists w2. split; [exact E|]. split; [exact O|]. rewrite O. split.
      * intros key0. apply lookup_delete_all_in.
      * intros key0. apply lookup_delete_all_other.
Qed.

(** Provisioning and teardown with the same raw names, one of which
    normalization changes: nothing of the identity is left, and the data
    deletion alone removes the claim and the volume. *)
Lemma teardown_targets_provisioned_witness :
  let w := world ∅ Scenario.smooth in
  let w1 := snd (run (Scenario.request "Foo_Server" "foo-data") w) in
  (exists w2,
     run (MinecraftServerManager.delete_server "Foo_Server" "foo-data") w1
       = (Returned [("status", "cleaned"); ("pod_name", "fooserver");
                    ("pvc_name", "foo-data")], w2) /\
     ephemeral_listing (objects w2) "fooserver" = [] /\
     storage_listing (objects w2) "foo-data" = []) /\
  storage_listing
    (objects (snd (run (MinecraftServerManager.delete_server_data "foo-data")
                     (world (objects w1) [])))) "foo-data" = [].
Proof.
  intros w w1. split.
  - destruct (teardown_targets_provisioned Scenario.cfg "Foo_Server" "foo-data"
                "key" "4Gi" "2Gi" "2" "1" "10Gi" w) as (_ & _ & _ & H).
    destruct (H [("status", "success"); ("pod_name", "fooserver");
                 ("pvc_name", "foo-data"); ("game_url", "fooserver.mc.msdca.shop");
                 ("api_url", "http://fooserver-api.mc.msdca.shop")] w1) as [_ H2].
    + vm_compute. reflexivity.
    + destruct H2 as (w2 & E & _ & O & _).
      * vm_compute. repeat split.
      * exists w2. split; [exact E|]. split.
        -- unfold ephemeral_listing. apply list_objects_ext_nil.
           intros key0 Hin. apply O, in_or_app. left. exact Hin.
        -- unfold storage_listing. apply list_objects_ext_nil.
           intros key0 Hin. apply O, in_or_app. right. exact Hin.
  - destruct (teardown_targets_provisioned Scenario.cfg "Foo_Server" "foo-data"
                "key" "4Gi" "2Gi" "2" "1" "10Gi" (world (objects w1) []))
      as (_ & _ & H & _).
    destruct H as [_ O].
    + vm_compute. repeat split.
    + rewrite O. unfold storage_listing. apply list_objects_deleted.
Defined.

(** C10 as stated fails: provisioning on an empty cluster creates the
    directory task and the shared config object; the teardown with the
    same raw names returns [cleaned] and both are still there. *)
Lemma teardown_leaves_provisioned_objects :
  let w := world ∅ Scenario.smooth in
  let provisioned := run (Scenario.request "Foo_Server" "foo-data") w in
  let result :=
    run (MinecraftServerManager.delete_server "Foo_Server" "foo-data")
      (snd provisioned) in
  fst provisioned
    = Returned [("status", "success"); ("pod_name", "fooserver");
                ("pvc_name", "foo-data"); ("game_url", "fooserver.mc.msdca.shop");
                ("api_url", "http://fooserver-api.mc.msdca.shop")] /\
  fst result
    = Returned [("status", "cleaned"); ("pod_name", "fooserver");
                ("pvc_name", "foo-data")] /\
  map (fun key => Notions.present (objects w) key)
    [(Job, "create-nfs-dir-foo-data"); (ConfigMap, "paper-global-config")]
    = [false; false] /\
  map (fun key => Notions.present (objects (snd provisioned)) key)
    [(Job, "create-nfs-dir-foo-data"); (ConfigMap, "paper-global-config")]
    = [true; true] /\
  map (fun key => Notions.present (objects (snd result)) key)
    [(Job, "create-nfs-dir-foo-data"); (ConfigMap, "paper-global-config")]
    = [true; true].
Proof. vm_compute. repeat split. Qed.
End Claims.

(** * Further properties: name normalization *)

Module SanitizeProperties.
Import Sanitize SanitizeFacts Notions.

Lemma forallb_clean l : forallb allowed l = true <-> clean l.
Proof.
  unfold clean. rewrite forallb_forall, List.Forall_forall. reflexivity.
Qed.

Lemma collapse_hd l :
  is_dash (hd "a"%char (collapse l)) = is_dash (hd "a"%char l).
Proof.
  induction l as [|c l IH]; [reflexivity|].
  destruct l as [|c' l'].
  { cbn [collapse]. destruct (is_dash c); reflexivity. }
  change (collapse (c :: c' :: l')) with
    (if is_dash c
     then if is_dash c' then collapse (c' :: l') else c :: collapse (c' :: l')
     else c :: collapse (c' :: l')).
  destruct (is_dash c) eqn:Ec; [|reflexivity].
  destruct (is_dash c') eqn:Ec'; [|reflexivity].
  rewrite IH. cbn [hd]. congruence.
Qed.

Lemma collapse_no_double_dash l : no_double_dash (collapse l) = true.
Proof.
  induction l as [|c l IH]; [reflexivity|].
  destruct l as [|c' l'].
  - simpl. destruct (is_dash c) eqn:E; simpl; rewrite E; reflexivity.
  - change (collapse (c :: c' :: l')) with
      (if is_dash c
       then if is_dash c' then collapse (c' :: l') else c :: collapse (c' :: l')
       else c :: collapse (c' :: l')).
    destruct (is_dash c) eqn:Ec.
    + destruct (is_dash c') eqn:Ec'; [exact IH|].
      cbn [no_double_dash]. rewrite collapse_hd. cbn [hd].
      rewrite Ec, Ec', IH. reflexivity.
    + cbn [no_double_dash]. rewrite Ec, IH. reflexivity.
Qed.

Lemma collapse_fixed l : no_double_dash l = true -> collapse l = l.
Proof.
  induction l as [|c l IH]; [reflexivity|].
  cbn [no_double_dash]. intros H. apply andb_true_iff in H as [H1 H2].
  specialize (IH H2).
  destruct l as [|c' l']; [simpl; destruct (is_dash c); reflexivity|].
  change (collapse (c :: c' :: l')) with
    (if is_dash c
     then if is_dash c' then collapse (c' :: l') else c :: collapse (c' :: l')
     else c :: collapse (c' :: l')).
  cbn [hd] in H1.
  destruct (is_dash c); [destruct (is_dash c'); [discriminate|]|]; rewrite IH; reflexivity.
Qed.

Lemma sanitize_chars_normal l :
  let r := sanitize_chars l in
  clean r /\ no_leading_dash r /\ no_trailing_dash r /\ no_double_dash r = true.
Proof.
  unfold sanitize_chars, sanitize_with. cbv zeta. repeat split.
  - apply clean_collapse, clean_strip_dashes, clean_filter.
  - apply collapse_no_leading, strip_dashes_no_leading.
  - apply collapse_no_trailing, strip_dashes_no_trailing.
  - apply collapse_no_double_dash.
Qed.

Lemma normalized_spec s :
  normalized s = true <->
  let l := list_ascii_of_string s in
  clean l /\ no_leading_dash l /\ no_trailing_dash l /\ no_double_dash l = true.
Proof.
  unfold normalized, no_leading_dash, no_trailing_dash. cbv zeta.
  rewrite !andb_true_iff, !negb_true_iff, forallb_clean. tauto.
Qed.

Lemma sanitize_normalized s : normalized (_sanitize_name s) = true.
Proof.
  apply normalized_spec. cbv zeta. unfold _sanitize_name.
  rewrite list_ascii_of_string_of_list_ascii. apply sanitize_chars_normal.
Qed.

Lemma normalized_fixed s : normalized s = true -> _sanitize_name s = s.
Proof.
  intros H. apply normalized_spec in H. cbv zeta in H.
  destruct H as (Hc & Hl & Ht & Hd).
  unfold _sanitize_name, sanitize_chars, sanitize_with.
  rewrite (map_lower_clean _ Hc), (filter_clean _ Hc).
  rewrite (strip_dashes_fixed _ Hl Ht), (collapse_fixed _ Hd).
  apply string_of_list_ascii_of_string.
Qed.

(** Characters, one by one. *)
Ltac each_char c :=
  destruct c as [b0 b1 b2 b3 b4 b5 b6 b7];
  destruct b0, b1, b2, b3, b4, b5, b6, b7; reflexivity.

Lemma kept_letter c :
  allowed (lower_char c) && negb (is_dash (lower_char c)) = is_alnum c.
Proof. each_char c. Qed.

Lemma removed_spec c : removed c = negb (allowed (lower_char c)).
Proof. each_char c. Qed.

Lemma lower_char_idempotent c : lower_char (lower_char c) = lower_char c.
Proof. each_char c. Qed.

Lemma drop_dashes_nil l : drop_dashes l = [] <-> forallb is_dash l = true.
Proof.
  induction l as [|c l IH]; simpl; [tauto|].
  destruct (is_dash c); simpl; [exact IH|]. split; discriminate.
Qed.

Lemma forallb_rev {A} (f : A -> bool) l : forallb f (rev l) = forallb f l.
Proof.
  induction l as [|a l IH]; [reflexivity|].
  simpl. rewrite forallb_app, IH. simpl. rewrite andb_true_r. apply andb_comm.
Qed.

Lemma drop_dashes_all l :
  forallb is_dash (drop_dashes l) = true -> forallb is_dash l = true.
Proof.
  induction l as [|c l IH]; simpl; [auto|].
  destruct (is_dash c) eqn:E; simpl; [exact IH|]. rewrite E. discriminate.
Qed.

Lemma strip_dashes_nil l : strip_dashes l = [] <-> forallb is_dash l = true.
Proof.
  unfold strip_dashes. split.
  - intros H. apply (f_equal (@rev ascii)) in H. rewrite rev_involutive in H.
    simpl in H. apply drop_dashes_nil in H. rewrite forallb_rev in H.
    apply drop_dashes_all, H.
  - intros H. apply drop_dashes_nil in H. rewrite H. reflexivity.
Qed.

Lemma collapse_nil l : collapse l = [] <-> l = [].
Proof.
  split; [|intros ->; reflexivity].
  destruct l as [|c l]; [reflexivity|]. intros H.
  exfalso. exact (collapse_cons_nonempty c l H).
Qed.

Lemma kept_all_dashes l :
  forallb is_dash (List.filter allowed (map lower_char l)) = true <->
  existsb is_alnum l = false.
Proof.
  induction l as [|c l IH]; simpl; [tauto|].
  rewrite <- (kept_letter c).
  destruct (allowed (lower_char c)) eqn:Ea; simpl.
  - destruct (is_dash (lower_char c)); simpl; [exact IH|].
    split; discriminate.
  - exact IH.
Qed.

Lemma sanitize_chars_nil l : sanitize_chars l = [] <-> existsb is_alnum l = false.
Proof.
  unfold sanitize_chars, sanitize_with. cbv zeta.
  rewrite collapse_nil, strip_dashes_nil. apply kept_all_dashes.
Qed.

Lemma list_ascii_of_string_app s1 s2 :
  list_ascii_of_string (s1 +:+ s2) =
  (list_ascii_of_string s1 ++ list_ascii_of_string s2)%list.
Proof.
  induction s1 as [|c s1 IH]; [reflexivity|].
  simpl. f_equal. exact IH.
Qed.

Lemma string_eq_list s1 s2 :
  list_ascii_of_string s1 = list_ascii_of_string s2 -> s1 = s2.
Proof.
  intros H. rewrite <- (string_of_list_ascii_of_string s1),
    <- (string_of_list_ascii_of_string s2), H. reflexivity.
Qed.

(** ** The properties *)

(** X1.  Whatever the name given, the normalized name is made of the
    characters [a-z0-9-] only, neither starts nor ends with a dash and
    has no two dashes in a row. *)
Theorem sanitized_name_is_normalized (name : string) :
  normalized (_sanitize_name name) = true.
Proof. apply sanitize_normalized. Qed.

(** X2.  The names that normalization leaves unchanged are exactly the
    names of the normalized shape. *)
Theorem sanitize_name_unchanged_iff (name : string) :
  _sanitize_name name = name <-> normalized name = true.
Proof.
  split.
  - intros H. rewrite <- H. apply sanitize_normalized.
  - apply normalized_fixed.
Qed.

(** X3.  For a name of ASCII characters, the normalized name is empty
    exactly when the name has no letter and no digit: the method accepts
    such a name and returns the empty string. *)
Theorem sanitize_name_empty_iff (name : string) :
  ascii_name name = true ->
  (_sanitize_name name = "" <->
   existsb is_alnum (list_ascii_of_string name) = false).
Proof.
  intros _. unfold _sanitize_name. rewrite <- sanitize_chars_nil. split.
  - intros H. apply (f_equal list_ascii_of_string) in H.
    rewrite list_ascii_of_string_of_list_ascii in H. exact H.
  - intros ->. reflexivity.
Qed.

Lemma sanitize_name_empty_iff_witness :
  ascii_name "_-. -_" = true /\ _sanitize_name "_-. -_" = "" /\
  ascii_name "_-x-_" = true /\ _sanitize_name "_-x-_" <> "".
Proof.
  split; [reflexivity|]. split.
  - apply (proj2 (sanitize_name_empty_iff "_-. -_" eq_refl)). reflexivity.
  - split; [reflexivity|]. intros H.
    apply (proj1 (sanitize_name_empty_iff "_-x-_" eq_refl)) in H. discriminate H.
Defined.

(** X4.  For names of ASCII characters, normalization ignores the case
    of letters and every character other than letters, digits and
    dashes, wherever it stands: two names that differ in these only are
    normalized to the same name. *)
Theorem sanitize_name_ignores (before after : string) (c : ascii) :
  ascii_name (before +:+ String c after) = true ->
  _sanitize_name (before +:+ String c after) =
  _sanitize_name (before +:+ String (lower_char c) after) /\
  (removed c = true ->
   _sanitize_name (before +:+ String c after) = _sanitize_name (before +:+ after)).
Proof.
  intros _. unfold _sanitize_name, sanitize_chars, sanitize_with.
  rewrite !list_ascii_of_string_app. cbn [list_ascii_of_string].
  rewrite !map_app. cbn [map]. rewrite lower_char_idempotent.
  split; [reflexivity|].
  intros H. rewrite removed_spec in H. apply negb_true_iff in H.
  rewrite !List.filter_app. cbn [List.filter]. rewrite H. reflexivity.
Qed.

Lemma sanitize_name_ignores_witness :
  ascii_name ("my" +:+ String "S" "erver") = true /\
  _sanitize_name "myServer" = _sanitize_name "myserver" /\
  _sanitize_name "my_server" = _sanitize_name "myserver".
Proof.
  split; [reflexivity|]. split.
  - exact (proj1 (sanitize_name_ignores "my" "erver" "S" eq_refl)).
  - exact (proj2 (sanitize_name_ignores "my" "server" "_" eq_refl) eq_refl).
Defined.

End SanitizeProperties.

(** * Further properties: the operations of the manager *)

Module OperationProperties.
Import Sanitize Platform Program K8sManager Observe Notions.
Import SanitizeFacts PlatformFacts ProgramFacts FootprintFacts CompositeFacts
       FrameFacts RunFacts WaitFacts SuccessFacts SanitizeProperties.
Local Open Scope prog_scope.

(** X5.  The four deletions of the ephemeral clean-up run in the order
    deployment, service, route, per-server config object, and the first
    platform fault ends the clean-up: what was deleted before it stays
    deleted, the later resources are left in place, and the fault is
    raised.  Without a fault all four are gone (a resource that was
    missing counts as deleted) and the acknowledgement is returned. *)
Theorem cleanup_stops_at_first_fault pod w :
  let done := calm_run 4 (script w) in
  let result := run (cleanup_ephemeral_resources pod) w in
  objects (snd result) = delete_all (take done (ephemeral_keys pod)) (objects w) /\
  ((done = 4%nat /\
    fst result =
    Returned [("status", "success");
              ("message", "Server " +:+ pod +:+ " resources cleaned up (paused).");
              ("pod_name", pod)]) \/
   ((done < 4)%nat /\
    exists s, injected (nth done (script w) quiet) = Some s /\
              fst result = Raised (ApiException s))).
Proof.
  cbv zeta. unfold cleanup_ephemeral_resources. cbn [calm_run].
  destruct (injected (hd quiet (script w))) as [s1|] eqn:H1.
  { delete_next H1. split; [reflexivity|]. right. split; [lia|].
    exists s1. rewrite nth_0. split; [exact H1|reflexivity]. }
  delete_next H1.
  destruct (injected (hd quiet (tl (script w)))) as [s2|] eqn:H2.
  { delete_next H2. split; [reflexivity|]. right. split; [lia|].
    exists s2. rewrite nth_1. split; [exact H2|reflexivity]. }
  delete_next H2.
  destruct (injected (hd quiet (tl (tl (script w))))) as [s3|] eqn:H3.
  { delete_next H3. split; [reflexivity|]. right. split; [lia|].
    exists s3. rewrite nth_2. split; [exact H3|reflexivity]. }
  delete_next H3.
  destruct (injected (hd quiet (tl (tl (tl (script w)))))) as [s4|] eqn:H4.
  { delete_next H4. split; [reflexivity|]. right. split; [lia|].
    exists s4. rewrite nth_3. split; [exact H4|reflexivity]. }
  delete_next H4.
  split; [reflexivity|]. left. split; reflexivity.
Qed.

(** X6.  The full teardown deletes, in this order, the deployment, the
    service, the route, the per-server config object, the claim and
    the volume of the normalized names, and the first platform fault
    ends it: what was deleted before the fault stays deleted, the rest
    is left in place (a fault on an ephemeral resource leaves the claim
    and the volume untouched) and the fault is raised.  Without a fault
    all six are gone and [cleaned] is reported with the normalized
    names. *)
Theorem teardown_stops_at_first_fault pod pvc w :
  let s := _sanitize_name pod in
  let d := _sanitize_name pvc in
  let done := calm_run 6 (script w) in
  let result := run (cleanup_all_resources pod pvc) w in
  objects (snd result) = delete_all (take done (teardown_targets s d)) (objects w) /\
  ((done = 6%nat /\
    fst result = Returned [("status", "cleaned"); ("pod_name", s); ("pvc_name", d)]) \/
   ((done < 6)%nat /\
    exists status, injected (nth done (script w) quiet) = Some status /\
                   fst result = Raised (ApiException status))).
Proof.
  cbv zeta. unfold cleanup_all_resources, cleanup_ephemeral_resources.
  cbv zeta. cbn [calm_run].
  set (s := _sanitize_name pod). set (d := _sanitize_name pvc).
  rewrite run_bind.
  destruct (injected (hd quiet (script w))) as [s1|] eqn:H1.
  { delete_next H1. split; [reflexivity|]. right. split; [lia|].
    exists s1. rewrite nth_0. split; [exact H1|reflexivity]. }
  delete_next H1.
  destruct (injected (hd quiet (tl (script w)))) as [s2|] eqn:H2.
  { delete_next H2. split; [reflexivity|]. right. split; [lia|].
    exists s2. rewrite nth_1. split; [exact H2|reflexivity]. }
  delete_next H2.
  destruct (injected (hd quiet (tl (tl (script w))))) as [s3|] eqn:H3.
  { delete_next H3. split; [reflexivity|]. right. split; [lia|].
    exists s3. rewrite nth_2. split; [exact H3|reflexivity]. }
  delete_next H3.
  destruct (injected (hd quiet (tl (tl (tl (script w)))))) as [s4|] eqn:H4.
  { delete_next H4. split; [reflexivity|]. right. split; [lia|].
    exists s4. rewrite nth_3. split; [exact H4|reflexivity]. }
  delete_next H4. cbn [run]. cbv beta iota.
  unfold delete_persistent_data. cbv zeta. fold d.
  replace (_sanitize_name d) with d by (symmetry; apply sanitize_name_fixed).
  change (except_ApiException
            (bind (api (delete PersistentVolume ("pv-" +:+ d))) (fun _ => Ret tt))
            (fun status => if negb (status =? 404) then Raise (ApiException status)
                           else Ret tt))
    with (_delete_resource PersistentVolume ("pv-" +:+ d)).
  rewrite run_bind.
  destruct (injected (hd quiet (tl (tl (tl (tl (script w))))))) as [s5|] eqn:H5.
  { delete_next H5. split; [reflexivity|]. right. split; [lia|].
    exists s5. rewrite nth_4. split; [exact H5|reflexivity]. }
  delete_next H5.
  destruct (injected (hd quiet (tl (tl (tl (tl (tl (script w)))))))) as [s6|] eqn:H6.
  { match goal with
    | |- context [run (_delete_resource ?k ?n) ?w1] =>
        rewrite (run_delete_resource_fault k n w1 _ H6)
    end.
    cbn [objects clock script trace lock_held fst snd].
    split; [reflexivity|]. right. split; [lia|].
    exists s6. rewrite nth_5. split; [exact H6|reflexivity]. }
  match goal with
  | |- context [run (_delete_resource ?k ?n) ?w1] =>
      destruct (run_delete_resource k n w1 H6) as [r6 E6]; rewrite E6; clear E6
  end.
  cbn [objects clock script trace lock_held fst snd run].
  split; [reflexivity|]. left. split; reflexivity.
Qed.

(** X7.  The existence probe reads the claim once and changes no
    object.  Without a platform fault it answers whether the claim is
    there (not-found is the answer [False], not an error); a platform
    fault is raised with its status. *)
Theorem pvc_exists_reflects_store d w :
  let result := run (pvc_exists d) w in
  objects (snd result) = objects w /\
  fst result =
  match injected (hd quiet (script w)) with
  | Some s => Raised (ApiException s)
  | None => Returned (present (objects w) (PersistentVolumeClaim, d))
  end.
Proof.
  cbv zeta. unfold pvc_exists, except_ApiException, present.
  rewrite run_try_except, run_bind, run_api.
  destruct (injected (hd quiet (script w))) as [s|] eqn:H.
  - rewrite (respond_remote_fault _ _ _ H) by exact I. cbn [run].
    apply injected_not_404 in H.
    destruct (s =? 404) eqn:E; [apply Z.eqb_eq in E; contradiction|].
    split; reflexivity.
  - rewrite (respond_remote_calm _ _ H) by exact I. cbn [serve].
    destruct (objects w !! (PersistentVolumeClaim, d)); split; reflexivity.
Qed.

(** X8.  Creating the volume of a storage identity leaves an existing
    volume of that name as it is, whatever capacity is asked for; when
    there is none, the volume is created with the capacity asked for,
    on the configured server, at the directory of the identity under
    the base path.  No other object changes. *)
Theorem create_persistent_volume_keeps_existing cfg d cap w :
  calm 2 (script w) ->
  let result := run (create_persistent_volume cfg d cap) w in
  fst result = Returned tt /\
  objects (snd result) =
  match objects w !! (PersistentVolume, "pv-" +:+ d) with
  | Some _ => objects w
  | None =>
      <[(PersistentVolume, "pv-" +:+ d) :=
          PersistentVolumeBody cap (NFS_SERVER cfg) (NFS_BASE_PATH cfg +:+ "/" +:+ d)]>
        (objects w)
  end.
Proof.
  cbn [calm]. intros (H1 & H2 & _). cbv zeta.
  unfold create_persistent_volume, except_ApiException.
  rewrite run_bind, run_try_except, run_bind, run_api.
  rewrite (respond_remote_calm _ _ H1) by exact I. cbn [serve].
  destruct (objects w !! (PersistentVolume, "pv-" +:+ d)) eqn:E.
  - cbn. split; reflexivity.
  - cbn [fst snd run]. cbn [Z.eqb Pos.eqb negb].
    cbn [run]. rewrite run_bind, run_api.
    match goal with |- context [respond ?c ?w1] =>
      rewrite (respond_remote_calm c w1 H2) by exact I end.
    cbn [serve objects]. rewrite E. split; reflexivity.
Qed.

Lemma create_persistent_volume_keeps_existing_witness :
  let w := world {[ (PersistentVolume, "pv-data") := PersistentVolumeBody "1Gi" "host" "/srv/data" ]} [] in
  calm 2 (script w) /\
  fst (run (create_persistent_volume Scenario.cfg "data" "10Gi") w) = Returned tt /\
  objects (snd (run (create_persistent_volume Scenario.cfg "data" "10Gi") w)) = objects w /\
  objects (snd (run (create_persistent_volume Scenario.cfg "other" "10Gi") w))
    !! (PersistentVolume, "pv-other")
  = Some (PersistentVolumeBody "10Gi" "100.75.219.111" "/mnt/nfs-minecraft/other").
Proof.
  cbv zeta.
  assert (C : calm 2 (script (world {[ (PersistentVolume, "pv-data") :=
               PersistentVolumeBody "1Gi" "host" "/srv/data" ]} []))).
  { cbn. auto. }
  split; [exact C|].
  pose proof (create_persistent_volume_keeps_existing Scenario.cfg "data" "10Gi" _ C) as [H1 H2].
  pose proof (create_persistent_volume_keeps_existing Scenario.cfg "other" "10Gi" _ C) as [_ H3].
  split; [exact H1|]. split.
  - rewrite H2. reflexivity.
  - rewrite H3. reflexivity.
Defined.

Lemma get_app key (d1 d2 : dict) :
  get key (d1 ++ d2)%list =
  match get key d1 with Some v => Some v | None => get key d2 end.
Proof.
  induction d1 as [|[k v] d1 IH]; [reflexivity|].
  cbn [get app]. destruct (String.eqb k key); [reflexivity|exact IH].
Qed.

Lemma get_filter_other key (f : string * string -> bool) (d : dict) :
  (forall v, f (key, v) = true) ->
  get key (List.filter f d) = get key d.
Proof.
  intros Hf. induction d as [|[k v] d IH]; [reflexivity|].
  cbn [List.filter get]. destruct (String.eqb k key) eqn:E.
  - apply String.eqb_eq in E. subst k. rewrite Hf. cbn [get].
    rewrite String.eqb_refl. reflexivity.
  - destruct (f (k, v)); [cbn [get]; rewrite E|]; exact IH.
Qed.

Lemma run_shared_config_calm cfg w :
  let key := (ConfigMap, "paper-global-config") in
  calm 2 (script w) ->
  (forall b, objects w !! key = Some b -> exists old, b = ConfigMapBody old) ->
  exists w' data,
    run (create_or_update_paper_configmap cfg) w = (Returned tt, w') /\
    objects w' = <[key := ConfigMapBody data]> (objects w) /\
    script w' = drop 2 (script w) /\
    get "paper-global.yml" data = Some (paper_global_yml cfg) /\
    (forall entry, entry <> "paper-global.yml" ->
       get entry data =
       match objects w !! key with
       | Some (ConfigMapBody old) => get entry old
       | _ => None
       end).
Proof.
  cbv zeta. cbn [calm]. intros (H1 & H2 & _) Hkind.
  assert (Hd : forall l : list Tick, tl (tl l) = drop 2 l)
    by (intros [|? [|? ?]]; reflexivity).
  unfold create_or_update_paper_configmap, except_ApiException.
  rewrite run_try_except, run_bind, run_api.
  rewrite (respond_remote_calm _ _ H1) by exact I. cbn [serve].
  destruct (objects w !! (ConfigMap, "paper-global-config")) as [b|] eqn:E.
  - destruct (Hkind b eq_refl) as [old ->].
    cbn [fst snd]. rewrite run_bind, run_api.
    match goal with |- context [respond ?c ?w1] =>
      rewrite (respond_remote_calm c w1 H2) by exact I end.
    cbn [serve objects]. rewrite E. cbn [fst snd run].
    eexists _, _. split; [reflexivity|]. split; [reflexivity|].
    split; [apply Hd|].
    unfold merge_data. split.
    + rewrite get_app. cbn [get]. rewrite String.eqb_refl. reflexivity.
    + intros entry Hentry. rewrite get_app. cbn [get].
      destruct (String.eqb "paper-global.yml" entry) eqn:Ee.
      { apply String.eqb_eq in Ee. congruence. }
      apply get_filter_other. intros v. cbn [existsb fst].
      rewrite Ee. reflexivity.
  - cbn [fst snd run]. cbn [Z.eqb Pos.eqb]. rewrite run_bind, run_api.
    match goal with |- context [respond ?c ?w1] =>
      rewrite (respond_remote_calm c w1 H2) by exact I end.
    cbn [serve objects]. rewrite E. cbn [fst snd run].
    eexists _, _. split; [reflexivity|]. split; [reflexivity|].
    split; [apply Hd|]. split.
    + cbn [get]. rewrite String.eqb_refl. reflexivity.
    + intros entry Hentry. cbn [get].
      destruct (String.eqb "paper-global.yml" entry) eqn:Ee; [|reflexivity].
      apply String.eqb_eq in Ee. congruence.
Qed.

(** X9.  Without a platform fault the shared config object exists after
    the upsert and its entry [paper-global.yml] is the proxy
    configuration with the configured secret, whether the object was
    there before (it is patched, under the platform model's merge of
    patched data, and its other entries are kept) or not (it is created
    with this one entry).  No other object changes. *)
Theorem shared_config_holds_secret cfg w :
  let key := (ConfigMap, "paper-global-config") in
  calm 2 (script w) ->
  (forall b, objects w !! key = Some b -> exists old, b = ConfigMapBody old) ->
  exists w' data,
    run (create_or_update_paper_configmap cfg) w = (Returned tt, w') /\
    objects w' = <[key := ConfigMapBody data]> (objects w) /\
    get "paper-global.yml" data = Some (paper_global_yml cfg) /\
    (forall entry, entry <> "paper-global.yml" ->
       get entry data =
       match objects w !! key with
       | Some (ConfigMapBody old) => get entry old
       | _ => None
       end).
Proof.
  cbv zeta. intros Hc Hk.
  destruct (run_shared_config_calm cfg w Hc Hk) as (w' & data & H1 & H2 & _ & H3 & H4).
  exists w', data. auto.
Qed.

Lemma shared_config_holds_secret_witness :
  let w := world {[ (ConfigMap, "paper-global-config") :=
                      ConfigMapBody [("paper-global.yml", "old"); ("extra.yml", "kept")] ]} [] in
  calm 2 (script w) /\
  exists w' data,
    run (create_or_update_paper_configmap Scenario.cfg) w = (Returned tt, w') /\
    objects w' = <[(ConfigMap, "paper-global-config") := ConfigMapBody data]> (objects w) /\
    get "paper-global.yml" data = Some (paper_global_yml Scenario.cfg) /\
    get "extra.yml" data = Some "kept".
Proof.
  cbv zeta. split; [cbn; auto|].
  destruct (shared_config_holds_secret Scenario.cfg
              (world {[ (ConfigMap, "paper-global-config") :=
                 ConfigMapBody [("paper-global.yml", "old"); ("extra.yml", "kept")] ]} []))
    as (w' & data & H1 & H2 & H3 & H4).
  - cbn. auto.
  - intros b Hb. vm_compute in Hb. injection Hb as <-. eexists. reflexivity.
  - exists w', data. split; [exact H1|]. split; [exact H2|]. split; [exact H3|].
    rewrite H4 by discriminate. reflexivity.
Defined.

(** X10.  Deleting the data of a storage identity deletes the claim and
    the volume of the normalized name and reports
    [persistent_data_deleted] under the name as it was given; without
    a platform fault it does so whether or not the claim or the volume
    existed. *)
Theorem delete_server_data_reports_deleted pvc w :
  calm 2 (script w) ->
  let result := run (MinecraftServerManager.delete_server_data pvc) w in
  fst result = Returned [("status", "persistent_data_deleted"); ("pvc_name", pvc)] /\
  objects (snd result) = delete_all (storage_keys (_sanitize_name pvc)) (objects w).
Proof.
  intros H. cbv zeta. unfold MinecraftServerManager.delete_server_data.
  destruct (run_delete_persistent_data_calm pvc w H) as (w' & E & Ho).
  rewrite run_bind, E. cbn [run fst snd]. split; [reflexivity|exact Ho].
Qed.

Lemma delete_server_data_reports_deleted_witness :
  let w := world Scenario.claim_alpha [] in
  let result := run (MinecraftServerManager.delete_server_data "Alpha_Data") w in
  calm 2 (script w) /\
  fst result = Returned [("status", "persistent_data_deleted"); ("pvc_name", "Alpha_Data")] /\
  objects (snd result) = delete_all (storage_keys "alphadata") (objects w) /\
  objects (snd result) = objects w.
Proof.
  cbv zeta.
  assert (C : calm 2 (script (world Scenario.claim_alpha []))) by (cbn; auto).
  destruct (delete_server_data_reports_deleted "Alpha_Data" _ C) as [H1 H2].
  split; [exact C|]. split; [exact H1|]. split; [exact H2|].
  rewrite H2. vm_compute. reflexivity.
Defined.

Lemma append_inj_r (s1 s2 t : string) : s1 +:+ t = s2 +:+ t -> s1 = s2.
Proof.
  intros H. apply string_eq_list.
  apply (f_equal list_ascii_of_string) in H.
  rewrite !list_ascii_of_string_app in H.
  exact (app_inv_tail _ _ _ H).
Qed.

Lemma append_inj_l (t s1 s2 : string) : t +:+ s1 = t +:+ s2 -> s1 = s2.
Proof.
  induction t as [|c t IH]; [auto|].
  cbn. intros [= H]. auto.
Qed.

Lemma ephemeral_keys_disjoint s1 s2 key :
  s1 <> s2 -> In key (ephemeral_keys s1) -> ~ In key (ephemeral_keys s2).
Proof.
  unfold ephemeral_keys, Naming.network_endpoint, Naming.route,
    Naming.per_server_config.
  intros Hne [<-|[<-|[<-|[<-|[]]]]] [H|[H|[H|[H|[]]]]];
    try discriminate H; injection H as H; apply Hne; symmetry.
  - exact H.
  - exact (append_inj_r _ _ _ H).
  - apply append_inj_l in H. exact (append_inj_r _ _ _ H).
  - exact (append_inj_l _ _ _ H).
Qed.

(** X11.  The roll-back of a failed creation addresses the ephemeral
    resources by the name as the caller gave it, while provisioning
    creates them under the normalized name: for a name that
    normalization changes, the roll-back leaves every ephemeral resource
    of the server's identity as the failed provisioning left it. *)
Theorem rollback_uses_name_as_given cfg pod pvc key ml mr cl cr sc w e w1 name :
  _sanitize_name pod <> pod ->
  run (create_minecraft_resources cfg pod pvc key ml mr cl cr sc) w = (Raised e, w1) ->
  In name (ephemeral_keys (_sanitize_name pod)) ->
  objects (snd (run (MinecraftServerManager.create_server
                       cfg pod pvc key ml mr cl cr sc) w)) !! name
  = objects w1 !! name.
Proof.
  intros Hne Hrun Hin. unfold MinecraftServerManager.create_server.
  rewrite run_try_except, Hrun. rewrite run_then_raise.
  apply cleanup_frame. eapply ephemeral_keys_disjoint; eauto.
Qed.

Lemma rollback_uses_name_as_given_witness :
  let w := world Scenario.claim_alpha (repeat quiet 9 ++ [faulty 500])%list in
  let w1 := snd (run (Scenario.provision "Alpha" "alpha-data") w) in
  let w2 := snd (run (Scenario.request "Alpha" "alpha-data") w) in
  _sanitize_name "Alpha" <> "Alpha" /\
  run (Scenario.provision "Alpha" "alpha-data") w = (Raised (ApiException 500), w1) /\
  In (Deployment, "alpha") (ephemeral_keys (_sanitize_name "Alpha")) /\
  objects w2 !! (Deployment, "alpha") = objects w1 !! (Deployment, "alpha") /\
  is_Some (objects w2 !! (Deployment, "alpha")).
Proof.
  cbv zeta.
  assert (H1 : _sanitize_name "Alpha" <> "Alpha") by (vm_compute; discriminate).
  assert (H2 : run (Scenario.provision "Alpha" "alpha-data")
                 (world Scenario.claim_alpha (repeat quiet 9 ++ [faulty 500])%list)
               = (Raised (ApiException 500),
                  snd (run (Scenario.provision "Alpha" "alpha-data")
                         (world Scenario.claim_alpha
                            (repeat quiet 9 ++ [faulty 500])%list))))
    by (vm_compute; reflexivity).
  assert (H3 : In (Deployment, "alpha") (ephemeral_keys (_sanitize_name "Alpha")))
    by (vm_compute; auto).
  pose proof (rollback_uses_name_as_given Scenario.cfg "Alpha" "alpha-data"
                "key" "4Gi" "2Gi" "2" "1" "10Gi" _ _ _ _ H1 H2 H3) as H4.
  split; [exact H1|]. split; [exact H2|]. split; [exact H3|]. split; [exact H4|].
  unfold Scenario.request. rewrite H4. vm_compute. eauto.
Defined.

End OperationProperties.

(** * Further properties: the endpoints *)

Module EndpointProperties.
Import Sanitize Platform Program K8sManager Observe Notions.
Import SanitizeFacts PlatformFacts ProgramFacts FootprintFacts CompositeFacts
       FrameFacts RunFacts WaitFacts SuccessFacts.
Local Open Scope prog_scope.

(** The attribute look-up and the binding of the keyword arguments of
    an endpoint's call, computed. *)
Ltac resolve_method :=
  rewrite run_try_except;
  unfold MinecraftServerManager.getattr;
  cbn [MinecraftServerManager.lookup_attr MinecraftServerManager.attributes
       String.eqb Ascii.eqb Bool.eqb bind];
  unfold MinecraftServerManager.call;
  cbn [List.find existsb fst negb orb String.eqb Ascii.eqb Bool.eqb map
       MinecraftServerManager.keyword default];
  cbn [MinecraftServerManager.arg nth id];
  rewrite run_bind.

Lemma run_try_reraise {A} (m : Prog A) w :
  run (try_except m (fun e => Raise e)) w = run m w.
Proof.
  rewrite run_try_except. destruct (run m w) as [[a|e|] w']; reflexivity.
Qed.

Lemma run_create_server_endpoint cfg request w :
  run (Main.create_server cfg request) w =
  as_response MinecraftServerManager.VDict
    (run (MinecraftServerManager.create_server cfg
            (Main.CreateServerRequest.pod_name request)
            (Main.CreateServerRequest.pvc_name request)
            (Main.CreateServerRequest.servertap_key request)
            (Main.CreateServerRequest.memory_limit request)
            (Main.CreateServerRequest.memory_request request)
            (Main.CreateServerRequest.cpu_limit request)
            (Main.CreateServerRequest.cpu_request request)
            (Main.CreateServerRequest.storage_capacity request)) w).
Proof.
  unfold Main.create_server, Main._create_server_sync. resolve_method.
  match goal with |- context [run ?m w] => destruct (run m w) as [[d|e|] w'] end;
    reflexivity.
Qed.

Lemma run_delete_server_endpoint cfg pod_name pvc_name w :
  run (Main.delete_server cfg pod_name pvc_name) w =
  as_response MinecraftServerManager.VDict
    (run (cleanup_all_resources pod_name pvc_name) w).
Proof.
  unfold Main.delete_server, Main._delete_server_sync. resolve_method.
  unfold MinecraftServerManager.delete_server. rewrite run_try_reraise.
  match goal with |- context [run ?m w] => destruct (run m w) as [[d|e|] w'] end;
    reflexivity.
Qed.

Lemma run_list_volumes_endpoint cfg w :
  run (Main.list_volumes cfg) w =
  as_response MinecraftServerManager.VList
    (run (list_persistent_volume_claims "type=minecraft-storage") w).
Proof.
  unfold Main.list_volumes, Main._list_volumes_sync. resolve_method.
  unfold MinecraftServerManager.list_all_servers_data.
  match goal with |- context [run ?m w] => destruct (run m w) as [[d|e|] w'] end;
    reflexivity.
Qed.

Lemma run_delete_volume_endpoint cfg pvc_name w :
  run (Main.delete_volume cfg pvc_name) w =
  as_response MinecraftServerManager.VDict
    (run (MinecraftServerManager.delete_server_data pvc_name) w).
Proof.
  unfold Main.delete_volume, Main._delete_volume_sync. resolve_method.
  match goal with |- context [run ?m w] => destruct (run m w) as [[d|e|] w'] end;
    reflexivity.
Qed.

(** ** Every method ends *)

Lemma finishes_Ret {A} (a : A) : finishes (Ret a).
Proof. intros w. discriminate. Qed.

Lemma finishes_Raise {A} e : finishes (Raise e : Prog A).
Proof. intros w. discriminate. Qed.

Lemma finishes_api c : finishes (api c).
Proof. intros w. rewrite run_api. destruct (respond c w) as [[s|v] w']; discriminate. Qed.

Lemma finishes_bind {A B} (m : Prog A) (f : A -> Prog B) :
  finishes m -> (forall a, finishes (f a)) -> finishes (bind m f).
Proof.
  intros Hm Hf w. rewrite run_bind. specialize (Hm w).
  destruct (run m w) as [[a|e|] w']; cbn [fst] in *;
    [apply Hf|discriminate|congruence].
Qed.

Lemma finishes_try_except {A} (m : Prog A) h :
  finishes m -> (forall e, finishes (h e)) -> finishes (try_except m h).
Proof.
  intros Hm Hh w. rewrite run_try_except. specialize (Hm w).
  destruct (run m w) as [[a|e|] w']; cbn [fst] in *;
    [discriminate|apply Hh|congruence].
Qed.

Lemma finishes_except_ApiException {A} (m : Prog A) h :
  finishes m -> (forall s, finishes (h s)) -> finishes (except_ApiException m h).
Proof.
  intros Hm Hh. apply finishes_try_except; [exact Hm|].
  intros [s|?|?|?|?]; try apply finishes_Raise. apply Hh.
Qed.

Lemma finishes_wait_for_pvc_bound d : finishes (_wait_for_pvc_bound d 60).
Proof.
  intros w. pose proof (poll_budget_enough 60) as Hb.
  assert (Hpos : (0 < poll_budget 60)%nat) by (unfold poll_budget; lia).
  unfold _wait_for_pvc_bound. rewrite run_bind, run_time.
  match goal with |- context [run _ ?x] =>
    destruct (pvc_loop_shape (poll_budget 60) d (clock w) 60 x Hpos)
      as (tr & _ & Hw) end.
  { cbn [clock]. lia. }
  eapply wait_shape_finishes, Hw.
Qed.

Lemma finishes_wait_for_job_completion job : finishes (_wait_for_job_completion job 60).
Proof.
  intros w. pose proof (poll_budget_enough 60) as Hb.
  assert (Hpos : (0 < poll_budget 60)%nat) by (unfold poll_budget; lia).
  unfold _wait_for_job_completion. rewrite run_bind, run_time.
  match goal with |- context [run _ ?x] =>
    destruct (job_loop_shape (poll_budget 60) job (clock w) 60 x Hpos)
      as [_ Hfin] end.
  { cbn [clock]. lia. }
  exact Hfin.
Qed.

Ltac finish_step :=
  lazymatch goal with
  | |- finishes (bind _ _) => apply finishes_bind; [|intros ?]
  | |- finishes (except_ApiException _ _) =>
      apply finishes_except_ApiException; [|intros ?]
  | |- finishes (try_except _ _) => apply finishes_try_except; [|intros ?]
  | |- finishes (api _) => apply finishes_api
  | |- finishes (Ret _) => apply finishes_Ret
  | |- finishes (Raise _) => apply finishes_Raise
  | |- finishes (_wait_for_pvc_bound _ 60) => apply finishes_wait_for_pvc_bound
  | |- finishes (_wait_for_job_completion _ 60) =>
      apply finishes_wait_for_job_completion
  | |- finishes (if ?b then _ else _) => destruct b
  end.

Lemma finishes_delete_resource k n : finishes (_delete_resource k n).
Proof. unfold _delete_resource. repeat finish_step. Qed.

Lemma finishes_cleanup_ephemeral_resources pod :
  finishes (cleanup_ephemeral_resources pod).
Proof.
  unfold cleanup_ephemeral_resources.
  repeat (apply finishes_bind; [apply finishes_delete_resource|intros ?]).
  apply finishes_Ret.
Qed.

Lemma finishes_delete_persistent_data pvc : finishes (delete_persistent_data pvc).
Proof.
  unfold delete_persistent_data.
  apply finishes_bind; [apply finishes_delete_resource|intros ?].
  repeat finish_step.
Qed.

Lemma finishes_cleanup_all_resources pod pvc : finishes (cleanup_all_resources pod pvc).
Proof.
  unfold cleanup_all_resources.
  apply finishes_bind; [apply finishes_cleanup_ephemeral_resources|intros ?].
  apply finishes_bind; [apply finishes_delete_persistent_data|intros ?].
  apply finishes_Ret.
Qed.

Lemma finishes_create_minecraft_resources cfg pod pvc key ml mr cl cr sc :
  finishes (create_minecraft_resources cfg pod pvc key ml mr cl cr sc).
Proof.
  unfold create_minecraft_resources.
  apply finishes_bind; [apply finishes_cleanup_ephemeral_resources|intros ?].
  apply finishes_bind;
    [unfold create_or_update_paper_configmap; repeat finish_step|intros ?].
  apply finishes_bind;
    [unfold create_servertap_configmap; repeat finish_step|intros ?].
  apply finishes_bind; [unfold pvc_exists; repeat finish_step|intros present].
  apply finishes_bind.
  { destruct (negb present); [|apply finishes_Ret].
    apply finishes_bind; [|intros ?].
    { unfold create_nfs_directory_job, sleep. repeat finish_step. }
    apply finishes_bind; [|intros ?].
    { unfold create_persistent_volume. repeat finish_step. }
    unfold create_persistent_volume_claim. repeat finish_step. }
  intros ?.
  unfold create_deployment, create_service, create_ingress.
  repeat finish_step.
Qed.

Lemma finishes_create_server cfg pod pvc key ml mr cl cr sc :
  finishes (MinecraftServerManager.create_server cfg pod pvc key ml mr cl cr sc).
Proof.
  unfold MinecraftServerManager.create_server.
  apply finishes_try_except; [apply finishes_create_minecraft_resources|intros e].
  apply finishes_bind; [apply finishes_cleanup_ephemeral_resources|intros ?].
  apply finishes_Raise.
Qed.

Lemma as_response_answered {A} (wrap : A -> MinecraftServerManager.Value) m w :
  finishes m -> answered (fst (as_response wrap (run m w))).
Proof.
  intros Hm. specialize (Hm w).
  destruct (run m w) as [[a|e|] w']; cbn in *; eauto.
Qed.

Lemma endpoint_answered cfg r w :
  match r with
  | Main.POST_k8s_server _ request => answered (fst (run (Main.create_server cfg request) w))
  | Main.DELETE_k8s_server _ pod pvc => answered (fst (run (Main.delete_server cfg pod pvc) w))
  | Main.POST_k8s_server_pause _ pod => answered (fst (run (Main.pause_server cfg pod) w))
  | Main.GET_k8s_volumes _ => answered (fst (run (Main.list_volumes cfg) w))
  | Main.DELETE_k8s_volume _ pvc => answered (fst (run (Main.delete_volume cfg pvc) w))
  | _ => True
  end.
Proof.
  destruct r; try exact I.
  - rewrite run_create_server_endpoint. apply as_response_answered,
      finishes_create_server.
  - rewrite run_delete_server_endpoint. apply as_response_answered,
      finishes_cleanup_all_resources.
  - cbn. eauto.
  - rewrite run_list_volumes_endpoint. apply as_response_answered.
    unfold list_persistent_volume_claims. repeat finish_step.
  - rewrite run_delete_volume_endpoint. apply as_response_answered.
    unfold MinecraftServerManager.delete_server_data.
    apply finishes_bind; [apply finishes_delete_persistent_data|intros ?].
    apply finishes_Ret.
Qed.

Lemma run_check_connection w :
  run check_connection w =
  (Returned (match injected (hd quiet (script w)) with
             | None => [("status", "healthy"); ("kubernetes", "connected")]
             | Some s => [("status", "unhealthy");
                          ("kubernetes", "error: " +:+ str (ApiException s))]
             end),
   snd (respond (list_namespaced_pod "") w)).
Proof.
  unfold check_connection. rewrite run_try_except, run_bind, run_api.
  destruct (injected (hd quiet (script w))) as [s|] eqn:H.
  - rewrite (respond_remote_fault _ _ _ H) by exact I. reflexivity.
  - rewrite (respond_remote_calm _ _ H) by exact I. reflexivity.
Qed.

Lemma run_health_check w :
  run Main.health_check w =
  (Returned (match injected (hd quiet (script w)) with
             | None => Main.HealthResponse.mk "healthy" (Some "connected")
             | Some s => Main.HealthResponse.mk "unhealthy"
                           (Some ("error: " +:+ str (ApiException s)))
             end),
   snd (respond (list_namespaced_pod "") w)).
Proof.
  unfold Main.health_check, Main._health_check_sync.
  rewrite run_bind, run_check_connection.
  destruct (injected (hd quiet (script w))); reflexivity.
Qed.

Lemma depends_answered KEY key (endpoint : Prog MinecraftServerManager.Value) w :
  answered (fst (run endpoint w)) ->
  answered (fst (run (Main.depends KEY key endpoint) w)).
Proof.
  intros He. unfold Main.depends, Auth.verify_api_key.
  destruct (String.eqb key KEY); cbn [negb bind].
  - rewrite run_bind. destruct (run endpoint w) as [[v|e|] w']; cbn in *; auto.
  - cbn. eauto.
Qed.

Lemma text_of_str e : text_of e (str e).
Proof.
  destruct e as [s| | | |]; cbn [text_of]; try reflexivity.
  exists "". reflexivity.
Qed.

Lemma as_response_answers_for {A} (wrap : A -> MinecraftServerManager.Value) result :
  answers_for wrap result (as_response wrap result).
Proof.
  destruct result as [[a|e|] w]; split; cbn; try reflexivity.
  exists (str e). split; [reflexivity|apply text_of_str].
Qed.

(** ** The properties *)

(** X12.  The creation endpoint answers for the facade's
    [create_server], run with the eight fields of the request, each
    under the parameter of its name: it returns what the facade
    returns, turns whatever the facade raises into an HTTP 500 error
    whose detail is the text of the exception, and does nothing else to
    the platform. *)
Theorem create_server_endpoint_runs_facade cfg request w :
  answers_for MinecraftServerManager.VDict
    (run (MinecraftServerManager.create_server cfg
            (Main.CreateServerRequest.pod_name request)
            (Main.CreateServerRequest.pvc_name request)
            (Main.CreateServerRequest.servertap_key request)
            (Main.CreateServerRequest.memory_limit request)
            (Main.CreateServerRequest.memory_request request)
            (Main.CreateServerRequest.cpu_limit request)
            (Main.CreateServerRequest.cpu_request request)
            (Main.CreateServerRequest.storage_capacity request)) w)
    (run (Main.create_server cfg request) w).
Proof. rewrite run_create_server_endpoint. apply as_response_answers_for. Qed.

(** X13.  The teardown, listing and data-deletion endpoints answer for
    the manager's full teardown, the listing of the claims labelled
    [type=minecraft-storage], and the facade's data deletion, run with
    the path parameters as given: each returns the method's result,
    turns whatever it raises into an HTTP 500 error with the text of the
    exception, and does nothing else to the platform. *)
Theorem teardown_endpoints_run_facade cfg pod_name pvc_name w :
  answers_for MinecraftServerManager.VDict
    (run (cleanup_all_resources pod_name pvc_name) w)
    (run (Main.delete_server cfg pod_name pvc_name) w) /\
  answers_for MinecraftServerManager.VList
    (run (list_persistent_volume_claims "type=minecraft-storage") w)
    (run (Main.list_volumes cfg) w) /\
  answers_for MinecraftServerManager.VDict
    (run (MinecraftServerManager.delete_server_data pvc_name) w)
    (run (Main.delete_volume cfg pvc_name) w).
Proof.
  rewrite run_delete_server_endpoint, run_list_volumes_endpoint,
    run_delete_volume_endpoint.
  repeat split; apply as_response_answers_for.
Qed.

(** X14.  A request to a route declared with the key check whose
    [X-API-Key] header differs from the configured key is refused with
    HTTP 403 before the endpoint runs: no call is made and nothing
    changes. *)
Theorem wrong_key_is_refused cfg INTERNAL_API_KEY r x_api_key w :
  x_api_key_of r = Some x_api_key ->
  x_api_key <> INTERNAL_API_KEY ->
  run (Main.app cfg INTERNAL_API_KEY r) w =
  (Raised (HTTPException 403 "Invalid API Key"), w).
Proof.
  intros Hr Hne.
  assert (E : String.eqb x_api_key INTERNAL_API_KEY = false)
    by (apply String.eqb_neq, Hne).
  destruct r; cbn [x_api_key_of] in Hr; try discriminate;
    injection Hr as ->;
    unfold Main.app, Main.depends, Auth.verify_api_key; rewrite E; reflexivity.
Qed.

Lemma wrong_key_is_refused_witness :
  let w := world Scenario.claim_alpha [] in
  let r := Main.DELETE_k8s_volume "guess" "alpha-data" in
  x_api_key_of r = Some "guess" /\ "guess" <> "s3cret-key" /\
  run (Main.app Scenario.cfg "s3cret-key" r) w =
  (Raised (HTTPException 403 "Invalid API Key"), w).
Proof.
  cbv zeta.
  assert (H1 : x_api_key_of (Main.DELETE_k8s_volume "guess" "alpha-data") = Some "guess")
    by reflexivity.
  assert (H2 : "guess" <> "s3cret-key") by discriminate.
  split; [exact H1|]. split; [exact H2|].
  exact (wrong_key_is_refused Scenario.cfg "s3cret-key" _ _
           (world Scenario.claim_alpha []) H1 H2).
Defined.

(** X15.  Every request that the framework hands to the application (one
    that carries the [X-API-Key] header on the routes declared with the
    key check and, for a creation, a body that fits the request model)
    is answered: the application returns a result or raises an HTTP
    error of status 403 or 500.  No exception of the platform client or
    of the manager reaches the caller as such, and every wait of the
    manager ends. *)
Theorem accepted_request_is_answered cfg INTERNAL_API_KEY r w :
  answered (fst (run (Main.app cfg INTERNAL_API_KEY r) w)).
Proof.
  pose proof (endpoint_answered cfg r w) as He.
  destruct r; cbn [Main.app]; try (apply depends_answered; exact He).
  - rewrite run_bind, run_health_check. exact I.
  - exact I.
Qed.

(** X16.  The connectivity probe and the health endpoint never raise
    and change no object: they list pods once and answer [healthy] /
    [connected] when the listing succeeds, and [unhealthy] with
    [error: ] followed by the text of the error when it fails.  The
    startup hook, which runs the health check, always completes. *)
Theorem health_check_always_answers w :
  let probe := run check_connection w in
  let health := run Main.health_check w in
  match injected (hd quiet (script w)) with
  | None =>
      fst probe = Returned [("status", "healthy"); ("kubernetes", "connected")] /\
      fst health = Returned (Main.HealthResponse.mk "healthy" (Some "connected"))
  | Some s =>
      exists text,
        text_of (ApiException s) text /\
        fst probe = Returned [("status", "unhealthy");
                              ("kubernetes", "error: " +:+ text)] /\
        fst health = Returned (Main.HealthResponse.mk "unhealthy"
                                 (Some ("error: " +:+ text)))
  end /\
  logged w (snd health) [(list_namespaced_pod "", fst (respond (list_namespaced_pod "") w))] /\
  objects (snd health) = objects w /\
  fst (run Main.startup_event w) = Returned tt.
Proof.
  cbv zeta. rewrite run_check_connection, run_health_check. cbn [fst snd].
  split; [|split; [apply respond_logged|split]].
  - destruct (injected (hd quiet (script w))) as [s|]; [|split; reflexivity].
    exists (str (ApiException s)). split; [apply text_of_str|]. split; reflexivity.
  - unfold respond. destruct (injected (hd quiet (script w))); reflexivity.
  - unfold Main.startup_event. rewrite run_try_except, run_bind, run_health_check.
    reflexivity.
Qed.

End EndpointProperties.

(** * Further properties: the waits *)

Module WaitProperties.
Import Sanitize Platform Program K8sManager Observe Notions.
Import SanitizeFacts PlatformFacts ProgramFacts FootprintFacts CompositeFacts
       FrameFacts RunFacts WaitFacts SuccessFacts OperationProperties.
Local Open Scope prog_scope.

Lemma drop_3 (l : list Tick) : drop 3 l = tl (tl (tl l)).
Proof. destruct l as [|? [|? [|? ?]]]; reflexivity. Qed.

(** ** The properties *)

(** X18.  When a poll reads the task as failed, the task has a pod, and
    the log of that pod is not found, the not-found answer is taken for
    that of the task read: no task failure is raised, and the wait goes
    on as after a poll that found the task still running, with a sleep
    of two seconds and the next clock test. *)
Theorem missing_log_masks_task_failure b job start w body p ps :
  let polled := nth 0 (script w) quiet in
  let listed := nth 1 (script w) quiet in
  let logs := nth 2 (script w) quiet in
  clock w - start < 1000 * 60 ->
  objects w !! (Job, job) = Some body ->
  injected polled = None ->
  has_succeeded (status polled) = false ->
  has_failed (status polled) = true ->
  injected listed = None -> pods listed = p :: ps ->
  injected logs = None -> pod_log logs = None ->
  run (_wait_for_job_completion_loop (S b) job start 60) w =
  run (sleep 2 ;; _wait_for_job_completion_loop b job start 60)
      (after_three w
         [(time_time, inr (RTime (clock w)));
          (read Job job, inr (RObject body (status polled)));
          (list_namespaced_pod ("job-name=" +:+ job), inr (RItems (p :: ps)));
          (read_namespaced_pod_log p, inl 404)]).
Proof.
  cbv zeta. rewrite nth_0, nth_1, nth_2.
  intros Hlate Hjob Hi0 Hs Hf Hi1 Hpods Hi2 Hlog.
  rewrite (job_failed_poll b job start 60 w body Hlate Hjob Hi0 Hs Hf).
  unfold fetch_logs. rewrite run_bind, run_try_except, run_bind, run_api.
  match goal with |- context [respond ?c ?w1] =>
    rewrite (respond_remote_calm c w1 Hi1) by exact I end.
  cbn [serve fst snd objects clock script trace lock_held].
  rewrite run_bind. cbn [reply_items]. rewrite Hpods.
  rewrite run_bind, run_api.
  match goal with |- context [respond ?c ?w1] =>
    rewrite (respond_remote_calm c w1 Hi2) by exact I end.
  cbn [serve fst snd objects clock script trace lock_held]. rewrite Hlog.
  cbn [fst snd run swallow_404 Z.eqb Pos.eqb negb task_poll_next].
  unfold after_three. rewrite nth_0, nth_1, nth_2, drop_3, <- !app_assoc.
  reflexivity.
Qed.

Lemma missing_log_masks_task_failure_witness :
  let job := "create-nfs-dir-alpha-data" in
  let w := world Scenario.task_alpha
             [Scenario.task_failed; Scenario.pods_listed ["pod-1"]; quiet] in
  fst (run (_wait_for_job_completion_loop 1 job 0 60) w) = Unfinished /\
  trace (snd (run (_wait_for_job_completion_loop 1 job 0 60) w)) =
  [(time_time, inr (RTime 0));
   (read Job job, inr (RObject (JobBody "/mnt/nfs-minecraft/alpha-data")
                               (status Scenario.task_failed)));
   (list_namespaced_pod ("job-name=" +:+ job), inr (RItems ["pod-1"]));
   (read_namespaced_pod_log "pod-1", inl 404);
   (time_sleep 2, inr RNone)].
Proof.
  cbv zeta.
  rewrite (missing_log_masks_task_failure 0 "create-nfs-dir-alpha-data" 0
             (world Scenario.task_alpha
                [Scenario.task_failed; Scenario.pods_listed ["pod-1"]; quiet])
             (JobBody "/mnt/nfs-minecraft/alpha-data") "pod-1" []);
    try reflexivity.
  split; reflexivity.
Defined.

End WaitProperties.

(** * Further properties: provisioning *)

Module ProvisioningProperties.
Import Sanitize Platform Program K8sManager Observe Notions.
Import SanitizeFacts PlatformFacts ProgramFacts FootprintFacts CompositeFacts
       FrameFacts RunFacts WaitFacts SuccessFacts OperationProperties.
Local Open Scope prog_scope.

Lemma only_leaves {A} key (Q : A -> Prop) m w b :
  only (leaves key) Q m ->
  objects w !! key = Some b -> objects (snd (run m w)) !! key = Some b.
Proof.
  intros Hm.
  destruct (only_keeps (leaves key)
              (fun a c => objects a !! key = Some b -> objects c !! key = Some b)
              Q m w) as (_ & H & _); auto.
  intros c a Hc Hin. eapply effect_keeps_body; [apply respond_effect| | |exact Hin].
  - intros k n ->. exact Hc.
  - intros n d ->. exact Hc.
Qed.

Lemma run_create_body k n b w a w' :
  run (bind (api (create k n b)) (fun _ => Ret tt)) w = (Returned a, w') ->
  objects w' !! (k, n) = Some b.
Proof.
  intros H. apply run_bind_returned in H as (v & w1 & H1 & H2).
  injection H2 as _ <-. eapply run_api_create, H1.
Qed.

Lemma respond_patch_ok n d w v w' :
  respond (patch_config_map n d) w = (inr v, w') ->
  is_Some (objects w' !! (ConfigMap, n)).
Proof.
  unfold respond. destruct (injected (hd quiet (script w))); [discriminate|].
  cbn [serve]. destruct (objects w !! (ConfigMap, n)) as [[]|]; try discriminate.
  intros [= _ <-]. cbn [objects]. rewrite lookup_insert_eq. eauto.
Qed.

Lemma run_shared_config_returned cfg w a w' :
  run (create_or_update_paper_configmap cfg) w = (Returned a, w') ->
  is_Some (objects w' !! (ConfigMap, "paper-global-config")).
Proof.
  unfold create_or_update_paper_configmap, except_ApiException.
  rewrite run_try_except, run_bind, run_api.
  destruct (respond (read ConfigMap "paper-global-config") w) as [[s|v] w1].
  - cbn [run]. destruct (s =? 404); [|discriminate].
    intros H. eapply mk_is_Some, run_create_body, H.
  - rewrite run_bind, run_api.
    destruct (respond (patch_config_map "paper-global-config" _) w1)
      as [[s|v'] w2] eqn:Ep.
    + cbn [run]. destruct (s =? 404); [|discriminate].
      intros H. eapply mk_is_Some, run_create_body, H.
    + cbn [run]. intros [= _ <-]. eapply respond_patch_ok, Ep.
Qed.

Lemma storage_step_leaves cfg key d sc (present : bool) :
  fst key <> Job -> fst key <> PersistentVolume -> fst key <> PersistentVolumeClaim ->
  only (leaves key) any
    (if negb present
     then create_nfs_directory_job cfg d ;;
          create_persistent_volume cfg d sc ;;
          create_persistent_volume_claim d sc
     else Ret tt).
Proof.
  intros H1 H2 H3.
  destruct (negb present); [|apply only_Ret; exact I].
  apply only_then; [apply only_create_nfs_directory_job; simpl; auto|intros _].
  - intros <-. apply H1. reflexivity.
  - apply only_then; [apply only_create_persistent_volume; simpl; auto|intros _].
    apply only_create_persistent_volume_claim; simpl; auto.
Qed.

Lemma provisioned cfg pod pvc key ml mr cl cr sc w r w1 :
  run (create_minecraft_resources cfg pod pvc key ml mr cl cr sc) w = (Returned r, w1) ->
  let s := _sanitize_name pod in
  let d := _sanitize_name pvc in
  objects w1 !! (Deployment, s)
    = Some (DeploymentBody d ("servertap-config-" +:+ s) ml mr cl cr) /\
  objects w1 !! (ConfigMap, "servertap-config-" +:+ s)
    = Some (ConfigMapBody [("config.yml", servertap_config_yml key)]) /\
  objects w1 !! (Service, s +:+ "-svc") = Some (ServiceBody s) /\
  objects w1 !! (Ingress, "servertap-" +:+ s +:+ "-ingress")
    = Some (IngressBody (s +:+ "-api." +:+ GAME_DOMAIN cfg) (s +:+ "-svc")) /\
  is_Some (objects w1 !! (PersistentVolumeClaim, d)) /\
  is_Some (objects w1 !! (ConfigMap, "paper-global-config")).
Proof.
  intros H s d.
  pose proof (provision_success _ _ _ _ _ _ _ _ _ _ _ _ H) as Hall.
  revert H. unfold create_minecraft_resources. fold s d. intros H.
  apply run_bind_returned in H as (a1 & wa & _ & H).
  apply run_bind_returned in H as (a2 & wb & Hshared & H).
  apply run_shared_config_returned in Hshared.
  apply run_bind_returned in H as (a3 & wc & Hcm & H).
  pose proof (world_of_run _ _ _ _ Hcm) as Kcm. apply run_create_body in Hcm.
  apply run_bind_returned in H as (present & wd & Hprobe & H).
  apply world_of_run in Hprobe.
  apply run_bind_returned in H as (a5 & we & Hstore & H).
  apply world_of_run in Hstore.
  apply run_bind_returned in H as (a6 & wf & Hdep & H).
  pose proof (world_of_run _ _ _ _ Hdep) as Kdep. apply run_create_body in Hdep.
  apply run_bind_returned in H as (a7 & wg & Hsvc & H).
  pose proof (world_of_run _ _ _ _ Hsvc) as Ksvc. apply run_create_body in Hsvc.
  apply run_bind_returned in H as (a8 & wh & Hing & H).
  pose proof (world_of_run _ _ _ _ Hing) as King. apply run_create_body in Hing.
  injection H as _ <-.
  assert (Fprobe : forall k b, objects wc !! k = Some b -> objects wd !! k = Some b).
  { intros k b. rewrite Hprobe. apply (only_leaves k any), only_pvc_exists. exact I. }
  assert (Fstore : forall k b, fst k <> Job -> fst k <> PersistentVolume ->
                     fst k <> PersistentVolumeClaim ->
                     objects wd !! k = Some b -> objects we !! k = Some b).
  { intros k b H1 H2 H3. rewrite Hstore.
    apply (only_leaves k any), storage_step_leaves; assumption. }
  assert (Fdep : forall k b, objects we !! k = Some b -> objects wf !! k = Some b).
  { intros k b. rewrite Kdep.
    apply (only_leaves k any), only_create_deployment. intros; exact I. }
  assert (Fsvc : forall k b, objects wf !! k = Some b -> objects wg !! k = Some b).
  { intros k b. rewrite Ksvc.
    apply (only_leaves k any), only_create_service. intros; exact I. }
  assert (Fing : forall k b, objects wg !! k = Some b -> objects wh !! k = Some b).
  { intros k b. rewrite King.
    apply (only_leaves k any), only_create_ingress. intros; exact I. }
  assert (Fcm : forall k b, objects wb !! k = Some b -> objects wc !! k = Some b).
  { intros k b. rewrite Kcm.
    apply (only_leaves k any), only_create_servertap_configmap. intros; exact I. }
  split; [apply Fing, Fsvc; exact Hdep|].
  split; [apply Fing, Fsvc, Fdep, Fstore, Fprobe; try discriminate; exact Hcm|].
  split; [apply Fing; exact Hsvc|].
  split; [exact Hing|].
  split.
  - apply List.Forall_app in Hall as [_ Hall]. inversion Hall; assumption.
  - destruct Hshared as [b Hb]. exists b.
    apply Fing, Fsvc, Fdep, Fstore, Fprobe, Fcm; try discriminate. exact Hb.
Qed.

(** ** Executions that meet no fault, step by step *)

Lemma tl_drop {A} (l : list A) i : tl (drop i l) = drop (S i) l.
Proof.
  revert l. induction i as [|i IH]; intros [|a l]; try reflexivity.
  apply (IH l).
Qed.

Lemma drop_drop_script {A} (l : list A) i j : drop j (drop i l) = drop (i + j) l.
Proof. rewrite drop_drop. reflexivity. Qed.

Lemma hd_drop (l : list Tick) i : hd quiet (drop i l) = nth i l quiet.
Proof.
  revert l. induction i as [|i IH]; intros [|a l]; try reflexivity.
  exact (IH l).
Qed.

Lemma calm_at n ts i : calm n ts -> (i < n)%nat -> injected (nth i ts quiet) = None.
Proof.
  revert ts i. induction n as [|n IH]; intros ts i Hc Hi; [lia|].
  cbn [calm] in Hc. destruct Hc as [H1 H2].
  destruct i as [|i].
  - destruct ts; exact H1.
  - destruct ts as [|t ts]; cbn [nth tl] in *.
    + destruct i; exact H1.
    + apply IH; [exact H2|lia].
Qed.

Lemma calm_drop n ts i :
  calm n ts -> (i < n)%nat -> injected (hd quiet (drop i ts)) = None.
Proof. intros Hc Hi. rewrite hd_drop. eapply calm_at; eauto. Qed.

Lemma run_create_calm k n b w :
  injected (hd quiet (script w)) = None ->
  objects w !! (k, n) = None ->
  exists w',
    run (api (create k n b) ;; Ret tt) w = (Returned tt, w') /\
    objects w' = <[(k, n) := b]> (objects w) /\
    script w' = tl (script w).
Proof.
  intros Hi Hn. rewrite run_bind, run_api.
  rewrite (respond_remote_calm _ _ Hi) by exact I.
  cbn [serve]. rewrite Hn. cbn [fst snd run].
  eexists. split; [reflexivity|]. split; reflexivity.
Qed.

Lemma run_pvc_exists_calm d w :
  injected (hd quiet (script w)) = None ->
  exists w',
    run (pvc_exists d) w = (Returned (present (objects w) (PersistentVolumeClaim, d)), w') /\
    objects w' = objects w /\
    script w' = tl (script w).
Proof.
  intros Hi. unfold pvc_exists, except_ApiException, present.
  rewrite run_try_except, run_bind, run_api.
  rewrite (respond_remote_calm _ _ Hi) by exact I. cbn [serve].
  destruct (objects w !! (PersistentVolumeClaim, d));
    (eexists; split; [reflexivity|]; split; reflexivity).
Qed.

Lemma poll_budget_60 : poll_budget 60 = 31%nat.
Proof. reflexivity. Qed.

Lemma run_create_persistent_volume_calm cfg d cap w :
  calm 2 (script w) ->
  objects w !! (PersistentVolume, "pv-" +:+ d) = None ->
  exists w',
    run (create_persistent_volume cfg d cap) w = (Returned tt, w') /\
    objects w' =
    <[(PersistentVolume, "pv-" +:+ d) :=
        PersistentVolumeBody cap (NFS_SERVER cfg) (NFS_BASE_PATH cfg +:+ "/" +:+ d)]>
      (objects w) /\
    script w' = drop 2 (script w).
Proof.
  cbn [calm]. intros (H1 & H2 & _) E.
  unfold create_persistent_volume, except_ApiException. cbv zeta.
  rewrite run_bind, run_try_except, run_bind, run_api.
  rewrite (respond_remote_calm _ _ H1) by exact I. cbn [serve]. rewrite E.
  cbn [fst snd run]. cbn [Z.eqb Pos.eqb negb]. cbn [run].
  match goal with |- context [run (bind (api (create ?k ?n ?b)) _) ?w1] =>
    destruct (run_create_calm k n b w1) as (w' & Ec & Oc & Sc) end.
  { exact H2. }
  { exact E. }
  rewrite Ec. exists w'. split; [reflexivity|]. split; [exact Oc|].
  rewrite Sc. cbn [script]. destruct (script w) as [|? [|? ?]]; reflexivity.
Qed.

Lemma run_create_persistent_volume_claim_calm d cap w :
  calm 2 (script w) ->
  objects w !! (PersistentVolumeClaim, d) = None ->
  is_bound (status (nth 1 (script w) quiet)) = true ->
  exists w',
    run (create_persistent_volume_claim d cap) w = (Returned tt, w') /\
    objects w' =
    <[(PersistentVolumeClaim, d) := PersistentVolumeClaimBody cap ("pv-" +:+ d)]>
      (objects w) /\
    script w' = drop 2 (script w).
Proof.
  cbn [calm]. rewrite nth_1. intros (H1 & H2 & _) E Hb.
  unfold create_persistent_volume_claim, _wait_for_pvc_bound.
  rewrite poll_budget_60. cbn [_wait_for_pvc_bound_loop].
  rewrite run_bind, run_api.
  rewrite (respond_remote_calm _ _ H1) by exact I. cbn [serve]. rewrite E.
  cbn [fst snd]. rewrite run_bind, run_time. rewrite run_bind, run_time.
  cbn [clock]. rewrite Z.sub_diag. change (0 <? 1000 * 60) with true.
  cbv beta iota. unfold except_ApiException.
  rewrite run_bind, run_try_except, run_bind, run_api.
  match goal with |- context [respond ?c ?w1] =>
    rewrite (respond_remote_calm c w1 H2) by exact I end.
  cbn [serve objects script]. rewrite lookup_insert_eq.
  cbn [fst snd run reply_status]. unfold is_bound in Hb. rewrite Hb.
  cbn [run].
  eexists. split; [reflexivity|]. split; [reflexivity|].
  cbn [script]. destruct (script w) as [|? [|? ?]]; reflexivity.
Qed.

Lemma run_create_nfs_directory_job_calm cfg d w :
  calm 3 (script w) ->
  has_succeeded (status (nth 2 (script w) quiet)) = true ->
  exists w',
    run (create_nfs_directory_job cfg d) w = (Returned tt, w') /\
    objects w' =
    <[(Job, "create-nfs-dir-" +:+ d) := JobBody (NFS_BASE_PATH cfg +:+ "/" +:+ d)]>
      (objects w) /\
    script w' = drop 3 (script w).
Proof.
  cbn [calm]. rewrite nth_2. intros (H1 & H2 & H3 & _) Hs.
  unfold create_nfs_directory_job. cbv zeta.
  set (job := "create-nfs-dir-" +:+ d).
  set (body := JobBody (NFS_BASE_PATH cfg +:+ "/" +:+ d)).
  assert (Hrest : forall w1,
            objects w1 = base.delete (Job, job) (objects w) ->
            script w1 = tl (script w) ->
            exists w',
              run (api (create Job job body) ;; _wait_for_job_completion job 60) w1
              = (Returned tt, w') /\
              objects w' = <[(Job, job) := body]> (objects w) /\
              script w' = drop 3 (script w)).
  { intros w1 O1 S1. rewrite run_bind, run_api.
    rewrite (respond_remote_calm _ w1) by (rewrite ?S1; auto; exact I).
    cbn [serve]. rewrite O1, lookup_delete_eq. cbn [fst snd].
    unfold _wait_for_job_completion.
    rewrite run_bind, run_time. rewrite poll_budget_60, job_loop_unfold.
    rewrite run_bind, run_time.
    cbn [clock]. rewrite Z.sub_diag. change (0 <? 1000 * 60) with true.
    cbv beta iota. rewrite run_poll.
    match goal with |- context [respond ?c ?w2] =>
      rewrite (respond_remote_calm c w2) by (cbn [script]; rewrite ?S1; auto; exact I) end.
    cbn [serve objects script fst snd]. rewrite lookup_insert_eq.
    cbn [fst snd]. unfold judge_task. cbn [reply_status].
    unfold has_succeeded in Hs. rewrite S1. rewrite Hs.
    cbn [try_except bind task_poll_next run].
    eexists. split; [reflexivity|]. split.
    - cbn [objects]. apply insert_delete_eq.
    - cbn [script]. destruct (script w) as [|? [|? [|? ?]]]; reflexivity. }
  rewrite run_bind. unfold except_ApiException.
  rewrite run_try_except, run_bind, run_api.
  rewrite (respond_remote_calm _ _ H1) by exact I. cbn [serve].
  destruct (objects w !! (Job, job)) eqn:E.
  - cbn [fst snd]. rewrite run_sleep. apply Hrest; reflexivity.
  - cbn [fst snd run]. cbn [Z.eqb Pos.eqb negb]. cbn [run].
    apply Hrest; [|reflexivity]. cbn [objects]. symmetry. apply delete_id, E.
Qed.

Lemma shared_not_ephemeral s : ~ In (ConfigMap, "paper-global-config") (ephemeral_keys s).
Proof. cbn. intros [H|[H|[H|[H|[]]]]]; discriminate H. Qed.

Lemma in_ephemeral_keys s :
  In (Deployment, s) (ephemeral_keys s) /\
  In (Service, s +:+ "-svc") (ephemeral_keys s) /\
  In (Ingress, "servertap-" +:+ s +:+ "-ingress") (ephemeral_keys s) /\
  In (ConfigMap, "servertap-config-" +:+ s) (ephemeral_keys s).
Proof. cbn. tauto. Qed.

Ltac script_at H :=
  repeat match type of H with
  | context [tl (drop ?i ?l)] => rewrite (tl_drop l i) in H
  | context [drop ?j (drop ?i ?l)] => rewrite (drop_drop l j i) in H; cbn [Nat.add] in H
  end.

Lemma nth_drop (l : list Tick) i j : nth j (drop i l) quiet = nth (i + j) l quiet.
Proof.
  revert l. induction i as [|i IH]; intros l; [reflexivity|].
  destruct l as [|a l]; [destruct j; reflexivity|]. exact (IH l).
Qed.

Lemma calm_of_nth m (l : list Tick) :
  (forall j, (j < m)%nat -> injected (nth j l quiet) = None) -> calm m l.
Proof.
  revert l. induction m as [|m IH]; intros l H; [exact I|].
  cbn [calm]. split.
  - rewrite <- nth_0. apply H. lia.
  - apply IH. intros j Hj. specialize (H (S j) ltac:(lia)).
    destruct l as [|a l]; [destruct j; exact H|exact H].
Qed.

Lemma calm_window n ts i m : calm n ts -> (i + m <= n)%nat -> calm m (drop i ts).
Proof.
  intros Hc Hle. apply calm_of_nth. intros j Hj. rewrite nth_drop.
  eapply calm_at; [exact Hc|lia].
Qed.

Ltac lookup_through :=
  repeat first
    [ rewrite lookup_insert_ne by discriminate
    | match goal with
      | H : objects ?w = _ |- context [objects ?w] => rewrite H
      end ].

Lemma reprovision_calm cfg pod pvc key ml mr cl cr sc w claim :
  let s := _sanitize_name pod in
  let d := _sanitize_name pvc in
  calm 11 (script w) ->
  objects w !! (PersistentVolumeClaim, d) = Some claim ->
  (forall b, objects w !! (ConfigMap, "paper-global-config") = Some b ->
             exists old, b = ConfigMapBody old) ->
  exists w1 shared,
    run (create_minecraft_resources cfg pod pvc key ml mr cl cr sc) w =
    (Returned [("status", "success"); ("pod_name", s); ("pvc_name", d);
               ("game_url", s +:+ "." +:+ GAME_DOMAIN cfg);
               ("api_url", "http://" +:+ s +:+ "-api." +:+ GAME_DOMAIN cfg)], w1) /\
    objects w1 =
    <[(Ingress, "servertap-" +:+ s +:+ "-ingress") :=
        IngressBody (s +:+ "-api." +:+ GAME_DOMAIN cfg) (s +:+ "-svc")]>
      (<[(Service, s +:+ "-svc") := ServiceBody s]>
         (<[(Deployment, s) :=
              DeploymentBody d ("servertap-config-" +:+ s) ml mr cl cr]>
            (<[(ConfigMap, "servertap-config-" +:+ s) :=
                 ConfigMapBody [("config.yml", servertap_config_yml key)]]>
               (<[(ConfigMap, "paper-global-config") := ConfigMapBody shared]>
                  (delete_all (ephemeral_keys s) (objects w)))))) /\
    get "paper-global.yml" shared = Some (paper_global_yml cfg).
Proof.
  intros s d Hcalm Hclaim Hkind.
  destruct (in_ephemeral_keys s) as (Idep & Isvc & Iing & Icm).
  pose proof (shared_not_ephemeral s) as Ishared.
  unfold create_minecraft_resources. fold s d.
  destruct (calm_split 4 7 _ Hcalm) as [C4 _].
  destruct (run_cleanup_calm s w C4) as (wa & Ea & Oa & Sa).
  rewrite run_bind, Ea. clear Ea. cbv beta iota zeta.
  destruct (run_shared_config_calm cfg wa) as (wb & shared & Eb & Ob & Sb & Gb & _).
  { rewrite Sa. cbn [calm]. rewrite tl_drop.
    split; [|split; [|exact I]]; apply (calm_drop 11); auto; lia. }
  { intros b. rewrite Oa, lookup_delete_all_other by exact Ishared. apply Hkind. }
  rewrite run_bind, Eb. clear Eb. cbv beta iota zeta. rewrite Sa in Sb. script_at Sb.
  unfold create_servertap_configmap. cbv beta iota zeta.
  rewrite run_bind.
  match goal with |- context [run (bind (api (create ?k ?n ?b)) _) wb] =>
    destruct (run_create_calm k n b wb) as (wc & Ec & Oc & Sc) end.
  { rewrite Sb. apply (calm_drop 11); auto; lia. }
  { rewrite Ob, lookup_insert_ne by discriminate.
    rewrite Oa. apply lookup_delete_all_in, Icm. }
  rewrite Ec. clear Ec. cbv beta iota zeta. rewrite Sb in Sc. script_at Sc.
  destruct (run_pvc_exists_calm d wc) as (wd & Ed & Od & Sd).
  { rewrite Sc. apply (calm_drop 11); auto; lia. }
  rewrite run_bind, Ed. clear Ed. cbv beta iota zeta. rewrite Sc in Sd. script_at Sd.
  assert (Hp : present (objects wc) (PersistentVolumeClaim, d) = true).
  { unfold present. rewrite Oc, lookup_insert_ne by discriminate.
    rewrite Ob, lookup_insert_ne by discriminate.
    rewrite Oa, lookup_delete_all_other, Hclaim; [reflexivity|].
    apply (storage_not_ephemeral s d). cbn. auto. }
  rewrite Hp. cbn [negb]. rewrite run_bind. cbn [run].
  unfold create_deployment. cbv beta iota zeta.
  rewrite run_bind.
  match goal with |- context [run (bind (api (create ?k ?n ?b)) _) wd] =>
    destruct (run_create_calm k n b wd) as (we & Ee & Oe & Se) end.
  { rewrite Sd. apply (calm_drop 11); auto; lia. }
  { rewrite Od, Oc, lookup_insert_ne by discriminate.
    rewrite Ob, lookup_insert_ne by discriminate.
    rewrite Oa. apply lookup_delete_all_in, Idep. }
  rewrite Ee. clear Ee. cbv beta iota zeta. rewrite Sd in Se. script_at Se.
  unfold create_service. cbv beta iota zeta.
  rewrite run_bind.
  match goal with |- context [run (bind (api (create ?k ?n ?b)) _) we] =>
    destruct (run_create_calm k n b we) as (wf & Ef & Of & Sf) end.
  { rewrite Se. apply (calm_drop 11); auto; lia. }
  { rewrite Oe, lookup_insert_ne by discriminate.
    rewrite Od, Oc, lookup_insert_ne by discriminate.
    rewrite Ob, lookup_insert_ne by discriminate.
    rewrite Oa. apply lookup_delete_all_in, Isvc. }
  rewrite Ef. clear Ef. cbv beta iota zeta. rewrite Se in Sf. script_at Sf.
  unfold create_ingress. cbv beta iota zeta.
  rewrite run_bind.
  match goal with |- context [run (bind (api (create ?k ?n ?b)) _) wf] =>
    destruct (run_create_calm k n b wf) as (wg & Eg & Og & Sg) end.
  { rewrite Sf. apply (calm_drop 11); auto; lia. }
  { rewrite Of, lookup_insert_ne by discriminate.
    rewrite Oe, lookup_insert_ne by discriminate.
    rewrite Od, Oc, lookup_insert_ne by discriminate.
    rewrite Ob, lookup_insert_ne by discriminate.
    rewrite Oa. apply lookup_delete_all_in, Iing. }
  rewrite Eg. clear Eg. cbv beta iota zeta. cbn [run].
  exists wg, shared. split; [reflexivity|]. split; [|exact Gb].
  rewrite Og, Of, Oe, Od, Oc, Ob, Oa. reflexivity.
Qed.

Lemma first_provisioning_calm cfg pod pvc key ml mr cl cr sc w :
  let s := _sanitize_name pod in
  let d := _sanitize_name pvc in
  calm 18 (script w) ->
  has_succeeded (status (nth 10 (script w) quiet)) = true ->
  is_bound (status (nth 14 (script w) quiet)) = true ->
  objects w !! (PersistentVolumeClaim, d) = None ->
  objects w !! (PersistentVolume, "pv-" +:+ d) = None ->
  (forall b, objects w !! (ConfigMap, "paper-global-config") = Some b ->
             exists old, b = ConfigMapBody old) ->
  exists w1 shared,
    run (create_minecraft_resources cfg pod pvc key ml mr cl cr sc) w =
    (Returned [("status", "success"); ("pod_name", s); ("pvc_name", d);
               ("game_url", s +:+ "." +:+ GAME_DOMAIN cfg);
               ("api_url", "http://" +:+ s +:+ "-api." +:+ GAME_DOMAIN cfg)], w1) /\
    objects w1 =
    <[(Ingress, "servertap-" +:+ s +:+ "-ingress") :=
        IngressBody (s +:+ "-api." +:+ GAME_DOMAIN cfg) (s +:+ "-svc")]>
      (<[(Service, s +:+ "-svc") := ServiceBody s]>
         (<[(Deployment, s) :=
              DeploymentBody d ("servertap-config-" +:+ s) ml mr cl cr]>
            (<[(PersistentVolumeClaim, d) :=
                 PersistentVolumeClaimBody sc ("pv-" +:+ d)]>
               (<[(PersistentVolume, "pv-" +:+ d) :=
                    PersistentVolumeBody sc (NFS_SERVER cfg)
                      (NFS_BASE_PATH cfg +:+ "/" +:+ d)]>
                  (<[(Job, "create-nfs-dir-" +:+ d) :=
                       JobBody (NFS_BASE_PATH cfg +:+ "/" +:+ d)]>
                     (<[(ConfigMap, "servertap-config-" +:+ s) :=
                          ConfigMapBody [("config.yml", servertap_config_yml key)]]>
                        (<[(ConfigMap, "paper-global-config") := ConfigMapBody shared]>
                           (delete_all (ephemeral_keys s) (objects w))))))))) /\
    get "paper-global.yml" shared = Some (paper_global_yml cfg) /\
    script w1 = drop 18 (script w).
Proof.
  intros s d Hcalm Htask Hbound Hclaim Hvolume Hkind.
  destruct (in_ephemeral_keys s) as (Idep & Isvc & Iing & Icm).
  pose proof (shared_not_ephemeral s) as Ishared.
  assert (Hat : forall i, (i < 18)%nat -> injected (hd quiet (drop i (script w))) = None).
  { intros i Hi. apply (calm_drop 18); auto. }
  unfold create_minecraft_resources. fold s d.
  destruct (run_cleanup_calm s w) as (wa & Ea & Oa & Sa).
  { apply (calm_window 18 (script w) 0 4); [exact Hcalm|lia]. }
  rewrite run_bind, Ea. clear Ea. cbv beta iota zeta.
  destruct (run_shared_config_calm cfg wa) as (wb & shared & Eb & Ob & Sb & Gb & _).
  { rewrite Sa. apply (calm_window 18); [exact Hcalm|lia]. }
  { intros b. rewrite Oa, lookup_delete_all_other by exact Ishared. apply Hkind. }
  rewrite run_bind, Eb. clear Eb. cbv beta iota zeta. rewrite Sa in Sb. script_at Sb.
  unfold create_servertap_configmap. cbv beta iota zeta.
  rewrite run_bind.
  match goal with |- context [run (bind (api (create ?k ?n ?b)) _) wb] =>
    destruct (run_create_calm k n b wb) as (wc & Ec & Oc & Sc) end.
  { rewrite Sb. apply Hat. lia. }
  { lookup_through. apply lookup_delete_all_in, Icm. }
  rewrite Ec. clear Ec. cbv beta iota zeta. rewrite Sb in Sc. script_at Sc.
  destruct (run_pvc_exists_calm d wc) as (wd & Ed & Od & Sd).
  { rewrite Sc. apply Hat. lia. }
  rewrite run_bind, Ed. clear Ed. cbv beta iota zeta. rewrite Sc in Sd. script_at Sd.
  assert (Hp : present (objects wc) (PersistentVolumeClaim, d) = false).
  { unfold present. lookup_through.
    rewrite lookup_delete_all_other, Hclaim; [reflexivity|].
    apply (storage_not_ephemeral s d). cbn. auto. }
  rewrite Hp. cbn [negb]. rewrite !run_bind.
  destruct (run_create_nfs_directory_job_calm cfg d wd) as (we & Ee & Oe & Se).
  { rewrite Sd. apply (calm_window 18); [exact Hcalm|lia]. }
  { rewrite Sd, nth_drop. exact Htask. }
  rewrite Ee. clear Ee. cbv beta iota zeta. rewrite Sd in Se. script_at Se.
  rewrite run_bind.
  destruct (run_create_persistent_volume_calm cfg d sc we) as (wf & Ef & Of & Sf).
  { rewrite Se. apply (calm_window 18); [exact Hcalm|lia]. }
  { lookup_through.
    rewrite lookup_delete_all_other, Hvolume; [reflexivity|].
    apply (storage_not_ephemeral s d). cbn. auto. }
  rewrite Ef. clear Ef. cbv beta iota zeta. rewrite Se in Sf. script_at Sf.
  destruct (run_create_persistent_volume_claim_calm d sc wf) as (wg & Eg & Og & Sg).
  { rewrite Sf. apply (calm_window 18); [exact Hcalm|lia]. }
  { lookup_through.
    rewrite lookup_delete_all_other, Hclaim; [reflexivity|].
    apply (storage_not_ephemeral s d). cbn. auto. }
  { rewrite Sf, nth_drop. exact Hbound. }
  rewrite Eg. clear Eg. cbv beta iota zeta. rewrite Sf in Sg. script_at Sg.
  unfold create_deployment. cbv beta iota zeta. rewrite run_bind.
  match goal with |- context [run (bind (api (create ?k ?n ?b)) _) wg] =>
    destruct (run_create_calm k n b wg) as (wh & Eh & Oh & Sh) end.
  { rewrite Sg. apply Hat. lia. }
  { lookup_through. apply lookup_delete_all_in, Idep. }
  rewrite Eh. clear Eh. cbv beta iota zeta. rewrite Sg in Sh. script_at Sh.
  unfold create_service. cbv beta iota zeta. rewrite run_bind.
  match goal with |- context [run (bind (api (create ?k ?n ?b)) _) wh] =>
    destruct (run_create_calm k n b wh) as (wi & Ei & Oi & Si) end.
  { rewrite Sh. apply Hat. lia. }
  { lookup_through. apply lookup_delete_all_in, Isvc. }
  rewrite Ei. clear Ei. cbv beta iota zeta. rewrite Sh in Si. script_at Si.
  unfold create_ingress. cbv beta iota zeta. rewrite run_bind.
  match goal with |- context [run (bind (api (create ?k ?n ?b)) _) wi] =>
    destruct (run_create_calm k n b wi) as (wj & Ej & Oj & Sj) end.
  { rewrite Si. apply Hat. lia. }
  { lookup_through. apply lookup_delete_all_in, Iing. }
  rewrite Ej. clear Ej. cbn [run].
  exists wj, shared. split; [reflexivity|]. rewrite Si in Sj. script_at Sj.
  split; [|split; [exact Gb|exact Sj]].
  rewrite Oj, Oi, Oh, Og, Of, Oe, Od, Oc, Ob, Oa. reflexivity.
Qed.

(** ** The properties *)

(** X19.  After every provisioning that returns, whatever was there
    before and whatever faults its waits rode out, the deployment is the
    one asked for (it mounts the claim of the storage identity and the
    per-server config object, with the resource limits given), the
    per-server config object holds the API key given, the service
    selects the server, the route sends the management host to that
    service, and the claim and the shared config object exist. *)
Theorem provisioning_leaves_requested_objects cfg pod pvc key ml mr cl cr sc w r w1 :
  run (create_minecraft_resources cfg pod pvc key ml mr cl cr sc) w = (Returned r, w1) ->
  let s := _sanitize_name pod in
  let d := _sanitize_name pvc in
  objects w1 !! (Deployment, s)
    = Some (DeploymentBody d ("servertap-config-" +:+ s) ml mr cl cr) /\
  objects w1 !! (ConfigMap, "servertap-config-" +:+ s)
    = Some (ConfigMapBody [("config.yml", servertap_config_yml key)]) /\
  objects w1 !! (Service, s +:+ "-svc") = Some (ServiceBody s) /\
  objects w1 !! (Ingress, "servertap-" +:+ s +:+ "-ingress")
    = Some (IngressBody (s +:+ "-api." +:+ GAME_DOMAIN cfg) (s +:+ "-svc")) /\
  is_Some (objects w1 !! (PersistentVolumeClaim, d)) /\
  is_Some (objects w1 !! (ConfigMap, "paper-global-config")).
Proof. apply provisioned. Qed.

Lemma provisioning_leaves_requested_objects_witness :
  let w := world Scenario.claim_alpha [] in
  let result := run (Scenario.provision "Alpha" "alpha-data") w in
  fst result =
    Returned [("status", "success"); ("pod_name", "alpha"); ("pvc_name", "alpha-data");
              ("game_url", "alpha.mc.msdca.shop");
              ("api_url", "http://alpha-api.mc.msdca.shop")] /\
  objects (snd result) !! (Deployment, "alpha")
    = Some (DeploymentBody "alpha-data" "servertap-config-alpha" "4Gi" "2Gi" "2" "1") /\
  objects (snd result) !! (Ingress, "servertap-alpha-ingress")
    = Some (IngressBody "alpha-api.mc.msdca.shop" "alpha-svc").
Proof.
  cbv zeta.
  assert (H : run (Scenario.provision "Alpha" "alpha-data") (world Scenario.claim_alpha [])
              = (Returned [("status", "success"); ("pod_name", "alpha");
                           ("pvc_name", "alpha-data");
                           ("game_url", "alpha.mc.msdca.shop");
                           ("api_url", "http://alpha-api.mc.msdca.shop")],
                 snd (run (Scenario.provision "Alpha" "alpha-data")
                        (world Scenario.claim_alpha []))))
    by (vm_compute; reflexivity).
  destruct (provisioning_leaves_requested_objects _ _ _ _ _ _ _ _ _ _ _ _ H)
    as (H1 & _ & _ & H4 & _).
  split; [rewrite H; reflexivity|]. split; [exact H1|exact H4].
Defined.

(** X20.  When the directory step returns, the task object of the
    storage identity is in the cluster with the directory of the
    identity under the base path, whether or not a task of that name
    was there before (a stale one is deleted first); the manager does
    not delete the task once it has succeeded.  No other object is
    changed. *)
Theorem directory_task_is_replaced_and_kept cfg d w w' name :
  run (create_nfs_directory_job cfg d) w = (Returned tt, w') ->
  name <> (Job, "create-nfs-dir-" +:+ d) ->
  objects w' !! (Job, "create-nfs-dir-" +:+ d)
    = Some (JobBody (NFS_BASE_PATH cfg +:+ "/" +:+ d)) /\
  objects w' !! name = objects w !! name.
Proof.
  intros H Hname. split.
  - revert H. unfold create_nfs_directory_job. cbv zeta. intros H.
    apply run_bind_returned in H as (a1 & wa & _ & H).
    apply run_bind_returned in H as (a2 & wb & Hc & H).
    apply run_api_create in Hc.
    rewrite (world_of_run _ _ _ _ H).
    apply (only_leaves _ any); [|exact Hc].
    unfold _wait_for_job_completion.
    apply only_then; [apply only_time; exact I|intros start].
    apply only_wait_for_job_completion_loop; try exact I; intros; exact I.
  - rewrite (world_of_run _ _ _ _ H).
    destruct (only_keeps (fun c => target c <> Some name)
                (fun a b => objects b !! name = objects a !! name)
                any (create_nfs_directory_job cfg d) w) as (_ & Hf & _); auto.
    + intros a b c Hab Hbc. rewrite Hbc. exact Hab.
    + intros c a Hc. eapply effect_frame; [apply respond_effect|exact Hc].
    + apply only_create_nfs_directory_job; cbn [target]; try discriminate;
        try (intros; discriminate); intros; intros [= E]; apply Hname;
        rewrite <- E; reflexivity.
Qed.

Lemma directory_task_is_replaced_and_kept_witness :
  let w := world (<[(Job, "create-nfs-dir-alpha-data") := JobBody "/old/path"]>
                    Scenario.claim_alpha)
             [quiet; quiet; Scenario.task_succeeded] in
  let w' := snd (run (create_nfs_directory_job Scenario.cfg "alpha-data") w) in
  run (create_nfs_directory_job Scenario.cfg "alpha-data") w = (Returned tt, w') /\
  (PersistentVolumeClaim, "alpha-data") <> (Job, "create-nfs-dir-" +:+ "alpha-data") /\
  objects w' !! (Job, "create-nfs-dir-alpha-data")
    = Some (JobBody "/mnt/nfs-minecraft/alpha-data") /\
  objects w' !! (PersistentVolumeClaim, "alpha-data")
    = objects w !! (PersistentVolumeClaim, "alpha-data").
Proof.
  cbv zeta.
  assert (H1 : run (create_nfs_directory_job Scenario.cfg "alpha-data")
                 (world (<[(Job, "create-nfs-dir-alpha-data") := JobBody "/old/path"]>
                           Scenario.claim_alpha)
                    [quiet; quiet; Scenario.task_succeeded])
               = (Returned tt,
                  snd (run (create_nfs_directory_job Scenario.cfg "alpha-data")
                         (world (<[(Job, "create-nfs-dir-alpha-data") :=
                                     JobBody "/old/path"]> Scenario.claim_alpha)
                            [quiet; quiet; Scenario.task_succeeded]))))
    by (vm_compute; reflexivity).
  assert (H2 : (PersistentVolumeClaim, "alpha-data")
               <> (Job, "create-nfs-dir-" +:+ "alpha-data")) by discriminate.
  destruct (directory_task_is_replaced_and_kept _ _ _ _ _ H1 H2) as [H3 H4].
  split; [exact H1|]. split; [exact H2|]. split; [exact H3|exact H4].
Defined.

(** X21.  Provisioning a server whose claim exists always succeeds when
    its eleven platform calls meet no fault, whichever ephemeral
    resources of the identity were there before: they are deleted and
    created anew, the shared config object is patched or created, the
    storage step makes no call beyond the probe, and every other object
    is left as it was. *)
Theorem reprovision_with_existing_storage cfg pod pvc key ml mr cl cr sc w claim :
  let s := _sanitize_name pod in
  let d := _sanitize_name pvc in
  calm 11 (script w) ->
  objects w !! (PersistentVolumeClaim, d) = Some claim ->
  (forall b, objects w !! (ConfigMap, "paper-global-config") = Some b ->
             exists old, b = ConfigMapBody old) ->
  exists w1 shared,
    run (create_minecraft_resources cfg pod pvc key ml mr cl cr sc) w =
    (Returned [("status", "success"); ("pod_name", s); ("pvc_name", d);
               ("game_url", s +:+ "." +:+ GAME_DOMAIN cfg);
               ("api_url", "http://" +:+ s +:+ "-api." +:+ GAME_DOMAIN cfg)], w1) /\
    objects w1 =
    <[(Ingress, "servertap-" +:+ s +:+ "-ingress") :=
        IngressBody (s +:+ "-api." +:+ GAME_DOMAIN cfg) (s +:+ "-svc")]>
      (<[(Service, s +:+ "-svc") := ServiceBody s]>
         (<[(Deployment, s) :=
              DeploymentBody d ("servertap-config-" +:+ s) ml mr cl cr]>
            (<[(ConfigMap, "servertap-config-" +:+ s) :=
                 ConfigMapBody [("config.yml", servertap_config_yml key)]]>
               (<[(ConfigMap, "paper-global-config") := ConfigMapBody shared]>
                  (delete_all (ephemeral_keys s) (objects w)))))) /\
    get "paper-global.yml" shared = Some (paper_global_yml cfg).
Proof. apply reprovision_calm. Qed.

Lemma reprovision_with_existing_storage_witness :
  let w := world (<[(Deployment, "alpha") := DeploymentBody "old" "old" "1Gi" "1Gi" "1" "1"]>
                    Scenario.claim_alpha) [] in
  calm 11 (script w) /\
  exists w1,
    run (Scenario.provision "alpha" "alpha-data") w =
    (Returned [("status", "success"); ("pod_name", "alpha"); ("pvc_name", "alpha-data");
               ("game_url", "alpha.mc.msdca.shop");
               ("api_url", "http://alpha-api.mc.msdca.shop")], w1) /\
    objects w1 !! (Deployment, "alpha")
      = Some (DeploymentBody "alpha-data" "servertap-config-alpha" "4Gi" "2Gi" "2" "1") /\
    objects w1 !! (PersistentVolumeClaim, "alpha-data")
      = Some (PersistentVolumeClaimBody "10Gi" "pv-alpha-data").
Proof.
  cbv zeta. split; [vm_compute; tauto|].
  destruct (reprovision_with_existing_storage Scenario.cfg "alpha" "alpha-data"
              "key" "4Gi" "2Gi" "2" "1" "10Gi"
              (world (<[(Deployment, "alpha") :=
                          DeploymentBody "old" "old" "1Gi" "1Gi" "1" "1"]>
                        Scenario.claim_alpha) [])
              (PersistentVolumeClaimBody "10Gi" "pv-alpha-data"))
    as (w1 & shared & H1 & H2 & _).
  - vm_compute. tauto.
  - reflexivity.
  - intros b Hb. vm_compute in Hb. discriminate Hb.
  - exists w1. split; [exact H1|]. rewrite H2. split; vm_compute; reflexivity.
Defined.

(** X22.  Provisioning on a cluster that has neither the claim nor the
    volume of the storage identity succeeds when its eighteen platform
    calls meet no fault, the directory task is read as succeeded at its
    first poll and the claim as bound at its first poll.  It then adds
    exactly the directory task, the volume, the claim, the per-server
    config object, the deployment, the service and the route to the
    cluster, next to the shared config object, and keeps every other
    object apart from the identity's earlier ephemeral resources. *)
Theorem first_provisioning_creates_all cfg pod pvc key ml mr cl cr sc w :
  let s := _sanitize_name pod in
  let d := _sanitize_name pvc in
  calm 18 (script w) ->
  has_succeeded (status (nth 10 (script w) quiet)) = true ->
  is_bound (status (nth 14 (script w) quiet)) = true ->
  objects w !! (PersistentVolumeClaim, d) = None ->
  objects w !! (PersistentVolume, "pv-" +:+ d) = None ->
  (forall b, objects w !! (ConfigMap, "paper-global-config") = Some b ->
             exists old, b = ConfigMapBody old) ->
  exists w1 shared,
    run (create_minecraft_resources cfg pod pvc key ml mr cl cr sc) w =
    (Returned [("status", "success"); ("pod_name", s); ("pvc_name", d);
               ("game_url", s +:+ "." +:+ GAME_DOMAIN cfg);
               ("api_url", "http://" +:+ s +:+ "-api." +:+ GAME_DOMAIN cfg)], w1) /\
    objects w1 =
    <[(Ingress, "servertap-" +:+ s +:+ "-ingress") :=
        IngressBody (s +:+ "-api." +:+ GAME_DOMAIN cfg) (s +:+ "-svc")]>
      (<[(Service, s +:+ "-svc") := ServiceBody s]>
         (<[(Deployment, s) :=
              DeploymentBody d ("servertap-config-" +:+ s) ml mr cl cr]>
            (<[(PersistentVolumeClaim, d) :=
                 PersistentVolumeClaimBody sc ("pv-" +:+ d)]>
               (<[(PersistentVolume, "pv-" +:+ d) :=
                    PersistentVolumeBody sc (NFS_SERVER cfg)
                      (NFS_BASE_PATH cfg +:+ "/" +:+ d)]>
                  (<[(Job, "create-nfs-dir-" +:+ d) :=
                       JobBody (NFS_BASE_PATH cfg +:+ "/" +:+ d)]>
                     (<[(ConfigMap, "servertap-config-" +:+ s) :=
                          ConfigMapBody [("config.yml", servertap_config_yml key)]]>
                        (<[(ConfigMap, "paper-global-config") := ConfigMapBody shared]>
                           (delete_all (ephemeral_keys s) (objects w))))))))) /\
    get "paper-global.yml" shared = Some (paper_global_yml cfg).
Proof.
  intros s d Hcalm Htask Hbound Hclaim Hvolume Hkind.
  destruct (first_provisioning_calm cfg pod pvc key ml mr cl cr sc w
              Hcalm Htask Hbound Hclaim Hvolume Hkind)
    as (w1 & shared & H1 & H2 & H3 & _).
  exists w1, shared. auto.
Qed.

Lemma first_provisioning_creates_all_witness :
  let w := world ∅ Scenario.smooth in
  calm 18 (script w) /\
  exists w1,
    run (Scenario.provision "Alpha" "alpha-data") w =
    (Returned [("status", "success"); ("pod_name", "alpha"); ("pvc_name", "alpha-data");
               ("game_url", "alpha.mc.msdca.shop");
               ("api_url", "http://alpha-api.mc.msdca.shop")], w1) /\
    objects w1 !! (PersistentVolume, "pv-alpha-data")
      = Some (PersistentVolumeBody "10Gi" "100.75.219.111" "/mnt/nfs-minecraft/alpha-data") /\
    objects w1 !! (Job, "create-nfs-dir-alpha-data")
      = Some (JobBody "/mnt/nfs-minecraft/alpha-data").
Proof.
  cbv zeta. split; [vm_compute; tauto|].
  destruct (first_provisioning_creates_all Scenario.cfg "Alpha" "alpha-data"
              "key" "4Gi" "2Gi" "2" "1" "10Gi" (world ∅ Scenario.smooth))
    as (w1 & shared & H1 & H2 & _).
  - vm_compute. tauto.
  - reflexivity.
  - reflexivity.
  - reflexivity.
  - reflexivity.
  - intros b Hb. vm_compute in Hb. discriminate Hb.
  - exists w1. split; [exact H1|]. rewrite H2. split; vm_compute; reflexivity.
Defined.

End ProvisioningProperties.

(** * Further properties: listing, start-up and a request end to end *)

Module ListingProperties.
Import Sanitize Platform Program K8sManager Observe Notions.
Import ProgramFacts.

Section Listing.
Context {datetime : Type} (isoformat : datetime -> string).

(** The entry shown for a claim that has metadata, a creation
    timestamp and a status. *)
Let shown (pvc : @V1PersistentVolumeClaim datetime)
    (entry : list (string * option string)) : Prop :=
  exists metadata creation_timestamp status,
    pvc_metadata pvc = Some metadata /\
    meta_creation_timestamp metadata = Some creation_timestamp /\
    pvc_status pvc = Some status /\
    entry = [("name", meta_name metadata);
             ("namespace", meta_namespace metadata);
             ("creation_timestamp", Some (isoformat creation_timestamp));
             ("status", status_phase status);
             ("capacity", capacity_shown status)].

Lemma pvc_entry_shown pvc :
  match pvc_entry isoformat pvc with
  | inr entry => missing_attribute pvc = None /\ shown pvc entry
  | inl e =>
      exists attribute,
        missing_attribute pvc = Some attribute /\ e = no_attribute attribute
  end.
Proof.
  unfold pvc_entry, missing_attribute, shown, capacity_shown.
  destruct (pvc_metadata pvc) as [metadata|]; [|eauto].
  destruct (meta_creation_timestamp metadata) as [t|] eqn:Et; [|eauto].
  destruct (pvc_status pvc) as [status|]; [|eauto].
  split; [reflexivity|]. exists metadata, t, status.
  repeat (split; [first [reflexivity|exact Et]|]).
  destruct (status_capacity status) as [[|? ?]|]; reflexivity.
Qed.

Lemma pvc_list_loop_spec items acc :
  match pvc_list_loop isoformat items acc with
  | inr pvc_list =>
      exists entries, pvc_list = (acc ++ entries)%list /\ Forall2 shown items entries
  | inl e =>
      exists before pvc after attribute,
        items = (before ++ pvc :: after)%list /\
        List.Forall (fun p => missing_attribute p = None) before /\
        missing_attribute pvc = Some attribute /\
        e = no_attribute attribute
  end.
Proof.
  revert acc. induction items as [|pvc items IH]; intros acc; cbn [pvc_list_loop].
  - exists []. split; [symmetry; apply app_nil_r|constructor].
  - pose proof (pvc_entry_shown pvc) as He.
    destruct (pvc_entry isoformat pvc) as [e|entry].
    + destruct He as (attribute & Hm & ->).
      exists [], pvc, items, attribute. repeat split; auto.
    + destruct He as [Hnone Hshown].
      specialize (IH (acc ++ [entry])%list).
      destruct (pvc_list_loop isoformat items (acc ++ [entry])%list) as [e|l].
      * destruct IH as (before & p & after & attribute & -> & Hall & Hm & ->).
        exists (pvc :: before), p, after, attribute.
        repeat split; auto.
      * destruct IH as (entries & -> & Hall).
        exists (entry :: entries). split; [rewrite <- app_assoc; reflexivity|].
        constructor; assumption.
Qed.

(** X23.  The listing of claims is all or nothing and keeps the
    order.  When every claim of the answer has metadata, a creation
    timestamp and a status, the result has one entry per claim, in
    the order of the answer, with the claim's name, namespace,
    timestamp in ISO format, phase and shown capacity.  Otherwise the
    whole listing fails at the first claim that lacks one of them, with
    the attribute error of the first attribute read on [None] ([name],
    [isoformat] or [phase]), and no entry is returned. *)
Theorem pvc_listing_is_all_or_nothing items :
  match pvc_list_of isoformat items with
  | inr pvc_list =>
      List.Forall (fun pvc => missing_attribute pvc = None) items /\
      Forall2 (fun pvc entry =>
                 exists metadata creation_timestamp status,
                   pvc_metadata pvc = Some metadata /\
                   meta_creation_timestamp metadata = Some creation_timestamp /\
                   pvc_status pvc = Some status /\
                   entry = [("name", meta_name metadata);
                            ("namespace", meta_namespace metadata);
                            ("creation_timestamp", Some (isoformat creation_timestamp));
                            ("status", status_phase status);
                            ("capacity", capacity_shown status)])
              items pvc_list
  | inl e =>
      exists before pvc after attribute,
        items = (before ++ pvc :: after)%list /\
        List.Forall (fun p => missing_attribute p = None) before /\
        missing_attribute pvc = Some attribute /\
        e = AttributeError ("'NoneType' object has no attribute '" +:+ attribute +:+ "'")
  end.
Proof.
  unfold pvc_list_of. pose proof (pvc_list_loop_spec items []) as H.
  destruct (pvc_list_loop isoformat items []) as [e|l]; [exact H|].
  destruct H as (entries & -> & Hall). split; [|exact Hall].
  clear -Hall. induction Hall as [|pvc entry items entries H _ IH]; constructor.
  - destruct H as (m & t & st & Hm & Ht & Hs & _).
    unfold missing_attribute. rewrite Hm, Ht, Hs. reflexivity.
  - exact IH.
Qed.

End Listing.
End ListingProperties.

Module StartupProperties.
Import Sanitize Platform Program K8sManager Observe Notions Environment.
Import ProgramFacts.

Lemma truthy_spec v : truthy v = true <-> exists s, v = Some s /\ s <> "".
Proof.
  destruct v as [[|c s]|]; cbn [truthy]; split.
  - discriminate.
  - intros (s & [= <-] & H). congruence.
  - intros _. eexists. split; [reflexivity|discriminate].
  - reflexivity.
  - discriminate.
  - intros (s & H & _). discriminate.
Qed.

(** X24.  The manager module loads only with a Velocity secret that is
    set and not empty; its configuration then carries that secret, and
    each of the base path, the NFS server and the game domain is the
    value of its environment variable when the variable is set (be it
    to the empty string) and the documented default otherwise. *)
Theorem manager_constants_need_secret environ cfg :
  K8sManager.module_constants environ = Loaded cfg ->
  environ !! "VELOCITY_SECRET" = Some (VELOCITY_SECRET cfg) /\
  VELOCITY_SECRET cfg <> "" /\
  NFS_BASE_PATH cfg = default "/mnt/nfs-minecraft" (environ !! "NFS_BASE_PATH") /\
  NFS_SERVER cfg = default "100.75.219.111" (environ !! "NFS_SERVER") /\
  GAME_DOMAIN cfg = default "mc.msdca.shop" (environ !! "GAME_DOMAIN").
Proof.
  unfold K8sManager.module_constants, getenv, getenv_default. cbv zeta.
  destruct (truthy (environ !! "VELOCITY_SECRET")) eqn:E; cbn [negb]; [|discriminate].
  apply truthy_spec in E as (s & Hs & Hne). rewrite Hs.
  intros [= <-]. cbn. auto.
Qed.

Lemma manager_constants_need_secret_witness :
  let environ : Environ := {[ "VELOCITY_SECRET" := "s3cret"; "GAME_DOMAIN" := "" ]} in
  K8sManager.module_constants environ
    = Loaded (mkConfig "/mnt/nfs-minecraft" "100.75.219.111" "" "s3cret") /\
  K8sManager.module_constants ∅
    = RuntimeError "VELOCITY_SECRET 환경변수가 설정되지 않았습니다!" /\
  K8sManager.module_constants {[ "VELOCITY_SECRET" := "" ]}
    = RuntimeError "VELOCITY_SECRET 환경변수가 설정되지 않았습니다!" /\
  GAME_DOMAIN (mkConfig "/mnt/nfs-minecraft" "100.75.219.111" "" "s3cret")
    = default "mc.msdca.shop" (environ !! "GAME_DOMAIN").
Proof.
  cbv zeta.
  assert (H : K8sManager.module_constants
                ({[ "VELOCITY_SECRET" := "s3cret"; "GAME_DOMAIN" := "" ]} : Environ)
              = Loaded (mkConfig "/mnt/nfs-minecraft" "100.75.219.111" "" "s3cret"))
    by (vm_compute; reflexivity).
  destruct (manager_constants_need_secret _ _ H) as (_ & _ & _ & _ & H5).
  split; [exact H|]. split; [vm_compute; reflexivity|].
  split; [vm_compute; reflexivity|exact H5].
Defined.

(** X25.  The key module loads only with an internal key that is set
    and not empty, and the check passes for the header equal to that
    key and for no other: in particular a request with an empty
    [X-API-Key] header is refused on every route declared with the
    check. *)
Theorem empty_key_never_authenticates environ INTERNAL_API_KEY cfg r w :
  Auth.module_constants environ = Loaded INTERNAL_API_KEY ->
  x_api_key_of r = Some "" ->
  environ !! "INTERNAL_API_KEY" = Some INTERNAL_API_KEY /\
  run (Auth.verify_api_key INTERNAL_API_KEY INTERNAL_API_KEY) w = (Returned true, w) /\
  run (Main.app cfg INTERNAL_API_KEY r) w =
  (Raised (HTTPException 403 "Invalid API Key"), w).
Proof.
  unfold Auth.module_constants, getenv. cbv zeta.
  destruct (truthy (environ !! "INTERNAL_API_KEY")) eqn:E; cbn [negb]; [|discriminate].
  apply truthy_spec in E as (s & Hs & Hne). rewrite Hs. cbn [default].
  intros [= <-] Hr. split; [reflexivity|].
  assert (E : String.eqb "" s = false) by (apply String.eqb_neq; congruence).
  split.
  - unfold Auth.verify_api_key. rewrite String.eqb_refl. reflexivity.
  - destruct r; cbn [x_api_key_of] in Hr; try discriminate;
      injection Hr as ->;
      unfold Main.app, Main.depends, Auth.verify_api_key; rewrite E; reflexivity.
Qed.

Lemma empty_key_never_authenticates_witness :
  let environ : Environ := {[ "INTERNAL_API_KEY" := "s3cret-key" ]} in
  let r := Main.DELETE_k8s_server "" "alpha" "alpha-data" in
  let w := world Scenario.claim_alpha [] in
  Auth.module_constants environ = Loaded "s3cret-key" /\
  x_api_key_of r = Some "" /\
  run (Main.app Scenario.cfg "s3cret-key" r) w =
  (Raised (HTTPException 403 "Invalid API Key"), w).
Proof.
  cbv zeta.
  assert (H1 : Auth.module_constants ({[ "INTERNAL_API_KEY" := "s3cret-key" ]} : Environ)
               = Loaded "s3cret-key") by (vm_compute; reflexivity).
  assert (H2 : x_api_key_of (Main.DELETE_k8s_server "" "alpha" "alpha-data") = Some "")
    by reflexivity.
  destruct (empty_key_never_authenticates _ _ Scenario.cfg _
              (world Scenario.claim_alpha []) H1 H2) as (_ & _ & H3).
  split; [exact H1|]. split; [exact H2|exact H3].
Defined.

End StartupProperties.

Module EndToEndProperties.
Import Sanitize Platform Program K8sManager Observe Notions.
Import ProgramFacts RunFacts SuccessFacts OperationProperties EndpointProperties
       ProvisioningProperties.
Local Open Scope prog_scope.

(** X26.  A creation request that carries the configured key and leaves
    out the optional fields, for a server whose claim exists, succeeds
    when its eleven platform calls meet no fault: the response is the
    success record with the normalized names and the two addresses,
    the deployment is created with the defaults of the request model
    (memory limit 4Gi, memory request 2Gi, CPU limit 2, CPU request 1),
    and the claim is the one that was there. *)
Theorem post_server_resumes_paused_server
    cfg INTERNAL_API_KEY pod pvc servertap_key w claim :
  let s := _sanitize_name pod in
  let d := _sanitize_name pvc in
  let request :=
    Main.CreateServerRequest.new pod pvc servertap_key None None None None None in
  calm 11 (script w) ->
  objects w !! (PersistentVolumeClaim, d) = Some claim ->
  (forall b, objects w !! (ConfigMap, "paper-global-config") = Some b ->
             exists old, b = ConfigMapBody old) ->
  exists w1,
    run (Main.app cfg INTERNAL_API_KEY
           (Main.POST_k8s_server INTERNAL_API_KEY request)) w =
    (Returned
       (Main.Json
          (MinecraftServerManager.VDict
             [("status", "success"); ("pod_name", s); ("pvc_name", d);
              ("game_url", s +:+ "." +:+ GAME_DOMAIN cfg);
              ("api_url", "http://" +:+ s +:+ "-api." +:+ GAME_DOMAIN cfg)])), w1) /\
    objects w1 !! (Deployment, s)
      = Some (DeploymentBody d ("servertap-config-" +:+ s) "4Gi" "2Gi" "2" "1") /\
    objects w1 !! (PersistentVolumeClaim, d) = Some claim.
Proof.
  intros s d request Hcalm Hclaim Hkind.
  destruct (reprovision_calm cfg pod pvc servertap_key "4Gi" "2Gi" "2" "1" "10Gi"
              w claim Hcalm Hclaim Hkind) as (w1 & shared & Hrun & Hobjs & _).
  exists w1. split; [|split].
  - cbn [Main.app]. unfold Main.depends, Auth.verify_api_key.
    rewrite String.eqb_refl. cbn [negb bind]. rewrite run_bind.
    rewrite run_create_server_endpoint.
    subst request. cbn [Main.CreateServerRequest.new default
      Main.CreateServerRequest.pod_name Main.CreateServerRequest.pvc_name
      Main.CreateServerRequest.servertap_key Main.CreateServerRequest.memory_limit
      Main.CreateServerRequest.memory_request Main.CreateServerRequest.cpu_limit
      Main.CreateServerRequest.cpu_request Main.CreateServerRequest.storage_capacity].
    unfold MinecraftServerManager.create_server. rewrite run_try_except, Hrun.
    reflexivity.
  - rewrite Hobjs. rewrite !lookup_insert_ne by discriminate.
    apply lookup_insert_eq.
  - rewrite Hobjs. rewrite !lookup_insert_ne by discriminate.
    rewrite lookup_delete_all_other; [exact Hclaim|].
    apply (storage_not_ephemeral s d). cbn. auto.
Qed.

Lemma post_server_resumes_paused_server_witness :
  let w := world Scenario.claim_alpha [] in
  let request :=
    Main.CreateServerRequest.new "Alpha" "alpha-data" "key" None None None None None in
  calm 11 (script w) /\
  exists w1,
    run (Main.app Scenario.cfg "s3cret-key"
           (Main.POST_k8s_server "s3cret-key" request)) w =
    (Returned
       (Main.Json
          (MinecraftServerManager.VDict
             [("status", "success"); ("pod_name", "alpha"); ("pvc_name", "alpha-data");
              ("game_url", "alpha.mc.msdca.shop");
              ("api_url", "http://alpha-api.mc.msdca.shop")])), w1) /\
    objects w1 !! (Deployment, "alpha")
      = Some (DeploymentBody "alpha-data" "servertap-config-alpha" "4Gi" "2Gi" "2" "1").
Proof.
  cbv zeta. split; [vm_compute; tauto|].
  destruct (post_server_resumes_paused_server Scenario.cfg "s3cret-key"
              "Alpha" "alpha-data" "key" (world Scenario.claim_alpha [])
              (PersistentVolumeClaimBody "10Gi" "pv-alpha-data"))
    as (w1 & H1 & H2 & _).
  - vm_compute. tauto.
  - reflexivity.
  - intros b Hb. vm_compute in Hb. discriminate Hb.
  - exists w1. split; [exact H1|exact H2].
Defined.

(** X27.  Creating a server on a cluster that has neither its claim nor
    its volume and then deleting it, with no platform fault on the way
    (the directory task succeeded and the claim bound at their first
    polls), does not give the cluster back as it was: deployment,
    service, route, per-server config object, claim and volume are
    gone, and the finished directory task and the shared config object
    stay behind. *)
Theorem provision_then_teardown_leaves_task_and_shared_config cfg pod pvc key ml mr cl cr sc w :
  let s := _sanitize_name pod in
  let d := _sanitize_name pvc in
  calm 24 (script w) ->
  has_succeeded (status (nth 10 (script w) quiet)) = true ->
  is_bound (status (nth 14 (script w) quiet)) = true ->
  objects w !! (PersistentVolumeClaim, d) = None ->
  objects w !! (PersistentVolume, "pv-" +:+ d) = None ->
  (forall b, objects w !! (ConfigMap, "paper-global-config") = Some b ->
             exists old, b = ConfigMapBody old) ->
  exists w2 shared,
    run (MinecraftServerManager.create_server cfg pod pvc key ml mr cl cr sc ;;
         MinecraftServerManager.delete_server pod pvc) w =
    (Returned [("status", "cleaned"); ("pod_name", s); ("pvc_name", d)], w2) /\
    objects w2 =
    <[(Job, "create-nfs-dir-" +:+ d) := JobBody (NFS_BASE_PATH cfg +:+ "/" +:+ d)]>
      (<[(ConfigMap, "paper-global-config") := ConfigMapBody shared]>
         (delete_all (ephemeral_keys s) (objects w))) /\
    get "paper-global.yml" shared = Some (paper_global_yml cfg).
Proof.
  intros s d Hcalm Htask Hbound Hclaim Hvolume Hkind.
  destruct (first_provisioning_calm cfg pod pvc key ml mr cl cr sc w)
    as (w1 & shared & H1 & H2 & H3 & H4); auto.
  { apply (calm_window 24 (script w) 0 18); [exact Hcalm|lia]. }
  destruct (run_cleanup_all_calm pod pvc w1) as (w2 & E2 & O2).
  { rewrite H4. apply (calm_window 24); [exact Hcalm|lia]. }
  exists w2, shared. split; [|split; [|exact H3]].
  - rewrite run_bind. unfold MinecraftServerManager.create_server.
    rewrite run_try_except, H1. cbv beta iota.
    unfold MinecraftServerManager.delete_server. rewrite run_try_reraise. exact E2.
  - rewrite O2, H2. fold s d. apply map_eq. intros k.
    destruct (List.in_dec (fun a b => decide (a = b)) k (teardown_targets s d)) as [Hin|Hout].
    + rewrite lookup_delete_all_in by exact Hin.
      symmetry. unfold teardown_targets, ephemeral_keys, storage_keys in Hin.
      cbn [app In] in Hin.
      destruct Hin as [<-|[<-|[<-|[<-|[<-|[<-|[]]]]]]];
        rewrite !lookup_insert_ne by discriminate;
        first [ apply lookup_delete_all_in; cbn; tauto
              | rewrite lookup_delete_all_other by (apply (storage_not_ephemeral s d); cbn; tauto);
                assumption ].
    + rewrite lookup_delete_all_other by exact Hout.
      unfold teardown_targets, ephemeral_keys, storage_keys in Hout.
      cbn [app In] in Hout.
      unfold Naming.network_endpoint, Naming.route, Naming.per_server_config,
        Naming.durable_volume in Hout.
      rewrite !(lookup_insert_ne _ (Ingress, _)) by tauto.
      rewrite !(lookup_insert_ne _ (Service, _)) by tauto.
      rewrite !(lookup_insert_ne _ (Deployment, _)) by tauto.
      rewrite !(lookup_insert_ne _ (PersistentVolumeClaim, _)) by tauto.
      rewrite !(lookup_insert_ne _ (PersistentVolume, _)) by tauto.
      destruct (decide (k = (Job, "create-nfs-dir-" +:+ d))) as [->|Hj].
      * rewrite !lookup_insert_eq. reflexivity.
      * rewrite !(lookup_insert_ne _ (Job, _)) by congruence.
        rewrite (lookup_insert_ne _ (ConfigMap, "servertap-config-" +:+ s)) by tauto.
        reflexivity.
Qed.

Lemma provision_then_teardown_leaves_task_and_shared_config_witness :
  let w := world ∅ Scenario.smooth in
  calm 24 (script w) /\
  exists w2,
    run (Scenario.request "Alpha" "alpha-data" ;;
         MinecraftServerManager.delete_server "Alpha" "alpha-data") w =
    (Returned [("status", "cleaned"); ("pod_name", "alpha"); ("pvc_name", "alpha-data")],
     w2) /\
    objects w2 !! (Job, "create-nfs-dir-alpha-data")
      = Some (JobBody "/mnt/nfs-minecraft/alpha-data") /\
    objects w2 !! (Deployment, "alpha") = None /\
    objects w2 !! (PersistentVolumeClaim, "alpha-data") = None.
Proof.
  cbv zeta. split; [vm_compute; tauto|].
  destruct (provision_then_teardown_leaves_task_and_shared_config Scenario.cfg
              "Alpha" "alpha-data" "key" "4Gi" "2Gi" "2" "1" "10Gi"
              (world ∅ Scenario.smooth))
    as (w2 & shared & H1 & H2 & _).
  - vm_compute. tauto.
  - reflexivity.
  - reflexivity.
  - reflexivity.
  - reflexivity.
  - intros b Hb. vm_compute in Hb. discriminate Hb.
  - exists w2. split; [exact H1|]. rewrite H2.
    repeat split; vm_compute; reflexivity.
Defined.

End EndToEndProperties.
